(** * The basic-nft ledger contract

    A shallow embedding of [src/nft.cpp] and of its header (the tables
    [collections], [assets], [balances] and the eight actions), with the
    properties its specification states about it, and of the client scripts
    of [scripts/actions.js].

    The contract runs on an EOSIO host.  What the contract takes from the host
    is written out here as far as the code depends on it:
    - [check], [require_auth], [has_auth], [is_account],
      [require_recipient];
    - the tables (eosio::multi_index) as finite maps from the primary key to
      the row, with [emplace], [modify], [erase], [require_find]/[get] and
      [available_primary_key];
    - inline actions: [action(perm, _self, name, data).send()] queues an
      action that the host runs after the sending action, in the same
      transaction; a failure anywhere aborts the whole transaction. *)

From Stdlib Require Import ZArith Lia QArith_base.
From stdpp Require Import base gmap strings list fin_maps.

Open Scope Z_scope.

(** ** Machine integers *)

(** [uint64_t] arithmetic: the result modulo 2^64. *)
Definition u64 (z : Z) : Z := z mod 2 ^ 64.

(** [int64_t] arithmetic and the conversion to [int64_t]: two's complement
    on 64 bits, as on the WebAssembly target the contract is built for. *)
Definition i64 (z : Z) : Z := (z + 2 ^ 63) mod 2 ^ 64 - 2 ^ 63.

Definition UINT64_MAX : Z := 2 ^ 64 - 1.
Definition INT64_MAX : Z := 2 ^ 63 - 1.

Definition is_u64 (z : Z) : Prop := 0 <= z <= UINT64_MAX.
Definition is_i64 (z : Z) : Prop := - 2 ^ 63 <= z <= INT64_MAX.

(** ** Names, rows and tables *)

(** [eosio::name], by its 64-bit [value]; [name("")] has value 0. *)
Definition name : Type := Z.
Definition null_name : name := 0.

Record nft_collection : Type := {
  c_collection_id : Z;       (* uint64_t *)
  c_author : name;
  c_royalty : Z;             (* uint16_t *)
  c_data : string
}.

Record nft_asset : Type := {
  a_asset_id : Z;            (* uint64_t *)
  a_collection_id : Z;       (* uint64_t *)
  a_supply : Z;              (* uint64_t *)
  a_max_supply : Z;          (* uint64_t *)
  a_data : string
}.

Record nft_balance : Type := {
  b_asset_id : Z;            (* uint64_t *)
  b_balance : Z              (* int64_t *)
}.

(** The three tables.  [collections] and [assets] live in the scope of the
    contract account; [balances] has one scope per owner ([owner.value]), so
    its rows are keyed by the pair of the scope and the primary key. *)
Record ledger : Type := {
  colstable : gmap Z nft_collection;
  assetstable : gmap Z nft_asset;
  balances : gmap (name * Z) nft_balance
}.

Definition empty_ledger : ledger :=
  {| colstable := ∅; assetstable := ∅; balances := ∅ |}.

Definition set_colstable (t : gmap Z nft_collection) (st : ledger) : ledger :=
  {| colstable := t; assetstable := assetstable st; balances := balances st |}.
Definition set_assetstable (t : gmap Z nft_asset) (st : ledger) : ledger :=
  {| colstable := colstable st; assetstable := t; balances := balances st |}.
Definition set_balances (t : gmap (name * Z) nft_balance) (st : ledger) : ledger :=
  {| colstable := colstable st; assetstable := assetstable st; balances := t |}.

(** ** Actions *)

Inductive action : Type :=
| Createcol (author : name) (royalty : Z) (data : string)
| Createasset (collection_id supply max_supply : Z) (data : string)
| Mint (to : name) (asset_id amount : Z) (memo : string)
| Burn (asset_id amount : Z) (memo : string)
| Transfer (from to : name) (asset_id amount : Z) (memo : string)
| Collog (collection_id : Z) (author : name) (royalty : Z) (data : string)
| Assetlog (asset_id collection_id max_supply : Z) (data : string)
| Transferlog (from to : name) (asset_id amount from_balance to_balance : Z)
    (memo : string).

(** What an action hands to the host while it runs: a notification
    ([require_recipient]) or an inline action with the actor of the
    permission level it is sent with. *)
Inductive effect : Type :=
| Notify (recipient : name)
| Inline (actor : name) (act : action).

(** ** Failures *)

Inductive failure : Type :=
| check_failure (msg : string)
| missing_authority (n : name)
| key_exists
| inline_depth_exceeded.

Inductive result (A : Type) : Type :=
| Ok (a : A)
| Abort (f : failure).
Arguments Ok {A} a.
Arguments Abort {A} f.

(** ** The action monad *)

(** The host side of a running action: the contract account, the accounts
    that exist, and the actors whose authorization the action carries. *)
Record env : Type := {
  _self : name;
  is_account : name → bool;
  authorization : list name
}.

(** An action body reads the environment, threads the tables and the queue
    of effects, and may abort. *)
Definition M (A : Type) : Type :=
  env → ledger → list effect → result (A * ledger * list effect).

Definition ret {A} (a : A) : M A := λ _ st out, Ok (a, st, out).

Definition bind {A B} (m : M A) (k : A → M B) : M B :=
  λ e st out,
    match m e st out with
    | Ok (a, st', out') => k a e st' out'
    | Abort f => Abort f
    end.

#[global] Instance M_ret : MRet M := @ret.
#[global] Instance M_bind : MBind M := λ A B k m, bind m k.

Definition abort {A} (f : failure) : M A := λ _ _ _, Abort f.

Definition check (b : bool) (msg : string) : M unit :=
  if b then ret () else abort (check_failure msg).

Definition has_auth_in (auths : list name) (n : name) : bool :=
  existsb (Z.eqb n) auths.

Definition has_auth (n : name) : M bool :=
  λ e st out, Ok (has_auth_in (authorization e) n, st, out).

Definition require_auth (n : name) : M unit :=
  λ e st out,
    if has_auth_in (authorization e) n then Ok ((), st, out)
    else Abort (missing_authority n).

Definition get_self : M name := λ e st out, Ok (_self e, st, out).

Definition account_exists (n : name) : M bool :=
  λ e st out, Ok (is_account e n, st, out).

Definition require_recipient (n : name) : M unit :=
  λ _ st out, Ok ((), st, out ++ [Notify n]).

(** [action(permission_level{actor, "active"_n}, _self, ..., data).send()] *)
Definition send (actor : name) (act : action) : M unit :=
  λ _ st out, Ok ((), st, out ++ [Inline actor act]).

Definition get_ledger : M ledger := λ _ st out, Ok (st, st, out).
Definition modify_ledger (f : ledger → ledger) : M unit :=
  λ _ st out, Ok ((), f st, out).

(** ** multi_index operations *)

(** [require_find(key, msg)] and [get(key, msg)]: the row, or an abort with
    [msg]. *)
Definition require_find {K V} `{Countable K} (t : gmap K V) (k : K)
    (msg : string) : M V :=
  match t !! k with
  | Some v => ret v
  | None => abort (check_failure msg)
  end.

(** [emplace]: the host refuses a second row with a primary key the table
    already has. *)
Definition emplace {K V} `{Countable K} (t : gmap K V) (k : K) (v : V)
    : M (gmap K V) :=
  match t !! k with
  | Some _ => abort key_exists
  | None => ret (<[k := v]> t)
  end.

Definition no_available_primary_key : Z := 2 ^ 64 - 2.

(** Modelled from the spec: the allocator of the durable storage (sections
    4.1 and 6: the next available identifier of a namespace), which the code
    calls as [multi_index::available_primary_key] and which is not part of
    the repository.  It is 0 on an empty table, otherwise one more than the
    largest primary key of the table; it aborts at the end of the key
    range. *)
Definition next_primary_key {V} (t : gmap Z V) : Z :=
  match (map_to_list t).*1 with
  | [] => 0
  | k :: ks =>
      let pk := foldr Z.max k ks in
      if no_available_primary_key <=? pk then no_available_primary_key
      else pk + 1
  end.

Definition available_primary_key {V} (t : gmap Z V) : M Z :=
  check (next_primary_key t <? no_available_primary_key)
        "next primary key in table is at autoincrement limit";;
  ret (next_primary_key t).

(** ** The contract: balance helpers *)

Definition bytes (s : string) : Z := Z.of_nat (String.length s).

(** [nft::sub_balance]; [modify] updates the cached row in place, so the
    final [return from.balance] gives the balance after the debit. *)
Definition sub_balance (owner : name) (asset_id amount : Z) : M Z :=
  st ← get_ledger;
  from ← require_find (balances st) (owner, asset_id) "no balance object found";
  check (amount <=? b_balance from) "overdrawn balance";;
  if b_balance from =? amount then
    modify_ledger (set_balances (delete (owner, asset_id) (balances st)));;
    ret 0
  else
    let from' := {| b_asset_id := b_asset_id from;
                    b_balance := i64 (b_balance from - amount) |} in
    modify_ledger (set_balances (<[(owner, asset_id) := from']> (balances st)));;
    ret (b_balance from').

(** [nft::add_balance]; [ram_payer] only says who is billed for the storage
    of a new row. *)
Definition add_balance (owner : name) (asset_id amount : Z) (ram_payer : name)
    : M Z :=
  st ← get_ledger;
  match balances st !! (owner, asset_id) with
  | None =>
      let to := {| b_asset_id := asset_id; b_balance := amount |} in
      modify_ledger (set_balances (<[(owner, asset_id) := to]> (balances st)));;
      ret (b_balance to)
  | Some to =>
      let to' := {| b_asset_id := b_asset_id to;
                    b_balance := i64 (b_balance to + amount) |} in
      modify_ledger (set_balances (<[(owner, asset_id) := to']> (balances st)));;
      ret (b_balance to')
  end.

(** ** The contract: actions *)

(** [nft::mint] *)
Definition mint (to : name) (asset_id amount : Z) (memo : string) : M unit :=
  check (bytes memo <=? 256) "memo has more than 256 bytes";;
  st ← get_ledger;
  ast ← require_find (assetstable st) asset_id "unable to find asset";
  col ← require_find (colstable st) (a_collection_id ast)
          "unable to find collection";
  require_auth (c_author col);;
  check (0 <? amount) "must issue positive amount";;
  check (u64 (a_supply ast + amount) <=? a_max_supply ast)
        "amount exceeds available supply";;
  modify_ledger (set_assetstable
    (<[asset_id := {| a_asset_id := a_asset_id ast;
                      a_collection_id := a_collection_id ast;
                      a_supply := u64 (a_supply ast + amount);
                      a_max_supply := a_max_supply ast;
                      a_data := a_data ast |}]> (assetstable st)));;
  to_balance ← add_balance to asset_id amount (c_author col);
  (* transfer log *)
  self ← get_self;
  send self (Transferlog null_name (c_author col) asset_id amount 0
               to_balance memo);;
  (* transfer *)
  if negb (to =? c_author col) then
    send (c_author col) (Transfer (c_author col) to asset_id amount memo)
  else ret ().

(** [nft::createcol]; [royalty] is unsigned, so the first check never
    fails. *)
Definition createcol (author : name) (royalty : Z) (data : string) : M unit :=
  self ← get_self;
  require_auth self;;
  check (0 <=? royalty) "royalty must be positive";;
  check (royalty <=? 1000) "royalty must be less than 1000";;
  check (bytes data <=? 65535) "data has more than 65535 bytes";;
  known ← account_exists author;
  check known "author account does not exist";;
  st ← get_ledger;
  collection_id ← available_primary_key (colstable st);
  let collection_id := if collection_id =? 0 then 1 else collection_id in
  t ← emplace (colstable st) collection_id
        {| c_collection_id := collection_id; c_author := author;
           c_royalty := royalty; c_data := data |};
  modify_ledger (set_colstable t);;
  (* collog *)
  send self (Collog collection_id author royalty data).

(** [nft::createasset]; the call of [mint] passes the unsigned [supply] for
    the signed parameter [amount]. *)
Definition createasset (collection_id supply max_supply : Z) (data : string)
    : M unit :=
  check (0 <? max_supply) "max-supply must be positive";;
  check (bytes data <=? 65535) "data has more than 65535 bytes";;
  st ← get_ledger;
  col ← require_find (colstable st) collection_id "unable to find collection";
  require_auth (c_author col);;
  asset_id ← available_primary_key (assetstable st);
  let asset_id := if asset_id =? 0 then 1 else asset_id in
  t ← emplace (assetstable st) asset_id
        {| a_asset_id := asset_id; a_collection_id := collection_id;
           a_supply := 0; a_max_supply := max_supply; a_data := data |};
  modify_ledger (set_assetstable t);;
  (* assetlog *)
  self ← get_self;
  send self (Assetlog asset_id collection_id max_supply data);;
  if 0 <? supply then
    mint (c_author col) asset_id (i64 supply) "create and mint"
  else ret ().

(** [nft::burn]; the comparison of the unsigned [supply] with the signed
    [amount] is made on 64-bit unsigned values. *)
Definition burn (asset_id amount : Z) (memo : string) : M unit :=
  check (bytes memo <=? 256) "memo has more than 256 bytes";;
  check (0 <? amount) "must retire positive amount";;
  st ← get_ledger;
  ast ← require_find (assetstable st) asset_id "unable to find asset";
  check (u64 amount <=? a_supply ast) "insufficient amount";;
  col ← require_find (colstable st) (a_collection_id ast)
          "unable to find collection";
  require_auth (c_author col);;
  modify_ledger (set_assetstable
    (<[asset_id := {| a_asset_id := a_asset_id ast;
                      a_collection_id := a_collection_id ast;
                      a_supply := u64 (a_supply ast - amount);
                      a_max_supply := a_max_supply ast;
                      a_data := a_data ast |}]> (assetstable st)));;
  from_balance ← sub_balance (c_author col) asset_id amount;
  (* transfer log *)
  self ← get_self;
  send self (Transferlog (c_author col) null_name asset_id amount
               from_balance 0 memo).

(** [nft::transfer] *)
Definition transfer (from to : name) (asset_id amount : Z) (memo : string)
    : M unit :=
  check (negb (from =? to)) "cannot transfer to self";;
  require_auth from;;
  known ← account_exists to;
  check known "to account does not exist";;
  st ← get_ledger;
  _ ← require_find (assetstable st) asset_id "unable to find asset";
  require_recipient from;;
  require_recipient to;;
  check (0 <? amount) "must transfer positive amount";;
  check (bytes memo <=? 256) "memo has more than 256 bytes";;
  to_signed ← has_auth to;
  let payer := if (to_signed : bool) then to else from in
  from_balance ← sub_balance from asset_id amount;
  to_balance ← add_balance to asset_id amount payer;
  (* transfer log *)
  self ← get_self;
  send self (Transferlog from to asset_id amount from_balance to_balance memo).

(** The three log actions of the header: [{ require_auth(_self); }]. *)
Definition log_action : M unit :=
  self ← get_self;
  require_auth self.

(** The dispatcher: the body an action name stands for. *)
Definition apply (a : action) : M unit :=
  match a with
  | Createcol author royalty data => createcol author royalty data
  | Createasset collection_id supply max_supply data =>
      createasset collection_id supply max_supply data
  | Mint to asset_id amount memo => mint to asset_id amount memo
  | Burn asset_id amount memo => burn asset_id amount memo
  | Transfer from to asset_id amount memo =>
      transfer from to asset_id amount memo
  | Collog _ _ _ _ | Assetlog _ _ _ _ | Transferlog _ _ _ _ _ _ _ => log_action
  end.

(** ** Transactions *)

(** An executed action with the accounts it notified. *)
Definition trace : Type := list (action * list name).

Definition notified (out : list effect) : list name :=
  omap (λ x, match x with Notify n => Some n | Inline _ _ => None end) out.

Definition inlined (out : list effect) : list (name * action) :=
  omap (λ x, match x with Inline p a => Some (p, a) | Notify _ => None end) out.

Definition with_actor (e : env) (actor : name) : env :=
  {| _self := _self e; is_account := is_account e; authorization := [actor] |}.

(** The inline actions of one action, in the order they were sent; each runs
    with the authorization it was sent with. *)
Definition execute_all
    (exec : env → action → ledger → result (ledger * trace)) (e : env)
    : list (name * action) → ledger → result (ledger * trace) :=
  fix go l st :=
    match l with
    | [] => Ok (st, [])
    | (actor, a) :: l' =>
        match exec (with_actor e actor) a st with
        | Abort f => Abort f
        | Ok (st1, tr1) =>
            match go l' st1 with
            | Abort f => Abort f
            | Ok (st2, tr2) => Ok (st2, tr1 ++ tr2)
            end
        end
    end.

(** The host's limit on the nesting of inline actions. *)
Definition max_inline_action_depth : nat := 4.

(** An action, then the inline actions it sent, depth first.  [room] is how
    many more levels of inline actions the host allows below this action. *)
Fixpoint execute_at (room : nat) (e : env) (a : action) (st : ledger)
    : result (ledger * trace) :=
  match apply a e st [] with
  | Abort f => Abort f
  | Ok (_, st1, out) =>
      match inlined out with
      | [] => Ok (st1, [(a, notified out)])
      | l =>
          match room with
          | O => Abort inline_depth_exceeded
          | S room' =>
              match execute_all (execute_at room') e l st1 with
              | Abort f => Abort f
              | Ok (st2, tr) => Ok (st2, (a, notified out) :: tr)
              end
          end
      end
  end.

Definition execute (e : env) (a : action) (st : ledger)
    : result (ledger * trace) :=
  execute_at max_inline_action_depth e a st.

(** A transaction with one action: the host keeps the tables of a
    transaction that aborts as they were. *)
Definition transact (e : env) (a : action) (st : ledger)
    : ledger * result trace :=
  match execute e a st with
  | Ok (st', tr) => (st', Ok tr)
  | Abort f => (st, Abort f)
  end.

(** ** Observations *)

(** The balance of an owner, 0 without a row, and the supply of an asset. *)
Definition balance_of (st : ledger) (owner : name) (asset_id : Z) : Z :=
  match balances st !! (owner, asset_id) with
  | Some b => b_balance b
  | None => 0
  end.

Definition supply_of (st : ledger) (asset_id : Z) : Z :=
  match assetstable st !! asset_id with
  | Some a => a_supply a
  | None => 0
  end.

(** The sum of the balances of all owners for one asset. *)
Definition total (t : gmap (name * Z) nft_balance) (asset_id : Z) : Z :=
  map_fold (λ k b acc, if decide (k.2 = asset_id) then b_balance b + acc else acc)
           0 t.

Definition total_balance (st : ledger) (asset_id : Z) : Z :=
  total (balances st) asset_id.

(** [balance_of] on a table of balance rows. *)
Definition balance_in (t : gmap (name * Z) nft_balance) (owner : name)
    (asset_id : Z) : Z :=
  match t !! (owner, asset_id) with
  | Some b => b_balance b
  | None => 0
  end.

(** The [transferlog] actions of a trace. *)
Definition transferlogs (tr : trace) : list action :=
  omap (λ x, match x.1 with Transferlog _ _ _ _ _ _ _ => Some x.1 | _ => None end) tr.

(** The row [add_balance] leaves for the owner. *)
Definition credited (t : gmap (name * Z) nft_balance) (owner : name)
    (asset_id amount : Z) : nft_balance :=
  match t !! (owner, asset_id) with
  | None => {| b_asset_id := asset_id; b_balance := amount |}
  | Some to => {| b_asset_id := b_asset_id to;
                  b_balance := i64 (b_balance to + amount) |}
  end.

(** The asset row after [s.supply += amount] and [s.supply -= amount]. *)
Definition with_supply (ast : nft_asset) (supply : Z) : nft_asset :=
  {| a_asset_id := a_asset_id ast; a_collection_id := a_collection_id ast;
     a_supply := supply; a_max_supply := a_max_supply ast;
     a_data := a_data ast |}.

(** The identifier lines 13-16 and 40-43 of [nft.cpp] pick for a new row. *)
Definition allocated {V} (t : gmap Z V) : Z :=
  if next_primary_key t =? 0 then 1 else next_primary_key t.

(** The log actions, and the actions that leave [collections] and [assets]
    alone. *)
Definition is_log (a : action) : bool :=
  match a with
  | Collog _ _ _ _ | Assetlog _ _ _ _ | Transferlog _ _ _ _ _ _ _ => true
  | _ => false
  end.

Definition is_quiet (a : action) : bool :=
  match a with
  | Transfer _ _ _ _ _ => true
  | _ => is_log a
  end.

(** The keys of a table are exactly 1, ..., n: what the allocation keeps
    true of [collections] and [assets], from the empty tables on. *)
Definition contiguous {V} (t : gmap Z V) (n : Z) : Prop :=
  ∀ k, is_Some (t !! k) ↔ 1 ≤ k ≤ n.

(** [id] is the smallest identifier from 1 on that the table does not use. *)
Definition smallest_unused {V} (t : gmap Z V) (id : Z) : Prop :=
  1 ≤ id ∧ t !! id = None ∧ ∀ k, 1 ≤ k < id → is_Some (t !! k).

(** Every balance row is for an asset of the table [assets]. *)
Definition balances_closed (st : ledger) : Prop :=
  ∀ owner asset_id,
    is_Some (balances st !! (owner, asset_id)) →
    is_Some (assetstable st !! asset_id).

(** ** The ledger within 63 bits *)

(** Every balance row holds a positive quantity. *)
Definition positive_rows (t : gmap (name * Z) nft_balance) : Prop :=
  ∀ key b, t !! key = Some b → 0 < b_balance b.

(** What the specification asks of a ledger, for assets whose [max_supply]
    fits the signed 64 bits of an amount: the supply within the cap, rows
    only for assets, every row positive, and the rows of an asset adding up
    to its supply. *)
Record ledger_ok (st : ledger) : Prop := {
  ok_assets : ∀ k a, assetstable st !! k = Some a →
                0 ≤ a_supply a ≤ a_max_supply a ∧ a_max_supply a ≤ INT64_MAX;
  ok_closed : balances_closed st;
  ok_rows : positive_rows (balances st);
  ok_sum : ∀ k, total_balance st k = supply_of st k
}.

(** The actions with well-typed amounts that create no asset with a larger
    [max_supply]. *)
Definition fits (a : action) : Prop :=
  match a with
  | Createasset _ supply max_supply _ => is_u64 supply ∧ max_supply ≤ INT64_MAX
  | Mint _ _ amount _ | Burn _ amount _ | Transfer _ _ _ amount _ =>
      is_i64 amount
  | _ => True
  end.

(** The ledgers that actions with the property [P] lead to from the empty
    ledger. *)
Inductive reachable_by (P : action → Prop) : ledger → Prop :=
| reachable_by_empty : reachable_by P empty_ledger
| reachable_by_step e a st st' tr :
    reachable_by P st → P a → execute e a st = Ok (st', tr) →
    reachable_by P st'.

(** What holds of every ledger, whatever the quantities: the keys of
    [collections] and of [assets] are 1, ..., n, and the balance rows are
    for assets of the table. *)
Record ledger_wf (st : ledger) : Prop := {
  wf_collections : ∃ n, 0 ≤ n ∧ contiguous (colstable st) n;
  wf_assets : ∃ m, 0 ≤ m ∧ contiguous (assetstable st) m;
  wf_closed : balances_closed st
}.

(** The actions with well-typed quantities. *)
Definition typed (a : action) : Prop :=
  match a with
  | Createasset _ supply max_supply _ => is_u64 supply ∧ is_u64 max_supply
  | Mint _ _ amount _ | Burn _ amount _ | Transfer _ _ _ amount _ =>
      is_i64 amount
  | _ => True
  end.

(** Every stored supply is within the cap of its asset. *)
Definition supply_capped (st : ledger) : Prop :=
  ∀ k a, assetstable st !! k = Some a →
         0 ≤ a_supply a ≤ a_max_supply a ∧ a_max_supply a ≤ UINT64_MAX.

(** ** What is stored, who signs, and why an action aborts *)

(** The actions whose body sends nothing but logs. *)
Definition sends_logs_only (a : action) : bool :=
  match a with
  | Mint _ _ _ _ => false
  | _ => true
  end.

(** What the checks of [createcol] and [createasset] and the writes of the
    other actions keep true of the stored rows: a row is stored under its
    own identifier, a royalty is at most 1000, a [data] has at most 65535
    bytes, a cap is positive, and the collection of an asset exists. *)
Record rows_valid (st : ledger) : Prop := {
  valid_collections :
    ∀ k c, colstable st !! k = Some c →
           c_collection_id c = k ∧ 0 ≤ c_royalty c ≤ 1000 ∧
           bytes (c_data c) ≤ 65535;
  valid_assets :
    ∀ k x, assetstable st !! k = Some x →
           a_asset_id x = k ∧ is_Some (colstable st !! a_collection_id x) ∧
           0 < a_max_supply x ∧ bytes (a_data x) ≤ 65535;
  valid_balances :
    ∀ o k b, balances st !! (o, k) = Some b → b_asset_id b = k
}.

(** The messages of the checks of each action: those of its body and, for
    [createasset] and for [mint], those of the [mint] and of the [transfer]
    that follow. *)
Definition refusals (a : action) : list string :=
  match a with
  | Createcol _ _ _ =>
      ["royalty must be positive"; "royalty must be less than 1000";
       "data has more than 65535 bytes"; "author account does not exist";
       "next primary key in table is at autoincrement limit"]
  | Createasset _ _ _ _ =>
      ["max-supply must be positive"; "data has more than 65535 bytes";
       "unable to find collection";
       "next primary key in table is at autoincrement limit";
       "must issue positive amount"; "amount exceeds available supply"]
  | Mint _ _ _ _ =>
      ["memo has more than 256 bytes"; "unable to find asset";
       "must issue positive amount"; "amount exceeds available supply";
       "to account does not exist"; "no balance object found";
       "overdrawn balance"]
  | Burn _ _ _ =>
      ["memo has more than 256 bytes"; "must retire positive amount";
       "unable to find asset"; "insufficient amount";
       "no balance object found"; "overdrawn balance"]
  | Transfer _ _ _ _ _ =>
      ["cannot transfer to self"; "to account does not exist";
       "unable to find asset"; "must transfer positive amount";
       "memo has more than 256 bytes"; "no balance object found";
       "overdrawn balance"]
  | _ => []
  end.

(** The account whose authorization the body of an action requires. *)
Definition required_signer (e : env) (st : ledger) (a : action) : option name :=
  match a with
  | Createasset collection_id _ _ _ =>
      c_author <$> colstable st !! collection_id
  | Mint _ asset_id _ _ | Burn asset_id _ _ =>
      ast ← assetstable st !! asset_id;
      c_author <$> colstable st !! a_collection_id ast
  | Transfer from _ _ _ _ => Some from
  | _ => Some (_self e)
  end.

(** ** A concrete host, for the worked examples *)

(** The values of the names "nft", "alice", "bob", "carol" and "ghost". *)
Definition nftacct : name := 11164986426204880896.
Definition alice : name := 3773036822876127232.
Definition bob : name := 4399453885987553280.
Definition carol : name := 4733081447982694400.
Definition ghost : name := 7163411163693187072.

(** The contract is deployed on the account [nftacct]; every name above
    except [ghost] is an account. *)
Definition host (auths : list name) : env :=
  {| _self := nftacct;
     is_account := λ n, bool_decide (n ∈ [nftacct; alice; bob; carol]);
     authorization := auths |}.

(** A sequence of transactions, each with the actors that signed it. *)
Fixpoint replay (l : list (list name * action)) (st : ledger)
    : ledger * list (result trace) :=
  match l with
  | [] => (st, [])
  | (auths, a) :: l' =>
      let r := transact (host auths) a st in
      let r' := replay l' r.1 in
      (r'.1, r.2 :: r'.2)
  end.

(** What a completed action returns, for examples where it completes. *)
Definition outcome (e : env) (a : action) (st : ledger) : ledger * trace :=
  match execute e a st with
  | Ok r => r
  | Abort _ => (st, [])
  end.

(** One collection of the contract account itself, with one asset of which
    the author was given 10 out of at most 100 at creation. *)
Definition steps10 : list (list name * action) :=
  [([nftacct], Createcol nftacct 500 "{}");
   ([nftacct], Createasset 1 10 100 "{}")].

Definition ledger10 : ledger := (replay steps10 empty_ledger).1.

(** One collection of the contract account itself, without assets. *)
Definition ledger_col : ledger :=
  (replay [([nftacct], Createcol nftacct 500 "{}")] empty_ledger).1.

(** The same collection with an asset of which nothing was minted yet. *)
Definition ledger_fresh : ledger :=
  (replay [([nftacct], Createcol nftacct 500 "{}");
           ([nftacct], Createasset 1 0 100 "{}")] empty_ledger).1.

(** A transaction that completed. *)
Definition completed (r : result trace) : bool :=
  match r with Ok _ => true | Abort _ => false end.

(** An asset with the largest [max_supply] a [uint64_t] holds, of which the
    author has minted 2^63 - 1 twice and passed the quantity on each time,
    to [bob] and to [carol]: 2^64 - 2 are in circulation. *)
Definition steps_full : list (list name * action) :=
  [([nftacct], Createcol nftacct 500 "{}");
   ([nftacct], Createasset 1 0 UINT64_MAX "{}");
   ([nftacct], Mint nftacct 1 INT64_MAX "");
   ([nftacct], Transfer nftacct bob 1 INT64_MAX "");
   ([nftacct], Mint nftacct 1 INT64_MAX "");
   ([nftacct], Transfer nftacct carol 1 INT64_MAX "")].

Definition ledger_full : ledger := (replay steps_full empty_ledger).1.

(** The same asset, of which the author has minted 2^63 - 1 to itself. *)
Definition steps_author_max : list (list name * action) :=
  [([nftacct], Createcol nftacct 500 "{}");
   ([nftacct], Createasset 1 0 UINT64_MAX "{}");
   ([nftacct], Mint nftacct 1 INT64_MAX "")].

Definition ledger_author_max : ledger :=
  (replay steps_author_max empty_ledger).1.

(** The same asset, of which [bob] holds 2^63 - 1 and the author 1. *)
Definition steps_bob_max : list (list name * action) :=
  [([nftacct], Createcol nftacct 500 "{}");
   ([nftacct], Createasset 1 0 UINT64_MAX "{}");
   ([nftacct], Mint nftacct 1 INT64_MAX "");
   ([nftacct], Transfer nftacct bob 1 INT64_MAX "");
   ([nftacct], Mint nftacct 1 1 "")].

Definition ledger_bob_max : ledger := (replay steps_bob_max empty_ledger).1.

(** The run of section 8 of the specification: a collection and an asset
    of [alice] with a cap of 10, all 10 minted to her, one more refused, 4
    passed on to [bob], the remaining 6 burnt. *)
Definition steps_spec : list (list name * action) :=
  [([nftacct], Createcol alice 500 "{}");
   ([nftacct], Createcol alice 500 "{}");
   ([alice], Createasset 1 0 10 "{}");
   ([alice], Mint alice 1 10 "m");
   ([alice], Mint alice 1 1 "m");
   ([alice], Transfer alice bob 1 4 "t");
   ([alice], Transfer alice alice 1 1 "t");
   ([alice], Burn 1 6 "b")].

(** * The client scripts, [scripts/actions.js] *)

Module actions_js.

(** The values the parameters of the scripts range over: those of JSON and
    [undefined].  A number is a double: [NaN], an infinity or a finite
    value, which is a rational; [-0] is not told from [0], as no expression
    of the scripts tells them apart. *)
Inductive js_number : Type :=
| js_nan
| js_infinity (negative : bool)
| js_finite (q : Q).

#[warnings="-register-all"] Inductive js_value : Type :=
| js_undefined
| js_null
| js_boolean (b : bool)
| js_num (n : js_number)
| js_string (s : string)
| js_array (items : list js_value)
| js_object (properties : list (string * js_value)).

Definition js_int (z : Z) : js_value := js_num (js_finite (inject_Z z)).

(** [!v] is [negb (to_boolean v)]: [undefined], [null], [false], [0],
    [NaN] and the empty string are falsy. *)
Definition to_boolean (v : js_value) : bool :=
  match v with
  | js_undefined | js_null => false
  | js_boolean b => b
  | js_num js_nan => false
  | js_num (js_infinity _) => true
  | js_num (js_finite q) => negb (Qnum q =? 0)
  | js_string s => negb (String.eqb s "")
  | js_array _ | js_object _ => true
  end.

Definition typeof (v : js_value) : string :=
  match v with
  | js_undefined => "undefined"
  | js_null => "object"
  | js_boolean _ => "boolean"
  | js_num _ => "number"
  | js_string _ => "string"
  | js_array _ | js_object _ => "object"
  end.

Definition Array_isArray (v : js_value) : bool :=
  match v with js_array _ => true | _ => false end.

(** [v.key] for the property names the scripts read, none of which a
    string, a number, a boolean or an array has. *)
Fixpoint lookup_property (key : string) (properties : list (string * js_value))
    : js_value :=
  match properties with
  | [] => js_undefined
  | (k, v) :: rest => if String.eqb k key then v else lookup_property key rest
  end.

Definition get (v : js_value) (key : string) : js_value :=
  match v with
  | js_object properties => lookup_property key properties
  | _ => js_undefined
  end.

(** [data.key = v]: a new property comes last. *)
Fixpoint assign (key : string) (v : js_value)
    (properties : list (string * js_value)) : list (string * js_value) :=
  match properties with
  | [] => [(key, v)]
  | (k, old) :: rest =>
      if String.eqb k key then (k, v) :: rest
      else (k, old) :: assign key v rest
  end.

(** What a call of a script comes to: the [TypeError] of destructuring
    [undefined] or [null], the [Error] it throws, or the call
    [api.transact(transaction, options)], whose result it returns. *)
Inductive outcome : Type :=
| type_error
| throws (message : string)
| transact (transaction options : js_value).

Definition nftContract : string := "your eos account".

(** The one action every script sends, signed by the contract account. *)
Definition transaction (name : string) (data : js_value) : js_value :=
  js_object
    [("actions",
      js_array
        [js_object
           [("account", js_string nftContract);
            ("name", js_string name);
            ("authorization",
             js_array [js_object [("actor", js_string nftContract);
                                  ("permission", js_string "active")]]);
            ("data", data)]])].

Definition options : js_value :=
  js_object [("blocksBehind", js_int 3); ("expireSeconds", js_int 30)].

Section Scripts.
(** [JSON.stringify], a built-in of the language. *)
Variable JSON_stringify : js_value → string.

Definition createCol (params : js_value) : outcome :=
  match params with
  | js_undefined | js_null => type_error
  | _ =>
      let author := get params "author" in
      let royalty := get params "royalty" in
      let name := get params "name" in
      let image := get params "image" in
      let banner := get params "banner" in
      let description := get params "description" in
      let links := get params "links" in
      if negb (to_boolean author) || negb (to_boolean royalty)
         || negb (to_boolean name) || negb (to_boolean image)
         || negb (to_boolean banner)
         || negb (String.eqb (typeof links) "object")
      then throws "Missing parameters"
      else
        let data :=
          js_object [("name", name); ("image", image); ("banner", banner);
                     ("description", description); ("links", links)] in
        transact
          (transaction "createcol"
             (js_object [("author", author); ("royalty", royalty);
                         ("data", js_string (JSON_stringify data))]))
          options
  end.

Definition createAsset (params : js_value) : outcome :=
  match params with
  | js_undefined | js_null => type_error
  | _ =>
      let collection_id := get params "collection_id" in
      let supply := get params "supply" in
      let max_supply := get params "max_supply" in
      let name := get params "name" in
      let image := get params "image" in
      let animation_url := get params "animation_url" in
      let external_url := get params "external_url" in
      let description := get params "description" in
      let attributes := get params "attributes" in
      if negb (to_boolean collection_id) || negb (to_boolean supply)
         || negb (to_boolean max_supply) || negb (to_boolean name)
         || negb (to_boolean image) || negb (to_boolean description)
         || negb (Array_isArray attributes)
      then throws "Missing parameters"
      else
        let data := [("name", name); ("image", image);
                     ("description", description);
                     ("attributes", attributes)] in
        let data :=
          if to_boolean animation_url
          then assign "animation_url" animation_url data else data in
        let data :=
          if to_boolean external_url
          then assign "external_url" external_url data else data in
        transact
          (transaction "createasset"
             (js_object [("collection_id", collection_id); ("supply", supply);
                         ("max_supply", max_supply);
                         ("data", js_string (JSON_stringify (js_object data)))]))
          options
  end.
End Scripts.

Definition mint (to asset_id amount memo : js_value) : outcome :=
  if negb (to_boolean asset_id) || negb (to_boolean amount)
     || negb (to_boolean to)
  then throws "Missing parameters"
  else
    transact
      (transaction "mint"
         (js_object [("to", to); ("asset_id", asset_id); ("amount", amount);
                     ("memo", memo)]))
      options.

Definition transfer (from to asset_id amount memo : js_value) : outcome :=
  if negb (to_boolean from) || negb (to_boolean to)
     || negb (to_boolean asset_id) || negb (to_boolean amount)
  then throws "Missing parameters"
  else
    transact
      (transaction "transfer"
         (js_object [("from", from); ("to", to); ("asset_id", asset_id);
                     ("amount", amount); ("memo", memo)]))
      options.

(** The accounts whose authorization a transaction carries. *)
Definition actors (tx : js_value) : list js_value :=
  match get tx "actions" with
  | js_array actions =>
      mjoin ((λ a, match get a "authorization" with
                   | js_array auths => (λ p, get p "actor") <$> auths
                   | _ => []
                   end) <$> actions)
  | _ => []
  end.

(** The README's first example. *)
Definition readme_collection : js_value :=
  js_object
    [("author", js_string "your-eos-account");
     ("royalty", js_int 0);
     ("name", js_string "NFT Collection Name");
     ("description", js_string "NFT Collection Description");
     ("image", js_string "https://ipfs.io/ipfs/xxxxxxxx");
     ("banner", js_string "https://ipfs.io/ipfs/yyyyyyyy");
     ("links",
      js_object [("url", js_string "https://your-website.io/");
                 ("twitter", js_string "https://twitter.com/your-twitter")])].

End actions_js.

(** ** Proof steps *)

Ltac unfold_M :=
  cbv beta iota delta
    [mbind M_bind bind mret M_ret ret check abort require_auth has_auth
     get_self account_exists require_recipient send get_ledger modify_ledger
     require_find emplace log_action].

Ltac Forall_by tac :=
  repeat match goal with
         | |- Forall _ [] => constructor
         | |- Forall _ (_ :: _) => constructor; [cbn; first [done|tac]|]
         end.

Ltac in_list :=
  repeat first [apply list_elem_of_here | apply list_elem_of_further].

Ltac refused :=
  simplify_eq; right; eexists; split; [reflexivity|in_list].

(** * Properties *)

(** ** Machine integers *)

Lemma u64_small z : is_u64 z → u64 z = z.
Proof. unfold is_u64, UINT64_MAX, u64. intros ?. apply Z.mod_small. lia. Qed.

Lemma i64_small z : is_i64 z → i64 z = z.
Proof.
  unfold is_i64, INT64_MAX, i64. intros ?.
  rewrite Z.mod_small; lia.
Qed.

Lemma u64_range z : is_u64 (u64 z).
Proof.
  unfold is_u64, UINT64_MAX, u64.
  pose proof (Z.mod_pos_bound z (2 ^ 64)). lia.
Qed.

Lemma i64_range z : is_i64 (i64 z).
Proof.
  unfold is_i64, INT64_MAX, i64.
  pose proof (Z.mod_pos_bound (z + 2 ^ 63) (2 ^ 64)). lia.
Qed.

(** An unsigned value passed for a signed parameter is positive there only
    if it is unchanged. *)
Lemma i64_of_u64_pos z : is_u64 z → 0 < i64 z → i64 z = z ∧ z ≤ INT64_MAX.
Proof.
  unfold is_u64, UINT64_MAX, INT64_MAX, i64. intros Hz Hpos.
  destruct (decide (z < 2 ^ 63)) as [Hlt|Hge].
  - rewrite Z.mod_small in * by lia. lia.
  - rewrite <- (Z.mod_add _ (-1)) in Hpos by lia.
    rewrite Z.mod_small in Hpos by lia. lia.
Qed.

#[global] Opaque u64 i64.

(** ** What the action bodies compute *)

Lemma add_balance_run owner asset_id amount ram_payer e st out :
  add_balance owner asset_id amount ram_payer e st out =
  Ok (b_balance (credited (balances st) owner asset_id amount),
      set_balances (<[(owner, asset_id) :=
                        credited (balances st) owner asset_id amount]>
                      (balances st)) st,
      out).
Proof.
  unfold add_balance, credited. unfold_M.
  destruct (balances st !! (owner, asset_id)); reflexivity.
Qed.

Lemma sub_balance_run owner asset_id amount e st out :
  sub_balance owner asset_id amount e st out =
  match balances st !! (owner, asset_id) with
  | None => Abort (check_failure "no balance object found")
  | Some from =>
      if amount <=? b_balance from then
        if b_balance from =? amount then
          Ok (0, set_balances (delete (owner, asset_id) (balances st)) st, out)
        else
          Ok (i64 (b_balance from - amount),
              set_balances
                (<[(owner, asset_id) :=
                     {| b_asset_id := b_asset_id from;
                        b_balance := i64 (b_balance from - amount) |}]>
                   (balances st)) st,
              out)
      else Abort (check_failure "overdrawn balance")
  end.
Proof.
  unfold sub_balance. unfold_M.
  destruct (balances st !! (owner, asset_id)) as [from|]; [|reflexivity].
  destruct (amount <=? b_balance from); [|reflexivity].
  destruct (b_balance from =? amount); reflexivity.
Qed.

Lemma mint_run to asset_id amount memo e st out :
  mint to asset_id amount memo e st out =
  if bytes memo <=? 256 then
    match assetstable st !! asset_id with
    | None => Abort (check_failure "unable to find asset")
    | Some ast =>
        match colstable st !! a_collection_id ast with
        | None => Abort (check_failure "unable to find collection")
        | Some col =>
            if has_auth_in (authorization e) (c_author col) then
              if 0 <? amount then
                if u64 (a_supply ast + amount) <=? a_max_supply ast then
                  let row := credited (balances st) to asset_id amount in
                  Ok ((),
                      {| colstable := colstable st;
                         assetstable :=
                           <[asset_id := with_supply ast (u64 (a_supply ast + amount))]>
                             (assetstable st);
                         balances := <[(to, asset_id) := row]> (balances st) |},
                      if to =? c_author col then
                        out ++ [Inline (_self e)
                                  (Transferlog null_name (c_author col) asset_id
                                     amount 0 (b_balance row) memo)]
                      else
                        (out ++ [Inline (_self e)
                                   (Transferlog null_name (c_author col) asset_id
                                      amount 0 (b_balance row) memo)])
                          ++ [Inline (c_author col)
                                (Transfer (c_author col) to asset_id amount memo)])
                else Abort (check_failure "amount exceeds available supply")
              else Abort (check_failure "must issue positive amount")
            else Abort (missing_authority (c_author col))
        end
    end
  else Abort (check_failure "memo has more than 256 bytes").
Proof.
  unfold mint. unfold_M.
  destruct (bytes memo <=? 256); [|reflexivity].
  destruct (assetstable st !! asset_id) as [ast|]; [|reflexivity].
  destruct (colstable st !! a_collection_id ast) as [col|]; [|reflexivity].
  destruct (has_auth_in (authorization e) (c_author col)); [|reflexivity].
  destruct (0 <? amount); [|reflexivity].
  destruct (u64 (a_supply ast + amount) <=? a_max_supply ast); [|reflexivity].
  rewrite add_balance_run. cbn [set_assetstable set_balances balances colstable assetstable].
  destruct (to =? c_author col); reflexivity.
Qed.

Lemma burn_run asset_id amount memo e st out :
  burn asset_id amount memo e st out =
  if bytes memo <=? 256 then
    if 0 <? amount then
      match assetstable st !! asset_id with
      | None => Abort (check_failure "unable to find asset")
      | Some ast =>
          if u64 amount <=? a_supply ast then
            match colstable st !! a_collection_id ast with
            | None => Abort (check_failure "unable to find collection")
            | Some col =>
                if has_auth_in (authorization e) (c_author col) then
                  match
                    sub_balance (c_author col) asset_id amount e
                      (set_assetstable
                         (<[asset_id := with_supply ast (u64 (a_supply ast - amount))]>
                            (assetstable st)) st) out
                  with
                  | Abort f => Abort f
                  | Ok (from_balance, st', out') =>
                      Ok ((), st',
                          out' ++ [Inline (_self e)
                                     (Transferlog (c_author col) null_name asset_id
                                        amount from_balance 0 memo)])
                  end
                else Abort (missing_authority (c_author col))
            end
          else Abort (check_failure "insufficient amount")
      end
    else Abort (check_failure "must retire positive amount")
  else Abort (check_failure "memo has more than 256 bytes").
Proof.
  unfold burn. unfold_M.
  destruct (bytes memo <=? 256); [|reflexivity].
  destruct (0 <? amount); [|reflexivity].
  destruct (assetstable st !! asset_id) as [ast|]; [|reflexivity].
  destruct (u64 amount <=? a_supply ast); [|reflexivity].
  destruct (colstable st !! a_collection_id ast) as [col|]; [|reflexivity].
  destruct (has_auth_in (authorization e) (c_author col)); [|reflexivity].
  unfold with_supply.
  destruct (sub_balance _ _ _ _ _ _) as [[[? ?] ?]|]; reflexivity.
Qed.

Lemma transfer_run from to asset_id amount memo e st out :
  transfer from to asset_id amount memo e st out =
  if from =? to then Abort (check_failure "cannot transfer to self")
  else if has_auth_in (authorization e) from then
    if is_account e to then
      match assetstable st !! asset_id with
      | None => Abort (check_failure "unable to find asset")
      | Some _ =>
          if 0 <? amount then
            if bytes memo <=? 256 then
              match
                sub_balance from asset_id amount e st
                  ((out ++ [Notify from]) ++ [Notify to])
              with
              | Abort f => Abort f
              | Ok (from_balance, st1, out1) =>
                  let row := credited (balances st1) to asset_id amount in
                  Ok ((),
                      set_balances (<[(to, asset_id) := row]> (balances st1)) st1,
                      out1 ++ [Inline (_self e)
                                 (Transferlog from to asset_id amount from_balance
                                    (b_balance row) memo)])
              end
            else Abort (check_failure "memo has more than 256 bytes")
          else Abort (check_failure "must transfer positive amount")
      end
    else Abort (check_failure "to account does not exist")
  else Abort (missing_authority from).
Proof.
  unfold transfer. unfold_M.
  destruct (from =? to); [reflexivity|]. cbn [negb].
  destruct (has_auth_in (authorization e) from); [|reflexivity].
  destruct (is_account e to); [|reflexivity].
  destruct (assetstable st !! asset_id); [|reflexivity].
  destruct (0 <? amount); [|reflexivity].
  destruct (bytes memo <=? 256); [|reflexivity].
  destruct (sub_balance _ _ _ _ _ _) as [[[? ?] ?]|]; [|reflexivity].
  rewrite add_balance_run. reflexivity.
Qed.

Lemma createcol_run author royalty data e st out :
  createcol author royalty data e st out =
  if has_auth_in (authorization e) (_self e) then
    if 0 <=? royalty then
      if royalty <=? 1000 then
        if bytes data <=? 65535 then
          if is_account e author then
            if next_primary_key (colstable st) <? no_available_primary_key then
              let collection_id := allocated (colstable st) in
              match colstable st !! collection_id with
              | Some _ => Abort key_exists
              | None =>
                  Ok ((),
                      set_colstable
                        (<[collection_id :=
                             {| c_collection_id := collection_id;
                                c_author := author; c_royalty := royalty;
                                c_data := data |}]> (colstable st)) st,
                      out ++ [Inline (_self e)
                                (Collog collection_id author royalty data)])
              end
            else Abort (check_failure
                          "next primary key in table is at autoincrement limit")
          else Abort (check_failure "author account does not exist")
        else Abort (check_failure "data has more than 65535 bytes")
      else Abort (check_failure "royalty must be less than 1000")
    else Abort (check_failure "royalty must be positive")
  else Abort (missing_authority (_self e)).
Proof.
  unfold createcol, available_primary_key, allocated. unfold_M.
  destruct (has_auth_in (authorization e) (_self e)); [|reflexivity].
  destruct (0 <=? royalty); [|reflexivity].
  destruct (royalty <=? 1000); [|reflexivity].
  destruct (bytes data <=? 65535); [|reflexivity].
  destruct (is_account e author); [|reflexivity].
  destruct (next_primary_key (colstable st) <? no_available_primary_key);
    [|reflexivity].
  cbv zeta.
  destruct (colstable st !! _); reflexivity.
Qed.

Lemma createasset_run collection_id supply max_supply data e st out :
  createasset collection_id supply max_supply data e st out =
  if 0 <? max_supply then
    if bytes data <=? 65535 then
      match colstable st !! collection_id with
      | None => Abort (check_failure "unable to find collection")
      | Some col =>
          if has_auth_in (authorization e) (c_author col) then
            if next_primary_key (assetstable st) <? no_available_primary_key then
              let asset_id := allocated (assetstable st) in
              match assetstable st !! asset_id with
              | Some _ => Abort key_exists
              | None =>
                  let st1 :=
                    set_assetstable
                      (<[asset_id :=
                           {| a_asset_id := asset_id;
                              a_collection_id := collection_id;
                              a_supply := 0; a_max_supply := max_supply;
                              a_data := data |}]> (assetstable st)) st in
                  let out1 :=
                    out ++ [Inline (_self e)
                              (Assetlog asset_id collection_id max_supply data)] in
                  if 0 <? supply then
                    mint (c_author col) asset_id (i64 supply) "create and mint"
                      e st1 out1
                  else Ok ((), st1, out1)
              end
            else Abort (check_failure
                          "next primary key in table is at autoincrement limit")
          else Abort (missing_authority (c_author col))
      end
    else Abort (check_failure "data has more than 65535 bytes")
  else Abort (check_failure "max-supply must be positive").
Proof.
  unfold createasset, available_primary_key, allocated. unfold_M.
  destruct (0 <? max_supply); [|reflexivity].
  destruct (bytes data <=? 65535); [|reflexivity].
  destruct (colstable st !! collection_id) as [col|]; [|reflexivity].
  destruct (has_auth_in (authorization e) (c_author col)); [|reflexivity].
  destruct (next_primary_key (assetstable st) <? no_available_primary_key);
    [|reflexivity].
  cbv zeta.
  destruct (assetstable st !! _); [reflexivity|].
  destruct (0 <? supply); reflexivity.
Qed.

Lemma log_action_run e st out :
  log_action e st out =
  if has_auth_in (authorization e) (_self e) then Ok ((), st, out)
  else Abort (missing_authority (_self e)).
Proof. reflexivity. Qed.

(** ** How the host runs an action and its inline actions *)

Lemma inlined_app out1 out2 : inlined (out1 ++ out2) = inlined out1 ++ inlined out2.
Proof. unfold inlined. apply omap_app. Qed.

Lemma notified_app out1 out2 :
  notified (out1 ++ out2) = notified out1 ++ notified out2.
Proof. unfold notified. apply omap_app. Qed.

Lemma has_auth_in_actor n : has_auth_in [n] n = true.
Proof. unfold has_auth_in. cbn. rewrite Z.eqb_refl. reflexivity. Qed.

Lemma execute_at_unfold room e a st :
  execute_at room e a st =
  match apply a e st [] with
  | Abort f => Abort f
  | Ok (_, st1, out) =>
      match inlined out with
      | [] => Ok (st1, [(a, notified out)])
      | l =>
          match room with
          | O => Abort inline_depth_exceeded
          | S room' =>
              match execute_all (execute_at room') e l st1 with
              | Abort f => Abort f
              | Ok (st2, tr) => Ok (st2, (a, notified out) :: tr)
              end
          end
      end
  end.
Proof. destruct room; reflexivity. Qed.

Lemma execute_all_cons exec e actor a l st :
  execute_all exec e ((actor, a) :: l) st =
  match exec (with_actor e actor) a st with
  | Abort f => Abort f
  | Ok (st1, tr1) =>
      match execute_all exec e l st1 with
      | Abort f => Abort f
      | Ok (st2, tr2) => Ok (st2, tr1 ++ tr2)
      end
  end.
Proof. reflexivity. Qed.

Lemma execute_all_nil exec e st : execute_all exec e [] st = Ok (st, []).
Proof. reflexivity. Qed.

Lemma execute_at_inv room e a st st' tr :
  execute_at room e a st = Ok (st', tr) →
  ∃ st1 out,
    apply a e st [] = Ok ((), st1, out) ∧
    ((inlined out = [] ∧ st' = st1 ∧ tr = [(a, notified out)]) ∨
     (∃ room' tr', room = S room' ∧
        execute_all (execute_at room') e (inlined out) st1 = Ok (st', tr') ∧
        tr = (a, notified out) :: tr')).
Proof.
  intros H. destruct room as [|room']; cbn [execute_at] in H;
    destruct (apply a e st []) as [[[[] st1] out]|] eqn:Happ; try discriminate;
    exists st1, out; (split; [reflexivity|]);
    destruct (inlined out) as [|x l] eqn:Hin; try discriminate.
  - left. by simplify_eq.
  - left. by simplify_eq.
  - right. destruct (execute_all _ _ _ _) as [[st2 tr2]|] eqn:Hall;
      try discriminate.
    simplify_eq. by exists room', tr2.
Qed.

(** A log action sent with the contract's own permission passes its
    [require_auth(_self)] and does nothing else. *)
Lemma execute_at_log room e a st :
  is_log a = true →
  execute_at room (with_actor e (_self e)) a st = Ok (st, [(a, [])]).
Proof.
  intros Hlog.
  assert (apply a (with_actor e (_self e)) st [] = Ok ((), st, [])) as Happ.
  { destruct a; try discriminate; cbn [apply]; rewrite log_action_run;
      cbn [with_actor authorization _self]; by rewrite has_auth_in_actor. }
  destruct room; cbn [execute_at]; by rewrite Happ.
Qed.

Lemma execute_all_log room e a l st :
  is_log a = true →
  execute_all (execute_at room) e ((_self e, a) :: l) st =
  match execute_all (execute_at room) e l st with
  | Abort f => Abort f
  | Ok (st2, tr2) => Ok (st2, (a, []) :: tr2)
  end.
Proof. intros Hlog. by rewrite execute_all_cons, execute_at_log. Qed.

Lemma execute_at_log_inv room e a st st' tr :
  is_log a = true → execute_at room e a st = Ok (st', tr) → st' = st.
Proof.
  intros Hlog (st1 & out & Happ & Hrest)%execute_at_inv.
  assert (st1 = st ∧ out = []) as [-> ->].
  { destruct a; try discriminate; cbn [apply] in Happ;
      rewrite log_action_run in Happ;
      destruct (has_auth_in _ _); by simplify_eq. }
  destruct Hrest as [(_ & -> & _)|(room' & tr' & -> & Hall & _)]; [done|].
  cbn in Hall. by simplify_eq.
Qed.

Lemma sub_balance_inv owner asset_id amount e st out r st' out' :
  sub_balance owner asset_id amount e st out = Ok (r, st', out') →
  colstable st' = colstable st ∧ assetstable st' = assetstable st ∧ out' = out ∧
  ∃ from,
    balances st !! (owner, asset_id) = Some from ∧ amount ≤ b_balance from ∧
    ((b_balance from = amount ∧ r = 0 ∧
      balances st' = delete (owner, asset_id) (balances st)) ∨
     (b_balance from ≠ amount ∧ r = i64 (b_balance from - amount) ∧
      balances st' =
        <[(owner, asset_id) :=
            {| b_asset_id := b_asset_id from;
               b_balance := i64 (b_balance from - amount) |}]> (balances st))).
Proof.
  rewrite sub_balance_run.
  destruct (balances st !! (owner, asset_id)) as [from|]; [|discriminate].
  destruct (amount <=? b_balance from) eqn:Hle; [|discriminate].
  apply Z.leb_le in Hle.
  destruct (b_balance from =? amount) eqn:Heq; intros ?; simplify_eq;
    (split_and!; [done..|]); exists from; (split_and!; [done..|]).
  - left. by apply Z.eqb_eq in Heq.
  - right. by apply Z.eqb_neq in Heq.
Qed.

Lemma transfer_inv from to asset_id amount memo e st st1 out :
  transfer from to asset_id amount memo e st [] = Ok ((), st1, out) →
  colstable st1 = colstable st ∧ assetstable st1 = assetstable st ∧
  ∃ from_balance to_balance,
    out = [Notify from; Notify to;
           Inline (_self e)
             (Transferlog from to asset_id amount from_balance to_balance memo)].
Proof.
  rewrite transfer_run. intros H.
  repeat case_match; try discriminate.
  match goal with Hs : sub_balance _ _ _ _ _ _ = Ok _ |- _ =>
    apply sub_balance_inv in Hs as (Hc & Ha & -> & _) end.
  cbv zeta in H. simplify_eq. cbn. split_and!; [done..|]. by eexists _, _.
Qed.

(** A transfer that the host completes leaves the tables as its body left
    them: the only inline action is its log. *)
Lemma execute_at_transfer_inv room e from to asset_id amount memo st st' tr :
  execute_at room e (Transfer from to asset_id amount memo) st = Ok (st', tr) →
  ∃ out, transfer from to asset_id amount memo e st [] = Ok ((), st', out).
Proof.
  intros (st1 & out & Happ & Hrest)%execute_at_inv. cbn [apply] in Happ.
  destruct (transfer_inv _ _ _ _ _ _ _ _ _ Happ) as (_ & _ & fb & tb & ->).
  destruct Hrest as [(Hin & _)|(room' & tr' & -> & Hall & _)];
    [discriminate|].
  cbn in Hall. rewrite execute_at_log in Hall by done.
  simplify_eq. by eexists.
Qed.

Lemma execute_at_quiet room e a st st' tr :
  is_quiet a = true → execute_at room e a st = Ok (st', tr) →
  colstable st' = colstable st ∧ assetstable st' = assetstable st.
Proof.
  intros Hq H. destruct a; try discriminate.
  - apply execute_at_transfer_inv in H as [out H].
    by apply transfer_inv in H as (? & ? & _).
  - by apply execute_at_log_inv in H as ->.
  - by apply execute_at_log_inv in H as ->.
  - by apply execute_at_log_inv in H as ->.
Qed.

Lemma execute_all_quiet room e l st st' tr :
  Forall (λ pa, is_quiet pa.2 = true) l →
  execute_all (execute_at room) e l st = Ok (st', tr) →
  colstable st' = colstable st ∧ assetstable st' = assetstable st.
Proof.
  intros Hl. revert st tr.
  induction Hl as [|[actor a] l Ha Hl IH]; intros st tr H; cbn in H.
  - by simplify_eq.
  - destruct (execute_at room _ a st) as [[st1 tr1]|] eqn:H1; [|discriminate].
    destruct (execute_all _ _ l st1) as [[st2 tr2]|] eqn:H2; [|discriminate].
    simplify_eq.
    apply execute_at_quiet in H1 as [Hc1 Ha1]; [|done].
    apply IH in H2 as [Hc2 Ha2]. split; congruence.
Qed.

(** Every inline action the contract sends is a log or a transfer. *)
Lemma apply_inlined_quiet a e st u st1 out :
  apply a e st [] = Ok (u, st1, out) →
  Forall (λ pa, is_quiet pa.2 = true) (inlined out).
Proof.
  destruct a; cbn [apply].
  - rewrite createcol_run. intros H; cbv zeta in H. repeat case_match; simplify_eq.
    cbn. by repeat constructor.
  - rewrite createasset_run. intros H; cbv zeta in H. repeat case_match; simplify_eq.
    + rewrite mint_run in H; cbv zeta in H. repeat case_match; simplify_eq; cbn;
        by repeat constructor.
    + cbn. by repeat constructor.
  - rewrite mint_run. intros H; cbv zeta in H. repeat case_match; simplify_eq; cbn;
      by repeat constructor.
  - rewrite burn_run. intros H; cbv zeta in H. repeat case_match; simplify_eq.
    match goal with Hs : sub_balance _ _ _ _ _ _ = Ok _ |- _ =>
      apply sub_balance_inv in Hs as (_ & _ & -> & _) end.
    cbn. by repeat constructor.
  - intros H. destruct u.
    apply transfer_inv in H as (_ & _ & fb & tb & ->). cbn.
    by repeat constructor.
  - rewrite log_action_run. intros H. case_match; simplify_eq. constructor.
  - rewrite log_action_run. intros H. case_match; simplify_eq. constructor.
  - rewrite log_action_run. intros H. case_match; simplify_eq. constructor.
Qed.

(** The tables [collections] and [assets] after a completed action are those
    its body left. *)
Lemma execute_at_tables room e a st st' tr :
  execute_at room e a st = Ok (st', tr) →
  ∃ st1 out,
    apply a e st [] = Ok ((), st1, out) ∧
    colstable st' = colstable st1 ∧ assetstable st' = assetstable st1.
Proof.
  intros (st1 & out & Happ & Hrest)%execute_at_inv.
  exists st1, out. split; [done|].
  destruct Hrest as [(_ & -> & _)|(room' & tr' & -> & Hall & _)]; [done|].
  eapply execute_all_quiet; [|done].
  by eapply apply_inlined_quiet.
Qed.

(** ** Invariants of the ledger *)

(** A property of the ledger that the body of every action with [P] keeps,
    while sending only inline actions with [P], holds after every such
    action and of every ledger those actions lead to. *)
Section Invariant.
Variable Inv : ledger → Prop.
Variable P : action → Prop.
Hypothesis apply_keeps :
  ∀ a e st st1 out,
    Inv st → P a → apply a e st [] = Ok ((), st1, out) →
    Inv st1 ∧ Forall (λ pa, P pa.2) (inlined out).

Lemma execute_all_invariant
    (exec : env → action → ledger → result (ledger * trace)) e l :
  (∀ e a st st' tr, Inv st → P a → exec e a st = Ok (st', tr) → Inv st') →
  Forall (λ pa, P pa.2) l →
  ∀ st st' tr, Inv st → execute_all exec e l st = Ok (st', tr) → Inv st'.
Proof.
  intros Hexec Hl.
  induction Hl as [|[actor a] l Ha Hl IH]; intros st st' tr Hok H.
  - rewrite execute_all_nil in H. by simplify_eq.
  - rewrite execute_all_cons in H.
    destruct (exec _ a st) as [[st1 tr1]|] eqn:H1; [|discriminate].
    destruct (execute_all exec e l st1) as [[st2 tr2]|] eqn:H2;
      [|discriminate].
    simplify_eq. eapply IH; [|done]. by eapply Hexec.
Qed.

Lemma execute_at_invariant room e a st st' tr :
  Inv st → P a → execute_at room e a st = Ok (st', tr) → Inv st'.
Proof.
  revert e a st st' tr.
  induction room as [|room IH]; intros e a st st' tr Hok HP H;
    apply execute_at_inv in H as (st1 & out & Happ & Hrest);
    destruct (apply_keeps _ _ _ _ _ Hok HP Happ) as [Hok1 Hout];
    destruct Hrest as [(_ & -> & _)|(room' & tr' & Hroom & Hall & _)];
    try done.
  simplify_eq.
  by eapply (execute_all_invariant (execute_at room')).
Qed.

Lemma reachable_by_invariant st :
  Inv empty_ledger → reachable_by P st → Inv st.
Proof.
  intros Hempty. induction 1 as [|e a st st' tr _ IH HP Hexec]; [done|].
  by eapply execute_at_invariant.
Qed.
End Invariant.

(** ** The run of the specification *)

Example spec_run :
  (replay steps_spec empty_ledger).2 =
    [Ok [(Createcol alice 500 "{}", []); (Collog 1 alice 500 "{}", [])];
     Ok [(Createcol alice 500 "{}", []); (Collog 2 alice 500 "{}", [])];
     Ok [(Createasset 1 0 10 "{}", []); (Assetlog 1 1 10 "{}", [])];
     Ok [(Mint alice 1 10 "m", []);
         (Transferlog null_name alice 1 10 0 10 "m", [])];
     Abort (check_failure "amount exceeds available supply");
     Ok [(Transfer alice bob 1 4 "t", [alice; bob]);
         (Transferlog alice bob 1 4 6 4 "t", [])];
     Abort (check_failure "cannot transfer to self");
     Ok [(Burn 1 6 "b", []);
         (Transferlog alice null_name 1 6 0 0 "b", [])]] ∧
  supply_of (replay steps_spec empty_ledger).1 1 = 4 ∧
  balances (replay steps_spec empty_ledger).1 !! (alice, 1) = None ∧
  balance_of (replay steps_spec empty_ledger).1 bob 1 = 4.
Proof. vm_compute. split_and!; reflexivity. Qed.

(** ** Collections and assets under the actions *)

(** What the body of an action does to the rows that [collections] and
    [assets] already hold. *)
Lemma apply_frame a e st st1 out :
  apply a e st [] = Ok ((), st1, out) →
  (∀ k c, colstable st !! k = Some c → colstable st1 !! k = Some c) ∧
  (∀ k x, assetstable st !! k = Some x →
     assetstable st1 !! k = Some x ∨
     (∃ to amount memo, a = Mint to k amount memo ∧
        assetstable st1 !! k = Some (with_supply x (u64 (a_supply x + amount)))) ∨
     (∃ amount memo, a = Burn k amount memo ∧
        assetstable st1 !! k = Some (with_supply x (u64 (a_supply x - amount))))).
Proof.
  destruct a; cbn [apply].
  - (* createcol *)
    rewrite createcol_run. intros H; cbv zeta in H.
    repeat case_match; simplify_eq. cbn. split; [|by left].
    intros k c Hk. rewrite lookup_insert_ne; [done|congruence].
  - (* createasset *)
    rewrite createasset_run. intros H; cbv zeta in H.
    repeat case_match; simplify_eq.
    + rewrite mint_run in H; cbv zeta in H.
      cbn [set_assetstable assetstable colstable balances] in H.
      rewrite lookup_insert_eq in H.
      repeat case_match; simplify_eq; cbn; (split; [done|]);
        intros k x Hk; left;
        (rewrite !lookup_insert_ne; [done|congruence..]).
    + cbn. split; [done|]. intros k x Hk. left.
      rewrite lookup_insert_ne; [done|congruence].
  - (* mint *)
    rewrite mint_run. intros H; cbv zeta in H.
    repeat case_match; simplify_eq; cbn; (split; [done|]);
      intros k x Hk; (destruct (decide (k = asset_id)) as [->|Hne];
        [right; left; simplify_eq; eexists _, _, _;
           split; [done|]; by rewrite lookup_insert_eq
        |left; by rewrite lookup_insert_ne]).
  - (* burn *)
    rewrite burn_run. intros H. repeat case_match; simplify_eq.
    match goal with Hs : sub_balance _ _ _ _ _ _ = Ok _ |- _ =>
      apply sub_balance_inv in Hs as (Hc & Ha & _) end.
    cbn in Hc, Ha. rewrite Hc, Ha. split; [done|].
    intros k x Hk. destruct (decide (k = asset_id)) as [->|Hne].
    + right; right. simplify_eq. eexists _, _.
      split; [done|]. by rewrite lookup_insert_eq.
    + left. by rewrite lookup_insert_ne.
  - (* transfer *)
    intros (Hc & Ha & _)%transfer_inv. rewrite Hc, Ha. split; [done|].
    intros; by left.
  - rewrite log_action_run. intros H. case_match; simplify_eq.
    split; [done|]. intros; by left.
  - rewrite log_action_run. intros H. case_match; simplify_eq.
    split; [done|]. intros; by left.
  - rewrite log_action_run. intros H. case_match; simplify_eq.
    split; [done|]. intros; by left.
Qed.

(** X25.  No action, with the inline actions it sends, modifies or deletes a
    collection row; none deletes an asset row or changes a field of it other
    than [supply]; and [supply] changes only under [mint], by
    [supply += amount], and under [burn], by [supply -= amount], both on
    64-bit unsigned values. *)
Theorem records_frame (e : env) (a : action) (st st' : ledger) (tr : trace) :
  execute e a st = Ok (st', tr) →
  (∀ k c, colstable st !! k = Some c → colstable st' !! k = Some c) ∧
  (∀ k x, assetstable st !! k = Some x →
     ∃ x', assetstable st' !! k = Some x' ∧
       a_asset_id x' = a_asset_id x ∧
       a_collection_id x' = a_collection_id x ∧
       a_max_supply x' = a_max_supply x ∧
       a_data x' = a_data x ∧
       (a_supply x' = a_supply x ∨
        (∃ to amount memo, a = Mint to k amount memo ∧
           a_supply x' = u64 (a_supply x + amount)) ∨
        (∃ amount memo, a = Burn k amount memo ∧
           a_supply x' = u64 (a_supply x - amount)))).
Proof.
  intros (st1 & out & Happ & Hc & Ha)%execute_at_tables.
  apply apply_frame in Happ as [Hcol Hast].
  rewrite Hc, Ha. split; [done|].
  intros k x Hk.
  destruct (Hast k x Hk) as [H|[(to & amount & memo & -> & H)|(amount & memo & -> & H)]].
  - exists x. split_and!; [done..|]. by left.
  - eexists. split_and!; [done..|]. right; left. by eexists _, _, _.
  - eexists. split_and!; [done..|]. right; right. by eexists _, _.
Qed.

Lemma records_frame_witness :
  let st' := (outcome (host [nftacct]) (Mint nftacct 1 5 "m") ledger10).1 in
  (∀ k c, colstable ledger10 !! k = Some c → colstable st' !! k = Some c) ∧
  (∀ k x, assetstable ledger10 !! k = Some x →
     ∃ x', assetstable st' !! k = Some x' ∧
       a_asset_id x' = a_asset_id x ∧
       a_collection_id x' = a_collection_id x ∧
       a_max_supply x' = a_max_supply x ∧
       a_data x' = a_data x ∧
       (a_supply x' = a_supply x ∨
        (∃ to amount memo, Mint nftacct 1 5 "m" = Mint to k amount memo ∧
           a_supply x' = u64 (a_supply x + amount)) ∨
        (∃ amount memo, Mint nftacct 1 5 "m" = Burn k amount memo ∧
           a_supply x' = u64 (a_supply x - amount)))).
Proof.
  apply (records_frame (host [nftacct]) (Mint nftacct 1 5 "m") ledger10
           (outcome (host [nftacct]) (Mint nftacct 1 5 "m") ledger10).1
           (outcome (host [nftacct]) (Mint nftacct 1 5 "m") ledger10).2).
  vm_compute. reflexivity.
Defined.

(** ** Identifier allocation *)

Lemma foldr_max_spec (k : Z) (ks : list Z) :
  foldr Z.max k ks ∈ k :: ks ∧ ∀ x, x ∈ k :: ks → x ≤ foldr Z.max k ks.
Proof.
  induction ks as [|y ks [IHin IHle]]; cbn [foldr].
  - split; [by left|]. intros x ->%list_elem_of_singleton. lia.
  - split.
    + destruct (Z.max_spec y (foldr Z.max k ks)) as [[_ ->]|[_ ->]].
      * apply elem_of_cons in IHin as [->|?]; [by left|].
        by right; right.
      * right; by left.
    + intros x [->|[->|Hx]%elem_of_cons]%elem_of_cons.
      * specialize (IHle k ltac:(by left)). lia.
      * lia.
      * specialize (IHle x ltac:(by right)). lia.
Qed.

Lemma elem_of_keys {V} (t : gmap Z V) (k : Z) :
  k ∈ (map_to_list t).*1 ↔ is_Some (t !! k).
Proof.
  rewrite list_elem_of_fmap. split.
  - intros ([k' v] & -> & Hkv). apply elem_of_map_to_list in Hkv. by eexists.
  - intros [v Hv]. exists (k, v). split; [done|]. by apply elem_of_map_to_list.
Qed.

Lemma next_primary_key_keys {V} (t : gmap Z V) (n : Z) :
  contiguous t n → 0 ≤ n →
  next_primary_key t =
    (if n =? 0 then 0
     else if no_available_primary_key <=? n then no_available_primary_key
     else n + 1).
Proof.
  intros Hc Hn. unfold next_primary_key.
  destruct ((map_to_list t).*1) as [|k ks] eqn:Hl.
  - destruct (n =? 0) eqn:Hn0; [done|]. apply Z.eqb_neq in Hn0.
    assert (n ∈ (map_to_list t).*1) as Hin
        by (apply elem_of_keys, Hc; lia).
    rewrite Hl in Hin. by apply not_elem_of_nil in Hin.
  - destruct (foldr_max_spec k ks) as [Hin Hle].
    rewrite <- Hl in Hin, Hle.
    apply elem_of_keys, Hc in Hin.
    assert (n ≤ foldr Z.max k ks) by (apply Hle, elem_of_keys, Hc; lia).
    assert (foldr Z.max k ks = n) as -> by lia.
    destruct (n =? 0) eqn:Hn0; [apply Z.eqb_eq in Hn0; lia|done].
Qed.

Lemma next_primary_key_contiguous {V} (t : gmap Z V) (n : Z) :
  contiguous t n → 0 ≤ n → n + 1 < no_available_primary_key →
  next_primary_key t = (if n =? 0 then 0 else n + 1).
Proof.
  intros Hc Hn Hlim. rewrite (next_primary_key_keys t n) by done.
  destruct (n =? 0); [done|].
  destruct (no_available_primary_key <=? n) eqn:Hcap; [|done].
  apply Z.leb_le in Hcap. lia.
Qed.

Lemma allocated_contiguous {V} (t : gmap Z V) (n : Z) :
  contiguous t n → 0 ≤ n → n + 1 < no_available_primary_key →
  (next_primary_key t <? no_available_primary_key) = true ∧
  allocated t = n + 1.
Proof.
  intros Hc Hn Hlim. unfold allocated.
  rewrite (next_primary_key_contiguous t n) by done.
  destruct (n =? 0) eqn:Hn0.
  - apply Z.eqb_eq in Hn0 as ->. done.
  - apply Z.eqb_neq in Hn0. split; [apply Z.ltb_lt; lia|].
    destruct (n + 1 =? 0) eqn:H1; [apply Z.eqb_eq in H1; lia|done].
Qed.

Lemma contiguous_unused {V} (t : gmap Z V) (n : Z) :
  contiguous t n → 0 ≤ n → smallest_unused t (n + 1).
Proof.
  intros Hc Hn. split_and!; [lia| |].
  - apply eq_None_not_Some. intros H%Hc. lia.
  - intros k Hk. apply Hc. lia.
Qed.

Lemma contiguous_insert {V} (t : gmap Z V) (n : Z) (v : V) :
  contiguous t n → 0 ≤ n → contiguous (<[n + 1 := v]> t) (n + 1).
Proof.
  intros Hc Hn k. destruct (decide (k = n + 1)) as [->|Hne].
  - rewrite lookup_insert_eq. split; [lia|by eexists].
  - rewrite lookup_insert_ne by done. specialize (Hc k). split; [intros H%Hc|intros H; apply Hc]; lia.
Qed.

Lemma contiguous_update {V} (t : gmap Z V) (n k : Z) (v : V) :
  contiguous t n → is_Some (t !! k) → contiguous (<[k := v]> t) n.
Proof.
  intros Hc Hk k'. destruct (decide (k' = k)) as [->|Hne].
  - rewrite lookup_insert_eq. split; [intros _; by apply Hc|by eexists].
  - rewrite lookup_insert_ne by done. apply Hc.
Qed.

Lemma execute_all_logs_inv room e l st st' tr :
  Forall (λ pa, is_log pa.2 = true) l →
  execute_all (execute_at room) e l st = Ok (st', tr) → st' = st.
Proof.
  intros Hl. revert st tr.
  induction Hl as [|[actor a] l Ha Hl IH]; intros st tr H; cbn in H.
  - by simplify_eq.
  - destruct (execute_at room _ a st) as [[st1 tr1]|] eqn:H1; [|discriminate].
    destruct (execute_all _ _ l st1) as [[st2 tr2]|] eqn:H2; [|discriminate].
    simplify_eq.
    apply execute_at_log_inv in H1 as ->; [|done].
    by apply IH in H2.
Qed.

(** [createcol] on a table with the keys 1, ..., n. *)
Lemma execute_createcol e st n author royalty data :
  contiguous (colstable st) n → 0 ≤ n → n + 1 < no_available_primary_key →
  has_auth_in (authorization e) (_self e) = true →
  0 ≤ royalty ≤ 1000 → bytes data ≤ 65535 → is_account e author = true →
  execute e (Createcol author royalty data) st =
  Ok (set_colstable
        (<[n + 1 := {| c_collection_id := n + 1; c_author := author;
                       c_royalty := royalty; c_data := data |}]> (colstable st))
        st,
      [(Createcol author royalty data, []);
       (Collog (n + 1) author royalty data, [])]).
Proof.
  intros Hc Hn Hlim Hauth Hroy Hdata Hacc.
  destruct (allocated_contiguous _ _ Hc Hn Hlim) as [Hroom Halloc].
  destruct (contiguous_unused _ _ Hc Hn) as (_ & Hfree & _).
  unfold execute, max_inline_action_depth.
  rewrite execute_at_unfold. cbn [apply].
  rewrite createcol_run, Hauth, Hacc, Hroom. cbv zeta. rewrite Halloc, Hfree.
  rewrite (proj2 (Z.leb_le 0 royalty)) by lia.
  rewrite (proj2 (Z.leb_le royalty 1000)) by lia.
  rewrite (proj2 (Z.leb_le (bytes data) 65535)) by lia.
  cbn [app inlined notified omap list_omap].
  by rewrite execute_all_log, execute_all_nil.
Qed.

(** [createasset] without an initial supply, on a table with the keys
    1, ..., m. *)
Lemma execute_createasset_plain e st m collection_id max_supply data col :
  contiguous (assetstable st) m → 0 ≤ m → m + 1 < no_available_primary_key →
  0 < max_supply → bytes data ≤ 65535 →
  colstable st !! collection_id = Some col →
  has_auth_in (authorization e) (c_author col) = true →
  execute e (Createasset collection_id 0 max_supply data) st =
  Ok (set_assetstable
        (<[m + 1 := {| a_asset_id := m + 1; a_collection_id := collection_id;
                       a_supply := 0; a_max_supply := max_supply;
                       a_data := data |}]> (assetstable st)) st,
      [(Createasset collection_id 0 max_supply data, []);
       (Assetlog (m + 1) collection_id max_supply data, [])]).
Proof.
  intros Hc Hm Hlim Hmax Hdata Hcol Hauth.
  destruct (allocated_contiguous _ _ Hc Hm Hlim) as [Hroom Halloc].
  destruct (contiguous_unused _ _ Hc Hm) as (_ & Hfree & _).
  unfold execute, max_inline_action_depth.
  rewrite execute_at_unfold. cbn [apply].
  rewrite createasset_run, Hcol, Hauth, Hroom. cbv zeta.
  rewrite Halloc, Hfree.
  rewrite (proj2 (Z.ltb_lt 0 max_supply)) by lia.
  rewrite (proj2 (Z.leb_le (bytes data) 65535)) by lia.
  cbn [Z.ltb Z.compare app inlined notified omap list_omap].
  by rewrite execute_all_log, execute_all_nil.
Qed.

(** What [createasset] has done when the host completes it, with or without
    an initial supply. *)
Lemma execute_createasset_inv e st collection_id supply max_supply data st' tr :
  execute e (Createasset collection_id supply max_supply data) st = Ok (st', tr) →
  let asset_id := allocated (assetstable st) in
  let row := {| a_asset_id := asset_id; a_collection_id := collection_id;
                a_supply := 0; a_max_supply := max_supply; a_data := data |} in
  ∃ col,
    colstable st !! collection_id = Some col ∧
    has_auth_in (authorization e) (c_author col) = true ∧
    0 < max_supply ∧ bytes data ≤ 65535 ∧
    assetstable st !! asset_id = None ∧
    tr !! 1%nat = Some (Assetlog asset_id collection_id max_supply data, []) ∧
    ((supply ≤ 0 ∧ st' = set_assetstable (<[asset_id := row]> (assetstable st)) st) ∨
     (0 < supply ∧ 0 < i64 supply ∧ u64 (i64 supply) ≤ max_supply ∧
      st' = {| colstable := colstable st;
               assetstable :=
                 <[asset_id := with_supply row (u64 (i64 supply))]> (assetstable st);
               balances :=
                 <[(c_author col, asset_id) :=
                     credited (balances st) (c_author col) asset_id (i64 supply)]>
                   (balances st) |})).
Proof.
  intros H asset_id row. pose proof H as Hexec.
  apply execute_at_inv in H as (st1 & out & Happ & Hrest).
  cbn [apply] in Happ. rewrite createasset_run in Happ. cbv zeta in Happ.
  fold asset_id in Happ. fold row in Happ.
  destruct (0 <? max_supply) eqn:Hmax; [|discriminate].
  destruct (bytes data <=? 65535) eqn:Hdata; [|discriminate].
  destruct (colstable st !! collection_id) as [col|] eqn:Hcol; [|discriminate].
  destruct (has_auth_in (authorization e) (c_author col)) eqn:Hauth;
    [|discriminate].
  destruct (next_primary_key (assetstable st) <? no_available_primary_key);
    [|discriminate].
  destruct (assetstable st !! asset_id) eqn:Hfree; [discriminate|].
  apply Z.ltb_lt in Hmax. apply Z.leb_le in Hdata.
  exists col. split_and!; [done..| |].
  - (* the trace *)
    destruct (0 <? supply).
    + rewrite mint_run in Happ. cbv zeta in Happ.
      cbn [set_assetstable assetstable colstable balances] in Happ.
      rewrite lookup_insert_eq in Happ. cbn [a_collection_id row] in Happ.
      rewrite Hcol, Hauth, Z.eqb_refl in Happ.
      repeat case_match; simplify_eq.
      destruct Hrest as [(Hin & _)|(room' & tr' & ? & Hall & ->)];
        [discriminate|].
      cbn [app inlined omap list_omap] in Hall.
      rewrite !execute_all_log, execute_all_nil in Hall by done.
      by simplify_eq.
    + simplify_eq.
      destruct Hrest as [(Hin & _)|(room' & tr' & ? & Hall & ->)];
        [discriminate|].
      cbn [app inlined omap list_omap] in Hall.
      rewrite !execute_all_log, execute_all_nil in Hall by done.
      by simplify_eq.
  - (* the tables *)
    destruct (0 <? supply) eqn:Hsup.
    + right. apply Z.ltb_lt in Hsup.
      rewrite mint_run in Happ. cbv zeta in Happ.
      cbn [set_assetstable assetstable colstable balances] in Happ.
      rewrite lookup_insert_eq in Happ. cbn [a_collection_id row] in Happ.
      rewrite Hcol, Hauth, Z.eqb_refl in Happ.
      destruct (bytes "create and mint" <=? 256); [|discriminate].
      destruct (0 <? i64 supply) eqn:Hpos; [|discriminate].
      cbn [a_supply a_max_supply row] in Happ.
      destruct (u64 (0 + i64 supply) <=? max_supply) eqn:Hcap; [|discriminate].
      apply Z.ltb_lt in Hpos. apply Z.leb_le in Hcap.
      rewrite Z.add_0_l in Hcap. simplify_eq.
      destruct Hrest as [(Hin & _)|(room' & tr' & ? & Hall & ->)];
        [discriminate|].
      apply execute_all_logs_inv in Hall as ->;
        [|cbn; by repeat constructor].
      split_and!; [done..|].
      rewrite insert_insert_eq. by rewrite Z.add_0_l.
    + left. apply Z.ltb_ge in Hsup. simplify_eq.
      destruct Hrest as [(Hin & _)|(room' & tr' & ? & Hall & ->)];
        [discriminate|].
      apply execute_all_logs_inv in Hall as ->;
        [|cbn; by repeat constructor].
      done.
Qed.

Lemma contiguous_empty {V} : contiguous (∅ : gmap Z V) 0.
Proof.
  intros k. rewrite lookup_empty. split; [by intros [? ?]|lia].
Qed.

(** C8.  On tables whose keys are 1, ..., n (collections) and 1, ..., m
    (assets), as they are from the empty ledger on, a new collection gets the
    identifier n + 1 and a new asset the identifier m + 1: the smallest
    unused identifier from 1 on, never 0, above every identifier in use; the
    creation leaves the keys 1, ..., n + 1 (1, ..., m + 1), so that the next
    one gets the next identifier. *)
Theorem identifier_allocation (e : env) (st : ledger) (n m : Z) :
  contiguous (colstable st) n → contiguous (assetstable st) m →
  0 ≤ n → 0 ≤ m →
  n + 1 < no_available_primary_key → m + 1 < no_available_primary_key →
  smallest_unused (colstable st) (n + 1) ∧
  smallest_unused (assetstable st) (m + 1) ∧
  (∀ author royalty data,
     has_auth_in (authorization e) (_self e) = true →
     0 ≤ royalty ≤ 1000 → bytes data ≤ 65535 → is_account e author = true →
     let st' :=
       set_colstable
         (<[n + 1 := {| c_collection_id := n + 1; c_author := author;
                        c_royalty := royalty; c_data := data |}]> (colstable st))
         st in
     execute e (Createcol author royalty data) st =
       Ok (st', [(Createcol author royalty data, []);
                 (Collog (n + 1) author royalty data, [])]) ∧
     contiguous (colstable st') (n + 1) ∧ contiguous (assetstable st') m) ∧
  (∀ collection_id max_supply data col,
     0 < max_supply → bytes data ≤ 65535 →
     colstable st !! collection_id = Some col →
     has_auth_in (authorization e) (c_author col) = true →
     let st' :=
       set_assetstable
         (<[m + 1 := {| a_asset_id := m + 1; a_collection_id := collection_id;
                        a_supply := 0; a_max_supply := max_supply;
                        a_data := data |}]> (assetstable st)) st in
     execute e (Createasset collection_id 0 max_supply data) st =
       Ok (st', [(Createasset collection_id 0 max_supply data, []);
                 (Assetlog (m + 1) collection_id max_supply data, [])])) ∧
  (∀ collection_id supply max_supply data st' tr,
     execute e (Createasset collection_id supply max_supply data) st
       = Ok (st', tr) →
     tr !! 1%nat = Some (Assetlog (m + 1) collection_id max_supply data, []) ∧
     (∃ x, assetstable st' !! (m + 1) = Some x ∧ a_asset_id x = m + 1) ∧
     contiguous (colstable st') n ∧ contiguous (assetstable st') (m + 1)).
Proof.
  intros Hc Ha Hn Hm Hnlim Hmlim.
  split_and!; [by apply contiguous_unused..| | |].
  - intros author royalty data Hauth Hroy Hdata Hacc st'.
    split; [by apply execute_createcol|].
    split; [by apply contiguous_insert|done].
  - intros collection_id max_supply data col Hmax Hdata Hcol Hauth st'.
    by eapply execute_createasset_plain.
  - intros collection_id supply max_supply data st' tr Hexec.
    apply execute_createasset_inv in Hexec
      as (col & Hcol & Hauth & Hmax & Hdata & Hfree & Htr & Hst).
    destruct (allocated_contiguous _ _ Ha Hm Hmlim) as [_ Halloc].
    rewrite Halloc in Htr, Hst. split; [done|].
    destruct Hst as [[_ ->]|(_ & _ & _ & ->)]; cbn.
    + split_and!; [|done|by apply contiguous_insert].
      eexists. by rewrite lookup_insert_eq.
    + split_and!; [|done|by apply contiguous_insert].
      eexists. by rewrite lookup_insert_eq.
Qed.

(** The first collection gets the identifier 1, the next one 2, and the
    first asset 1. *)
Lemma identifier_allocation_witness :
  ∃ st1 st2 st3,
    execute (host [nftacct]) (Createcol alice 500 "{}") empty_ledger =
      Ok (st1, [(Createcol alice 500 "{}", []); (Collog 1 alice 500 "{}", [])]) ∧
    execute (host [nftacct]) (Createcol bob 0 "{}") st1 =
      Ok (st2, [(Createcol bob 0 "{}", []); (Collog 2 bob 0 "{}", [])]) ∧
    execute (host [alice]) (Createasset 1 0 10 "{}") st2 =
      Ok (st3, [(Createasset 1 0 10 "{}", []); (Assetlog 1 1 10 "{}", [])]).
Proof.
  destruct (identifier_allocation (host [nftacct]) empty_ledger 0 0)
    as (_ & _ & Hcol1 & _); [apply contiguous_empty..|done|done|done|done|].
  destruct (Hcol1 alice 500 "{}") as (H1 & Hc1 & Ha1);
    [by vm_compute|lia|by vm_compute|by vm_compute|].
  destruct (identifier_allocation (host [nftacct]) _ 1 0 Hc1 Ha1)
    as (_ & _ & Hcol2 & _); [done..|].
  destruct (Hcol2 bob 0 "{}") as (H2 & Hc2 & Ha2);
    [by vm_compute|lia|by vm_compute|by vm_compute|].
  destruct (identifier_allocation (host [alice]) _ 2 0 Hc2 Ha2)
    as (_ & _ & _ & Hast & _); [done..|].
  eexists _, _, _. split_and!; [exact H1|exact H2|].
  apply (Hast 1 10 "{}" {| c_collection_id := 1; c_author := alice;
                           c_royalty := 500; c_data := "{}" |});
    [lia|by vm_compute|by vm_compute|by vm_compute].
Defined.

(** ** Creation with an initial supply *)

Lemma transact_abort e a st f st' :
  transact e a st = (st', Abort f) → st' = st.
Proof.
  unfold transact. destruct (execute e a st) as [[st1 tr]|f']; by intros [= <-].
Qed.

(** C6.  [createasset] with a positive initial supply either completes, and
    then the new asset row is stored with the requested supply and the author
    holds exactly that quantity of it, or aborts, and then the tables are as
    before: the asset is not left behind without its mint. *)
Theorem createasset_mint_atomic (e : env) (st : ledger)
    (collection_id supply max_supply : Z) (data : string) :
  is_u64 supply → 0 < supply → balances_closed st →
  match transact e (Createasset collection_id supply max_supply data) st with
  | (st', Ok tr) =>
      ∃ col asset_id,
        colstable st !! collection_id = Some col ∧
        assetstable st !! asset_id = None ∧
        colstable st' = colstable st ∧
        assetstable st' =
          <[asset_id := {| a_asset_id := asset_id;
                           a_collection_id := collection_id;
                           a_supply := supply; a_max_supply := max_supply;
                           a_data := data |}]> (assetstable st) ∧
        balances st' =
          <[(c_author col, asset_id) :=
              {| b_asset_id := asset_id; b_balance := supply |}]> (balances st) ∧
        balance_of st (c_author col) asset_id = 0 ∧
        balance_of st' (c_author col) asset_id = supply
  | (st', Abort f) => st' = st
  end.
Proof.
  intros Hu64 Hpos Hclosed. unfold transact.
  destruct (execute e _ st) as [[st' tr]|f] eqn:Hexec; [|done].
  apply execute_createasset_inv in Hexec
    as (col & Hcol & Hauth & Hmax & Hdata & Hfree & Htr & Hst).
  destruct Hst as [[? _]|(_ & Hi64 & Hcap & ->)]; [lia|].
  destruct (i64_of_u64_pos _ Hu64 Hi64) as [Heq Hle].
  rewrite Heq in *. rewrite (u64_small supply) by done.
  assert (balances st !! (c_author col, allocated (assetstable st)) = None)
    as Hnone.
  { apply eq_None_not_Some. intros H%Hclosed. rewrite Hfree in H.
    by destruct H. }
  exists col, (allocated (assetstable st)).
  unfold balance_of, credited, with_supply. cbn. rewrite Hnone.
  rewrite lookup_insert_eq. done.
Qed.

Lemma createasset_mint_atomic_witness :
  match transact (host [nftacct]) (Createasset 1 10 100 "{}") ledger_col with
  | (st', Ok tr) =>
      ∃ col asset_id,
        colstable ledger_col !! 1 = Some col ∧
        assetstable ledger_col !! asset_id = None ∧
        colstable st' = colstable ledger_col ∧
        assetstable st' =
          <[asset_id := {| a_asset_id := asset_id; a_collection_id := 1;
                           a_supply := 10; a_max_supply := 100;
                           a_data := "{}" |}]> (assetstable ledger_col) ∧
        balances st' =
          <[(c_author col, asset_id) :=
              {| b_asset_id := asset_id; b_balance := 10 |}]>
            (balances ledger_col) ∧
        balance_of ledger_col (c_author col) asset_id = 0 ∧
        balance_of st' (c_author col) asset_id = 10
  | (st', Abort f) => st' = ledger_col
  end.
Proof.
  apply (createasset_mint_atomic (host [nftacct]) ledger_col 1 10 100 "{}").
  - by vm_compute.
  - lia.
  - intros owner asset_id [b Hb]. by vm_compute in Hb.
Defined.

(** Both outcomes occur: the creation above completes, and these abort in
    the mint, leaving no asset. *)
Example createasset_mint_completes :
  (transact (host [nftacct]) (Createasset 1 10 100 "{}") ledger_col).2 =
  Ok [(Createasset 1 10 100 "{}", []); (Assetlog 1 1 100 "{}", []);
      (Transferlog null_name nftacct 1 10 0 10 "create and mint", [])].
Proof. vm_compute. reflexivity. Qed.

Example createasset_mint_over_cap :
  transact (host [nftacct]) (Createasset 1 11 10 "{}") ledger_col =
  (ledger_col, Abort (check_failure "amount exceeds available supply")).
Proof. vm_compute. reflexivity. Qed.

Example createasset_mint_not_signed :
  transact (host [nftacct]) (Createasset 1 (2 ^ 63) (2 ^ 64 - 1) "{}") ledger_col =
  (ledger_col, Abort (check_failure "must issue positive amount")).
Proof. vm_compute. reflexivity. Qed.

(** ** Mint under the host *)

(** What a completed [mint] consists of.  To the author it is the body and
    its log.  To anyone else the host also runs the [transfer] from the
    author that the body sends: with its own debit, credit, notifications
    and log. *)
Lemma execute_mint_inv e st to asset_id amount memo st' tr :
  execute e (Mint to asset_id amount memo) st = Ok (st', tr) →
  ∃ ast col st1 out1,
    assetstable st !! asset_id = Some ast ∧
    colstable st !! a_collection_id ast = Some col ∧
    mint to asset_id amount memo e st [] = Ok ((), st1, out1) ∧
    let log :=
      Transferlog null_name (c_author col) asset_id amount 0
        (b_balance (credited (balances st) to asset_id amount)) memo in
    ((to = c_author col ∧ st' = st1 ∧
      tr = [(Mint to asset_id amount memo, []); (log, [])]) ∨
     (to ≠ c_author col ∧
      ∃ out2 from_balance to_balance,
        transfer (c_author col) to asset_id amount memo
          (with_actor e (c_author col)) st1 [] = Ok ((), st', out2) ∧
        tr = [(Mint to asset_id amount memo, []); (log, []);
              (Transfer (c_author col) to asset_id amount memo,
               [c_author col; to]);
              (Transferlog (c_author col) to asset_id amount from_balance
                 to_balance memo, [])])).
Proof.
  unfold execute, max_inline_action_depth. rewrite execute_at_unfold.
  cbn [apply]. destruct (mint _ _ _ _ e st []) as [[[[] st1] out1]|] eqn:Hmint;
    [|discriminate].
  pose proof Hmint as Hbody. rewrite mint_run in Hmint. cbv zeta in Hmint.
  destruct (bytes memo <=? 256); [|discriminate].
  destruct (assetstable st !! asset_id) as [ast|] eqn:Hast; [|discriminate].
  destruct (colstable st !! a_collection_id ast) as [col|] eqn:Hcol;
    [|discriminate].
  destruct (has_auth_in _ _); [|discriminate].
  destruct (0 <? amount); [|discriminate].
  destruct (u64 _ <=? _); [|discriminate].
  intros H. exists ast, col, st1, out1. split_and!; [done..|]. cbv zeta.
  destruct (to =? c_author col) eqn:Hto.
  - apply Z.eqb_eq in Hto. left. simplify_eq.
    cbn [app inlined notified omap list_omap] in H.
    rewrite execute_all_log, execute_all_nil in H by done. by simplify_eq.
  - apply Z.eqb_neq in Hto. right. split; [done|]. simplify_eq.
    cbn [app inlined notified omap list_omap] in H.
    rewrite execute_all_log, execute_all_cons in H by done.
    match type of H with context [execute_at ?r ?e' ?a ?s] =>
      destruct (execute_at r e' a s) as [[st2 tr2]|] eqn:Htr; [|discriminate]
    end.
    rewrite execute_all_nil in H.
    pose proof Htr as Htr'.
    apply execute_at_transfer_inv in Htr as [out2 Htr].
    pose proof Htr as Hout.
    apply transfer_inv in Hout as (_ & _ & fb & tb & ->).
    apply execute_at_inv in Htr' as (st3 & out3 & Happ & Hrest).
    cbn [apply] in Happ. rewrite Htr in Happ. simplify_eq.
    destruct Hrest as [(Hin & _)|(room' & tr' & ? & Hall & ->)];
      [discriminate|].
    cbn [app inlined notified omap list_omap] in Hall.
    change (_self e) with (_self (with_actor e (c_author col))) in Hall.
    rewrite execute_all_log, execute_all_nil in Hall by done.
    simplify_eq. eexists _, fb, tb. split; [done|]. done.
Qed.

(** The body of [mint] under its preconditions, the supply cap taken on
    exact integers: it completes for every [to]. *)
Lemma mint_completes e st to asset_id amount memo ast col out :
  assetstable st !! asset_id = Some ast →
  colstable st !! a_collection_id ast = Some col →
  has_auth_in (authorization e) (c_author col) = true →
  0 < amount → bytes memo ≤ 256 →
  0 ≤ a_supply ast → a_max_supply ast ≤ UINT64_MAX →
  a_supply ast + amount ≤ a_max_supply ast →
  let row := credited (balances st) to asset_id amount in
  let log :=
    Inline (_self e)
      (Transferlog null_name (c_author col) asset_id amount 0
         (b_balance row) memo) in
  mint to asset_id amount memo e st out =
  Ok ((),
      {| colstable := colstable st;
         assetstable :=
           <[asset_id := with_supply ast (a_supply ast + amount)]> (assetstable st);
         balances := <[(to, asset_id) := row]> (balances st) |},
      if to =? c_author col then out ++ [log]
      else (out ++ [log])
             ++ [Inline (c_author col)
                   (Transfer (c_author col) to asset_id amount memo)]).
Proof.
  intros Hast Hcol Hauth Hpos Hmemo Hsup Hmax Hcap row log.
  rewrite mint_run, Hast, Hcol, Hauth. cbv zeta.
  rewrite (proj2 (Z.leb_le (bytes memo) 256)) by lia.
  rewrite (proj2 (Z.ltb_lt 0 amount)) by lia.
  rewrite (u64_small (a_supply ast + amount)) by (unfold is_u64; lia).
  rewrite (proj2 (Z.leb_le _ _) Hcap).
  by destruct (to =? c_author col).
Qed.

(** When the creation with an initial supply completes: under the
    preconditions of [createasset], with a free key, a supply that is
    positive as a signed amount and within the cap. *)
Lemma createasset_mint_completes_when e st collection_id supply max_supply
    data col :
  0 < max_supply → max_supply ≤ UINT64_MAX → bytes data ≤ 65535 →
  colstable st !! collection_id = Some col →
  has_auth_in (authorization e) (c_author col) = true →
  (next_primary_key (assetstable st) <? no_available_primary_key) = true →
  assetstable st !! allocated (assetstable st) = None →
  0 < supply → supply ≤ INT64_MAX → supply ≤ max_supply →
  let asset_id := allocated (assetstable st) in
  execute e (Createasset collection_id supply max_supply data) st =
  Ok ({| colstable := colstable st;
         assetstable :=
           <[asset_id := {| a_asset_id := asset_id;
                            a_collection_id := collection_id;
                            a_supply := supply; a_max_supply := max_supply;
                            a_data := data |}]> (assetstable st);
         balances :=
           <[(c_author col, asset_id) :=
               credited (balances st) (c_author col) asset_id supply]>
             (balances st) |},
      [(Createasset collection_id supply max_supply data, []);
       (Assetlog asset_id collection_id max_supply data, []);
       (Transferlog null_name (c_author col) asset_id supply 0
          (b_balance (credited (balances st) (c_author col) asset_id supply))
          "create and mint", [])]).
Proof.
  intros Hmax Hu64 Hdata Hcol Hauth Hroom Hfree Hpos Hfit Hcap asset_id.
  unfold execute, max_inline_action_depth. rewrite execute_at_unfold.
  cbn [apply]. rewrite createasset_run, Hcol, Hauth, Hroom. cbv zeta.
  fold asset_id. fold asset_id in Hfree. rewrite Hfree.
  rewrite (proj2 (Z.ltb_lt 0 max_supply)) by lia.
  rewrite (proj2 (Z.leb_le (bytes data) 65535)) by lia.
  rewrite (proj2 (Z.ltb_lt 0 supply)) by lia.
  rewrite (i64_small supply) by (unfold is_i64, INT64_MAX in *; lia).
  rewrite (mint_completes e _ (c_author col) asset_id supply "create and mint"
             {| a_asset_id := asset_id; a_collection_id := collection_id;
                a_supply := 0; a_max_supply := max_supply; a_data := data |}
             col);
    cbn [set_assetstable assetstable colstable balances a_collection_id
         a_supply a_max_supply];
    [|by rewrite lookup_insert_eq|done|done|lia|by vm_compute|lia|done|lia].
  rewrite Z.eqb_refl, insert_insert_eq.
  cbn [app inlined notified omap list_omap].
  rewrite !execute_all_log, execute_all_nil by done.
  unfold with_supply. cbn. by rewrite Z.add_0_l.
Qed.

(** C10, as the code has it.  The body of [mint] makes no existence check
    on the recipient: under its other preconditions it completes and creates
    or credits the row of [to], registered or not, and a mint to the author
    completes as a whole.  A mint to an unregistered account other than the
    author is aborted all the same, by the [transfer] that the body sends:
    "to account does not exist". *)
Theorem mint_recipient_unchecked (e : env) (st : ledger) (to : name)
    (asset_id amount : Z) (memo : string) (ast : nft_asset)
    (col : nft_collection) :
  assetstable st !! asset_id = Some ast →
  colstable st !! a_collection_id ast = Some col →
  has_auth_in (authorization e) (c_author col) = true →
  0 < amount → bytes memo ≤ 256 →
  0 ≤ a_supply ast → a_max_supply ast ≤ UINT64_MAX →
  a_supply ast + amount ≤ a_max_supply ast →
  (∃ st1 out,
     mint to asset_id amount memo e st [] = Ok ((), st1, out) ∧
     balances st1 !! (to, asset_id) =
       Some (credited (balances st) to asset_id amount)) ∧
  (to = c_author col →
   ∃ st' tr,
     execute e (Mint to asset_id amount memo) st = Ok (st', tr) ∧
     balances st' !! (to, asset_id) =
       Some (credited (balances st) to asset_id amount)) ∧
  (to ≠ c_author col → is_account e to = false →
   execute e (Mint to asset_id amount memo) st =
     Abort (check_failure "to account does not exist")).
Proof.
  intros Hast Hcol Hauth Hpos Hmemo Hsup Hmax Hcap.
  pose proof (mint_completes e st to asset_id amount memo ast col []
                Hast Hcol Hauth Hpos Hmemo Hsup Hmax Hcap) as Hbody.
  cbv zeta in Hbody. split_and!.
  - eexists _, _. split; [exact Hbody|]. cbn. by rewrite lookup_insert_eq.
  - intros Hto. unfold execute, max_inline_action_depth.
    rewrite execute_at_unfold. cbn [apply]. rewrite Hbody.
    rewrite (proj2 (Z.eqb_eq _ _) Hto).
    cbn [app inlined notified omap list_omap].
    rewrite execute_all_log, execute_all_nil by done.
    eexists _, _. split; [done|]. cbn. by rewrite lookup_insert_eq.
  - intros Hto Hacc. unfold execute, max_inline_action_depth.
    rewrite execute_at_unfold. cbn [apply]. rewrite Hbody.
    rewrite (proj2 (Z.eqb_neq _ _) Hto).
    cbn [app inlined notified omap list_omap].
    rewrite execute_all_log, execute_all_cons by done.
    rewrite execute_at_unfold. cbn [apply]. rewrite transfer_run.
    rewrite (proj2 (Z.eqb_neq (c_author col) to)) by congruence.
    cbn [with_actor authorization is_account].
    by rewrite has_auth_in_actor, Hacc.
Qed.

Lemma mint_recipient_unchecked_witness :
  (∃ st1 out,
     mint ghost 1 5 "m" (host [nftacct]) ledger10 [] = Ok ((), st1, out) ∧
     balances st1 !! (ghost, 1) = Some (credited (balances ledger10) ghost 1 5)) ∧
  (ghost = nftacct →
   ∃ st' tr,
     execute (host [nftacct]) (Mint ghost 1 5 "m") ledger10 = Ok (st', tr) ∧
     balances st' !! (ghost, 1) = Some (credited (balances ledger10) ghost 1 5)) ∧
  (ghost ≠ nftacct → is_account (host [nftacct]) ghost = false →
   execute (host [nftacct]) (Mint ghost 1 5 "m") ledger10 =
     Abort (check_failure "to account does not exist")).
Proof.
  apply (mint_recipient_unchecked (host [nftacct]) ledger10 ghost 1 5 "m"
           {| a_asset_id := 1; a_collection_id := 1; a_supply := 10;
              a_max_supply := 100; a_data := "{}" |}
           {| c_collection_id := 1; c_author := nftacct; c_royalty := 500;
              c_data := "{}" |});
    try (by vm_compute); cbn; lia.
Defined.

(** C10 as stated does not hold: every precondition of [mint] other than
    the existence of the recipient holds, and the mint to the unregistered
    [ghost] is aborted. *)
Lemma mint_unregistered_recipient_aborts :
  assetstable ledger10 !! 1 =
    Some {| a_asset_id := 1; a_collection_id := 1; a_supply := 10;
            a_max_supply := 100; a_data := "{}" |} ∧
  colstable ledger10 !! 1 =
    Some {| c_collection_id := 1; c_author := nftacct; c_royalty := 500;
            c_data := "{}" |} ∧
  has_auth_in (authorization (host [nftacct])) nftacct = true ∧
  0 < 5 ∧ bytes "m" ≤ 256 ∧ 10 + 5 ≤ 100 ∧
  is_account (host [nftacct]) ghost = false ∧
  transact (host [nftacct]) (Mint ghost 1 5 "m") ledger10 =
    (ledger10, Abort (check_failure "to account does not exist")).
Proof. vm_compute. split_and!; (reflexivity || discriminate). Qed.

(** ** Mint to an account other than the author *)

(** A completed mint to [to], not the author, has credited [to] twice, once
    in the body and once in the transfer from the author, and has debited
    the author, who therefore held at least [amount] before. *)
Lemma mint_to_other_balances e st to asset_id amount memo st' tr ast col :
  assetstable st !! asset_id = Some ast →
  colstable st !! a_collection_id ast = Some col →
  to ≠ c_author col →
  execute e (Mint to asset_id amount memo) st = Ok (st', tr) →
  balance_of st' to asset_id =
    i64 (b_balance (credited (balances st) to asset_id amount) + amount) ∧
  amount ≤ balance_of st (c_author col) asset_id ∧
  balance_of st' (c_author col) asset_id =
    (if balance_of st (c_author col) asset_id =? amount then 0
     else i64 (balance_of st (c_author col) asset_id - amount)) ∧
  length (transferlogs tr) = 2%nat.
Proof.
  intros Hast Hcol Hto Hexec.
  apply execute_mint_inv in Hexec
    as (ast' & col' & st1 & out1 & Hast' & Hcol' & Hbody & Hrest).
  simplify_eq. cbv zeta in Hrest.
  destruct Hrest as [[? _]|(_ & out2 & fb & tb & Htr & ->)]; [done|].
  split_and!; [| | |done].
  all: rewrite mint_run, Hast, Hcol in Hbody; cbv zeta in Hbody.
  all: destruct (bytes memo <=? 256); [|discriminate].
  all: destruct (has_auth_in _ _); [|discriminate].
  all: destruct (0 <? amount); [|discriminate].
  all: destruct (u64 _ <=? _); [|discriminate].
  all: simplify_eq.
  all: rewrite transfer_run in Htr; cbv zeta in Htr.
  all: destruct (c_author col =? to); [discriminate|].
  all: destruct (has_auth_in _ _); [|discriminate].
  all: destruct (is_account _ _); [|discriminate].
  all: cbn [assetstable] in Htr; rewrite lookup_insert_eq in Htr.
  all: destruct (0 <? amount); [|discriminate].
  all: destruct (bytes memo <=? 256); [|discriminate].
  all: destruct (sub_balance _ _ _ _ _ _) as [[[r st2] out3]|] eqn:Hsub;
    [|discriminate].
  all: apply sub_balance_inv in Hsub
    as (_ & _ & _ & from & Hfrom & Hle & Hsub).
  all: cbn [balances] in Hfrom, Hsub.
  all: rewrite lookup_insert_ne in Hfrom by congruence.
  all: simplify_eq.
  all: unfold balance_of; cbn [balances set_balances]; rewrite ?Hfrom.
  all: assert ((c_author col, asset_id) ≠ (to, asset_id)) by congruence.
  - rewrite lookup_insert_eq.
    destruct Hsub as [(Heq & _ & ->)|(Hne & _ & ->)]; unfold credited at 1.
    + by rewrite lookup_delete_ne, lookup_insert_eq by done.
    + by rewrite lookup_insert_ne, lookup_insert_eq by done.
  - done.
  - rewrite lookup_insert_ne by done.
    destruct Hsub as [(Heq & _ & ->)|(Hne & _ & ->)].
    + rewrite lookup_delete_eq. by rewrite (proj2 (Z.eqb_eq _ _) Heq).
    + rewrite lookup_insert_eq. by rewrite (proj2 (Z.eqb_neq _ _) Hne).
Qed.

(** C1 at work.  On a ledger reached from the empty one the author holds 10
    of asset 1 and mints 5 to [bob]: the supply grows by 5, [bob] ends with
    10 and the author with 5. *)
Theorem mint_to_other_credits_twice :
  forallb completed (replay steps10 empty_ledger).2 = true ∧
  (transact (host [nftacct]) (Mint bob 1 5 "m") ledger10).2 =
    Ok [(Mint bob 1 5 "m", []);
        (Transferlog null_name nftacct 1 5 0 5 "m", []);
        (Transfer nftacct bob 1 5 "m", [nftacct; bob]);
        (Transferlog nftacct bob 1 5 5 10 "m", [])] ∧
  supply_of ledger10 1 = 10 ∧
  supply_of (transact (host [nftacct]) (Mint bob 1 5 "m") ledger10).1 1 = 15 ∧
  balance_of ledger10 bob 1 = 0 ∧
  balance_of (transact (host [nftacct]) (Mint bob 1 5 "m") ledger10).1 bob 1 = 10 ∧
  balance_of ledger10 nftacct 1 = 10 ∧
  balance_of (transact (host [nftacct]) (Mint bob 1 5 "m") ledger10).1 nftacct 1 = 5.
Proof. vm_compute. split_and!; reflexivity. Qed.

(** While the author holds nothing, no one else can be minted to. *)
Example mint_to_other_needs_author_balance :
  transact (host [nftacct]) (Mint bob 1 5 "m") ledger_fresh =
  (ledger_fresh, Abort (check_failure "no balance object found")).
Proof. vm_compute. reflexivity. Qed.

(** The log of a completed mint names the author as the recipient, with the
    balance of [to]; a mint to someone else is followed by a second log,
    of the transfer. *)
Lemma mint_log_recipient e st to asset_id amount memo st' tr :
  execute e (Mint to asset_id amount memo) st = Ok (st', tr) →
  ∃ ast col,
    assetstable st !! asset_id = Some ast ∧
    colstable st !! a_collection_id ast = Some col ∧
    tr !! 1%nat =
      Some (Transferlog null_name (c_author col) asset_id amount 0
              (b_balance (credited (balances st) to asset_id amount)) memo, []) ∧
    (to ≠ c_author col → length (transferlogs tr) = 2%nat).
Proof.
  intros (ast & col & st1 & out1 & Hast & Hcol & _ & Hrest)%execute_mint_inv.
  exists ast, col. split_and!; [done..| |]; cbv zeta in Hrest.
  - by destruct Hrest as [(_ & _ & ->)|(_ & ? & ? & ? & _ & ->)].
  - intros Hto. by destruct Hrest as [(? & _)|(_ & ? & ? & ? & _ & ->)].
Qed.

(** C4 at work.  The mint of 5 to [bob] is logged as a transfer to the
    author [nftacct], with the balance of [bob], and a second log follows. *)
Theorem mint_log_names_author :
  forallb completed (replay steps10 empty_ledger).2 = true ∧
  transferlogs
    (outcome (host [nftacct]) (Mint bob 1 5 "m") ledger10).2 =
    [Transferlog null_name nftacct 1 5 0 5 "m";
     Transferlog nftacct bob 1 5 5 10 "m"] ∧
  nftacct ≠ bob.
Proof. vm_compute. split_and!; [reflexivity..|discriminate]. Qed.

(** ** Quantities beyond 63 bits *)

(** The ledgers of this section are reached from the empty one: every step
    that leads to them completes, which each statement below starts with. *)

(** C5 at work.  With a supply of 2^64 - 2 under a cap of 2^64 - 1, a mint
    of 2 exceeds the cap; the sum the code compares with the cap is taken
    modulo 2^64, the mint completes and the supply is 0. *)
Theorem mint_cap_wraps :
  forallb completed (replay steps_full empty_ledger).2 = true ∧
  assetstable ledger_full !! 1 =
    Some {| a_asset_id := 1; a_collection_id := 1; a_supply := 2 ^ 64 - 2;
            a_max_supply := 2 ^ 64 - 1; a_data := "{}" |} ∧
  2 ^ 64 - 1 < (2 ^ 64 - 2) + 2 ∧
  (transact (host [nftacct]) (Mint nftacct 1 2 "") ledger_full).2 =
    Ok [(Mint nftacct 1 2 "", []);
        (Transferlog null_name nftacct 1 2 0 2 "", [])] ∧
  assetstable (transact (host [nftacct]) (Mint nftacct 1 2 "") ledger_full).1 !! 1 =
    Some {| a_asset_id := 1; a_collection_id := 1; a_supply := 0;
            a_max_supply := 2 ^ 64 - 1; a_data := "{}" |}.
Proof. vm_compute. split_and!; reflexivity. Qed.

(** C2 at work.  Before that mint the balances of asset 1 add up to its
    supply; after it they add up to 2^64 and the supply is 0. *)
Theorem mint_wrap_breaks_sum :
  forallb completed (replay steps_full empty_ledger).2 = true ∧
  total_balance ledger_full 1 = 2 ^ 64 - 2 ∧
  supply_of ledger_full 1 = 2 ^ 64 - 2 ∧
  completed (transact (host [nftacct]) (Mint nftacct 1 2 "") ledger_full).2 = true ∧
  total_balance (transact (host [nftacct]) (Mint nftacct 1 2 "") ledger_full).1 1
    = 2 ^ 64 ∧
  supply_of (transact (host [nftacct]) (Mint nftacct 1 2 "") ledger_full).1 1 = 0.
Proof. vm_compute. split_and!; reflexivity. Qed.

(** C3 at work.  The author holds 2^63 - 1; one more is minted to it, and
    the row is stored with the balance - 2^63. *)
Theorem credit_overflow_stores_negative :
  forallb completed (replay steps_author_max empty_ledger).2 = true ∧
  balances ledger_author_max !! (nftacct, 1) =
    Some {| b_asset_id := 1; b_balance := 2 ^ 63 - 1 |} ∧
  completed (transact (host [nftacct]) (Mint nftacct 1 1 "") ledger_author_max).2
    = true ∧
  balances (transact (host [nftacct]) (Mint nftacct 1 1 "") ledger_author_max).1
    !! (nftacct, 1) =
    Some {| b_asset_id := 1; b_balance := - 2 ^ 63 |}.
Proof. vm_compute. split_and!; reflexivity. Qed.

(** C7 at work.  [bob] holds 2^63 - 1 and the author 1; the transfer of 1
    to [bob] meets every precondition and completes, and [bob] is left with
    - 2^63, not with 2^63. *)
Theorem transfer_credit_overflows :
  forallb completed (replay steps_bob_max empty_ledger).2 = true ∧
  balance_of ledger_bob_max nftacct 1 = 1 ∧
  balance_of ledger_bob_max bob 1 = 2 ^ 63 - 1 ∧
  (transact (host [nftacct]) (Transfer nftacct bob 1 1 "t") ledger_bob_max).2 =
    Ok [(Transfer nftacct bob 1 1 "t", [nftacct; bob]);
        (Transferlog nftacct bob 1 1 0 (- 2 ^ 63) "t", [])] ∧
  balance_of
    (transact (host [nftacct]) (Transfer nftacct bob 1 1 "t") ledger_bob_max).1
    nftacct 1 = 0 ∧
  balance_of
    (transact (host [nftacct]) (Transfer nftacct bob 1 1 "t") ledger_bob_max).1
    bob 1 = - 2 ^ 63.
Proof. vm_compute. split_and!; reflexivity. Qed.

(** C9 at work.  Every transaction of the run completes and every amount
    is well typed; the supply of asset 1 is 2^64 - 2, and the mint of 2
    that follows completes and leaves it at 0: this mint has not incremented
    the supply. *)
Theorem mint_lowers_supply :
  forallb completed (replay steps_full empty_ledger).2 = true ∧
  supply_of ledger_full 1 = 2 ^ 64 - 2 ∧
  completed (transact (host [nftacct]) (Mint nftacct 1 2 "") ledger_full).2
    = true ∧
  supply_of (transact (host [nftacct]) (Mint nftacct 1 2 "") ledger_full).1 1
    = 0 ∧
  supply_of (transact (host [nftacct]) (Mint nftacct 1 2 "") ledger_full).1 1
    < supply_of ledger_full 1.
Proof. vm_compute. split_and!; reflexivity. Qed.

(** ** Sums of balances *)

Lemma total_empty k : total ∅ k = 0.
Proof. unfold total. by rewrite map_fold_empty. Qed.

Lemma total_insert_new t key b k :
  t !! key = None →
  total (<[key := b]> t) k =
  (if decide (key.2 = k) then b_balance b else 0) + total t k.
Proof.
  intros Hnone. unfold total.
  rewrite map_fold_insert_L; [by case_decide| |done].
  intros j1 j2 z1 z2 y _ _ _. repeat case_decide; lia.
Qed.

Lemma total_delete t key b k :
  t !! key = Some b →
  total t k = (if decide (key.2 = k) then b_balance b else 0)
              + total (delete key t) k.
Proof.
  intros Hsome.
  rewrite <- (insert_delete_id t key b) at 1 by done.
  apply total_insert_new, lookup_delete_eq.
Qed.

Lemma total_insert t key b k :
  total (<[key := b]> t) k =
  (if decide (key.2 = k) then b_balance b - balance_in t key.1 key.2 else 0)
  + total t k.
Proof.
  destruct key as [o a]. unfold balance_in. cbn [fst snd].
  destruct (t !! (o, a)) as [b0|] eqn:Hlook.
  - rewrite <- insert_delete_eq.
    rewrite total_insert_new by apply lookup_delete_eq.
    rewrite (total_delete t (o, a) b0 k) by done.
    cbn. case_decide; lia.
  - rewrite total_insert_new by done. cbn. case_decide; lia.
Qed.

Lemma positive_rows_delete t key :
  positive_rows t → positive_rows (delete key t).
Proof.
  intros Hpos key' b Hlook. apply lookup_delete_Some in Hlook as [_ Hlook].
  by eapply Hpos.
Qed.

Lemma total_nonneg t k : positive_rows t → 0 ≤ total t k.
Proof.
  unfold total.
  apply (map_fold_weak_ind (λ r m, positive_rows m → 0 ≤ r)); [done|].
  intros key b m r Hnone IH Hpos.
  assert (0 ≤ r).
  { apply IH. intros key' b' Hlook. apply (Hpos key' b').
    rewrite lookup_insert_ne; [done|]. intros ->. congruence. }
  pose proof (Hpos key b (lookup_insert_eq _ _ _)).
  case_decide; lia.
Qed.

(** One row is at most the sum, and so are two rows together. *)
Lemma balance_le_total t owner k :
  positive_rows t → balance_in t owner k ≤ total t k.
Proof.
  intros Hpos. unfold balance_in.
  destruct (t !! (owner, k)) as [b|] eqn:Hlook; [|by apply total_nonneg].
  rewrite (total_delete t (owner, k) b k) by done. cbn.
  rewrite decide_True by done.
  pose proof (total_nonneg (delete (owner, k) t) k
                (positive_rows_delete _ _ Hpos)). lia.
Qed.

Lemma two_balances_le_total t o1 o2 k :
  positive_rows t → o1 ≠ o2 →
  balance_in t o1 k + balance_in t o2 k ≤ total t k.
Proof.
  intros Hpos Hne. unfold balance_in at 1.
  destruct (t !! (o1, k)) as [b|] eqn:Hlook.
  - rewrite (total_delete t (o1, k) b k) by done. cbn.
    rewrite decide_True by done.
    pose proof (balance_le_total (delete (o1, k) t) o2 k
                  (positive_rows_delete _ _ Hpos)) as Hle.
    unfold balance_in in Hle. rewrite lookup_delete_ne in Hle by congruence.
    unfold balance_in. lia.
  - pose proof (balance_le_total t o2 k Hpos). lia.
Qed.

Lemma ledger_ok_empty : ledger_ok empty_ledger.
Proof.
  split.
  - intros k a H. cbn in H. by rewrite lookup_empty in H.
  - intros o k [b H]. cbn in H. by rewrite lookup_empty in H.
  - intros key b H. cbn in H. by rewrite lookup_empty in H.
  - intros k. unfold total_balance, supply_of. cbn.
    by rewrite total_empty, lookup_empty.
Qed.

Lemma balance_in_le_cap st owner k ast :
  ledger_ok st → assetstable st !! k = Some ast →
  balance_in (balances st) owner k ≤ a_supply ast.
Proof.
  intros Hok Hast.
  pose proof (balance_le_total (balances st) owner k (ok_rows _ Hok)) as Hle.
  pose proof (ok_sum _ Hok k) as Hsum. unfold total_balance, supply_of in Hsum.
  rewrite Hast in Hsum. lia.
Qed.

(** The credit of [add_balance], as long as the balance stays within 63
    bits. *)
Lemma credit_ok t owner k amount :
  positive_rows t → 0 < amount →
  balance_in t owner k + amount ≤ INT64_MAX →
  b_balance (credited t owner k amount) = balance_in t owner k + amount ∧
  positive_rows (<[(owner, k) := credited t owner k amount]> t) ∧
  ∀ k', total (<[(owner, k) := credited t owner k amount]> t) k' =
        (if decide (k = k') then amount else 0) + total t k'.
Proof.
  intros Hpos Hamt Hcap.
  assert (b_balance (credited t owner k amount)
          = balance_in t owner k + amount) as Hrow.
  { unfold credited, balance_in in *.
    destruct (t !! (owner, k)) as [b|] eqn:Hlook; cbn; [|lia].
    pose proof (Hpos _ _ Hlook).
    apply i64_small. unfold is_i64, INT64_MAX in *. lia. }
  split_and!; [done| |].
  - intros key b Hlook. destruct (decide (key = (owner, k))) as [->|Hne].
    + rewrite lookup_insert_eq in Hlook. simplify_eq. rewrite Hrow.
      pose proof (balance_le_total t owner k Hpos).
      unfold balance_in in *. destruct (t !! (owner, k)) as [b|] eqn:Hl; [|lia].
      pose proof (Hpos _ _ Hl). lia.
    + rewrite lookup_insert_ne in Hlook by done. by eapply Hpos.
  - intros k'. rewrite total_insert, Hrow. cbn. case_decide; lia.
Qed.

(** The debit of [sub_balance], in its two branches. *)
Lemma debit_all_ok t owner k b :
  positive_rows t → t !! (owner, k) = Some b →
  positive_rows (delete (owner, k) t) ∧
  ∀ k', total (delete (owner, k) t) k' =
        total t k' - (if decide (k = k') then b_balance b else 0).
Proof.
  intros Hpos Hlook. split; [by apply positive_rows_delete|].
  intros k'. rewrite (total_delete t (owner, k) b k') by done. cbn.
  case_decide; lia.
Qed.

Lemma debit_part_ok t owner k b amount :
  positive_rows t → t !! (owner, k) = Some b →
  0 < amount → amount ≤ b_balance b → b_balance b ≠ amount →
  b_balance b ≤ INT64_MAX →
  let row := {| b_asset_id := b_asset_id b;
                b_balance := i64 (b_balance b - amount) |} in
  b_balance row = b_balance b - amount ∧
  positive_rows (<[(owner, k) := row]> t) ∧
  ∀ k', total (<[(owner, k) := row]> t) k' =
        total t k' - (if decide (k = k') then amount else 0).
Proof.
  intros Hpos Hlook Hamt Hle Hne Hcap row.
  assert (b_balance row = b_balance b - amount) as Hrow.
  { cbn. apply i64_small. unfold is_i64, INT64_MAX in *. lia. }
  split_and!; [done| |].
  - intros key b' Hl. destruct (decide (key = (owner, k))) as [->|Hkey].
    + rewrite lookup_insert_eq in Hl. simplify_eq. lia.
    + rewrite lookup_insert_ne in Hl by done. by eapply Hpos.
  - intros k'. rewrite total_insert, Hrow. unfold balance_in. cbn.
    rewrite Hlook. case_decide; lia.
Qed.

(** One step of the ledger on an existing asset: its supply moves by [d]
    and so does the sum of its balances. *)
Lemma ledger_ok_step st st' id ast d :
  ledger_ok st → assetstable st !! id = Some ast →
  (∀ k, assetstable st' !! k =
        if decide (id = k) then Some (with_supply ast (a_supply ast + d))
        else assetstable st !! k) →
  0 ≤ a_supply ast + d ≤ a_max_supply ast →
  positive_rows (balances st') →
  (∀ o k, is_Some (balances st' !! (o, k)) →
          is_Some (balances st !! (o, k)) ∨ k = id) →
  (∀ k, total (balances st') k =
        (if decide (id = k) then d else 0) + total (balances st) k) →
  ledger_ok st'.
Proof.
  intros Hok Hast Hassets Hrange Hpos Hdom Hsum. split.
  - intros k a. rewrite Hassets. case_decide as Hk.
    + intros [= <-]. cbn. subst k.
      pose proof (ok_assets _ Hok _ _ Hast). lia.
    + apply (ok_assets _ Hok).
  - intros o k Hrow. rewrite Hassets. case_decide; [by eexists|].
    destruct (Hdom o k Hrow) as [Hold| ->]; [|done].
    by apply (ok_closed _ Hok o k).
  - done.
  - intros k. unfold total_balance, supply_of. rewrite Hsum, Hassets.
    pose proof (ok_sum _ Hok k) as Hk. unfold total_balance, supply_of in Hk.
    destruct (decide (id = k)) as [<-|Hne].
    + rewrite Hast in Hk. cbn. lia.
    + lia.
Qed.

(** ** The ledger under the actions, within 63 bits *)

Lemma mint_preserves e st to asset_id amount memo out st' out' :
  ledger_ok st → is_i64 amount →
  mint to asset_id amount memo e st out = Ok ((), st', out') →
  ledger_ok st'.
Proof.
  intros Hok Hi64. rewrite mint_run. cbv zeta.
  destruct (bytes memo <=? 256); [|discriminate].
  destruct (assetstable st !! asset_id) as [ast|] eqn:Hast; [|discriminate].
  destruct (colstable st !! a_collection_id ast) as [col|]; [|discriminate].
  destruct (has_auth_in _ _); [|discriminate].
  destruct (0 <? amount) eqn:Hpos; [|discriminate].
  destruct (u64 _ <=? _) eqn:Hcap; [|discriminate].
  intros H. apply Z.ltb_lt in Hpos. apply Z.leb_le in Hcap.
  pose proof (ok_assets _ Hok _ _ Hast) as [Hsup Hmax].
  rewrite u64_small in Hcap, H
    by (unfold is_u64, is_i64, UINT64_MAX, INT64_MAX in *; lia).
  pose proof (balance_in_le_cap st to asset_id ast Hok Hast) as Hbal.
  destruct (credit_ok (balances st) to asset_id amount (ok_rows _ Hok) Hpos)
    as (Hrow & Hrows & Hsum); [lia|].
  assert (st' = {| colstable := colstable st;
                   assetstable :=
                     <[asset_id := with_supply ast (a_supply ast + amount)]>
                       (assetstable st);
                   balances :=
                     <[(to, asset_id) := credited (balances st) to asset_id amount]>
                       (balances st) |}) as ->
      by (by destruct (to =? c_author col); simplify_eq).
  apply (ledger_ok_step st _ asset_id ast amount); cbn; try done.
  - intros k. apply lookup_insert.
  - lia.
  - intros o k. rewrite lookup_insert. case_decide; [|by left].
    simplify_eq. by right.
Qed.

Lemma with_supply_same ast : with_supply ast (a_supply ast + 0) = ast.
Proof. destruct ast. unfold with_supply. cbn. f_equal. lia. Qed.

Lemma burn_preserves e st asset_id amount memo out st' out' :
  ledger_ok st → is_i64 amount →
  burn asset_id amount memo e st out = Ok ((), st', out') →
  ledger_ok st'.
Proof.
  intros Hok Hi64. rewrite burn_run.
  destruct (bytes memo <=? 256); [|discriminate].
  destruct (0 <? amount) eqn:Hpos; [|discriminate].
  destruct (assetstable st !! asset_id) as [ast|] eqn:Hast; [|discriminate].
  destruct (u64 amount <=? a_supply ast) eqn:Hsup; [|discriminate].
  destruct (colstable st !! a_collection_id ast) as [col|]; [|discriminate].
  destruct (has_auth_in _ _); [|discriminate].
  destruct (sub_balance _ _ _ _ _ _) as [[[r st1] out1]|] eqn:Hsub;
    [|discriminate].
  intros H. simplify_eq.
  apply Z.ltb_lt in Hpos. apply Z.leb_le in Hsup.
  pose proof (ok_assets _ Hok _ _ Hast) as [Hrange Hmax].
  rewrite u64_small in Hsup
    by (unfold is_u64, is_i64, UINT64_MAX, INT64_MAX in *; lia).
  apply sub_balance_inv in Hsub as (Hc & Ha & _ & b & Hb & Hle & Hbal).
  cbn [set_assetstable colstable assetstable balances] in Hc, Ha, Hb, Hbal.
  rewrite u64_small in Ha
    by (unfold is_u64, is_i64, UINT64_MAX, INT64_MAX in *; lia).
  pose proof (balance_in_le_cap st (c_author col) asset_id ast Hok Hast) as Hcap.
  unfold balance_in in Hcap. rewrite Hb in Hcap.
  apply (ledger_ok_step st _ asset_id ast (- amount)); try done.
  - intros k. rewrite Ha. apply lookup_insert.
  - lia.
  - destruct Hbal as [(_ & _ & ->)|(Hne & _ & ->)].
    + by apply positive_rows_delete, ok_rows.
    + apply (debit_part_ok _ _ _ b amount); try done; [apply Hok|lia].
  - intros o k. destruct Hbal as [(_ & _ & ->)|(Hne & _ & ->)].
    + intros [x Hx]. apply lookup_delete_Some in Hx as [_ Hx]. left; by eexists.
    + rewrite lookup_insert. case_decide; [|by left]. simplify_eq. by right.
  - intros k. destruct Hbal as [(Heq & _ & ->)|(Hne & _ & ->)].
    + destruct (debit_all_ok _ _ _ b (ok_rows _ Hok) Hb) as [_ ->].
      case_decide; lia.
    + destruct (debit_part_ok (balances st) (c_author col) asset_id b amount)
        as (_ & _ & ->); try done; [apply Hok|lia|].
      case_decide; lia.
Qed.

Lemma transfer_preserves e st from to asset_id amount memo out st' out' :
  ledger_ok st → is_i64 amount →
  transfer from to asset_id amount memo e st out = Ok ((), st', out') →
  ledger_ok st'.
Proof.
  intros Hok Hi64. rewrite transfer_run.
  destruct (from =? to) eqn:Hft; [discriminate|]. apply Z.eqb_neq in Hft.
  destruct (has_auth_in _ _); [|discriminate].
  destruct (is_account _ _); [|discriminate].
  destruct (assetstable st !! asset_id) as [ast|] eqn:Hast; [|discriminate].
  destruct (0 <? amount) eqn:Hpos; [|discriminate].
  destruct (bytes memo <=? 256); [|discriminate].
  destruct (sub_balance _ _ _ _ _ _) as [[[r st1] out1]|] eqn:Hsub;
    [|discriminate].
  cbv zeta. intros H. simplify_eq. apply Z.ltb_lt in Hpos.
  pose proof (ok_assets _ Hok _ _ Hast) as [Hrange Hmax].
  apply sub_balance_inv in Hsub as (Hc & Ha & _ & b & Hb & Hle & Hbal).
  pose proof (two_balances_le_total (balances st) from to asset_id
                (ok_rows _ Hok) Hft) as Htwo.
  pose proof (ok_sum _ Hok asset_id) as Hsum.
  unfold total_balance, supply_of in Hsum. rewrite Hast in Hsum.
  unfold balance_in at 1 in Htwo. rewrite Hb in Htwo.
  assert ((from, asset_id) ≠ (to, asset_id)) as Hkeys by congruence.
  assert (balance_in (balances st1) to asset_id
          = balance_in (balances st) to asset_id) as Hto.
  { unfold balance_in.
    destruct Hbal as [(_ & _ & ->)|(_ & _ & ->)];
      by rewrite ?lookup_delete_ne, ?lookup_insert_ne by done. }
  assert (positive_rows (balances st1) ∧
          ∀ k, total (balances st1) k =
               total (balances st) k
               - (if decide (asset_id = k) then amount else 0))
    as [Hrows1 Hsum1].
  { destruct Hbal as [(Heq & _ & ->)|(Hne & _ & ->)].
    - destruct (debit_all_ok _ _ _ b (ok_rows _ Hok) Hb) as [? Hs].
      split; [done|]. intros k. rewrite Hs. case_decide; lia.
    - pose proof (balance_in_le_cap st from asset_id ast Hok Hast) as Hcap.
      unfold balance_in in Hcap. rewrite Hb in Hcap.
      destruct (debit_part_ok (balances st) from asset_id b amount)
        as (_ & ? & Hs); try done; [apply Hok|lia]. }
  destruct (credit_ok (balances st1) to asset_id amount Hrows1 Hpos)
    as (_ & Hrows2 & Hsum2); [lia|].
  apply (ledger_ok_step st _ asset_id ast 0); try done.
  - intros k. cbn. rewrite Ha. case_decide; [|done].
    simplify_eq. by rewrite with_supply_same.
  - lia.
  - intros o k. cbn. rewrite lookup_insert. case_decide.
    + simplify_eq. by right.
    + destruct Hbal as [(_ & _ & ->)|(_ & _ & ->)].
      * intros [x Hx]. apply lookup_delete_Some in Hx as [_ Hx].
        left; by eexists.
      * rewrite lookup_insert. case_decide; [|by left]. simplify_eq. by right.
  - intros k. cbn. rewrite Hsum2, Hsum1. case_decide; lia.
Qed.

Lemma createasset_preserves e st collection_id supply max_supply data out st' out' :
  ledger_ok st → max_supply ≤ INT64_MAX →
  createasset collection_id supply max_supply data e st out = Ok ((), st', out') →
  ledger_ok st'.
Proof.
  intros Hok Hmax. rewrite createasset_run. cbv zeta.
  destruct (0 <? max_supply) eqn:Hpos; [|discriminate].
  destruct (bytes data <=? 65535); [|discriminate].
  destruct (colstable st !! collection_id) as [col|]; [|discriminate].
  destruct (has_auth_in _ _); [|discriminate].
  destruct (next_primary_key _ <? _); [|discriminate].
  destruct (assetstable st !! allocated (assetstable st)) eqn:Hfree;
    [discriminate|].
  apply Z.ltb_lt in Hpos.
  set (asset_id := allocated (assetstable st)) in *.
  set (row := {| a_asset_id := asset_id; a_collection_id := collection_id;
                 a_supply := 0; a_max_supply := max_supply; a_data := data |}).
  assert (ledger_ok (set_assetstable (<[asset_id := row]> (assetstable st)) st))
    as Hok1.
  { split; cbn [set_assetstable assetstable balances colstable].
    - intros k a. rewrite lookup_insert. case_decide.
      + intros [= <-]. cbn. lia.
      + apply (ok_assets _ Hok).
    - intros o k Hrow. cbn [set_assetstable assetstable balances] in *.
      rewrite lookup_insert. case_decide; [by eexists|].
      by apply (ok_closed _ Hok o k).
    - apply (ok_rows _ Hok).
    - intros k. pose proof (ok_sum _ Hok k) as Hk.
      unfold total_balance, supply_of in *.
      cbn [set_assetstable assetstable balances colstable].
      rewrite lookup_insert.
      case_decide; [|done]. subst k. by rewrite Hfree in Hk. }
  destruct (0 <? supply).
  - intros H. eapply mint_preserves; [exact Hok1|apply i64_range|exact H].
  - intros H. by simplify_eq.
Qed.

Lemma apply_preserves a e st st1 out :
  ledger_ok st → fits a → apply a e st [] = Ok ((), st1, out) →
  ledger_ok st1.
Proof.
  intros Hok Hfits. destruct a; cbn [apply fits] in *.
  - rewrite createcol_run. cbv zeta. intros H.
    repeat case_match; simplify_eq. by destruct Hok.
  - destruct Hfits as [_ Hmax]. by apply createasset_preserves.
  - by apply mint_preserves.
  - by apply burn_preserves.
  - by apply transfer_preserves.
  - rewrite log_action_run. intros H. case_match; by simplify_eq.
  - rewrite log_action_run. intros H. case_match; by simplify_eq.
  - rewrite log_action_run. intros H. case_match; by simplify_eq.
Qed.

Lemma apply_inlined_fits a e st u st1 out :
  fits a → apply a e st [] = Ok (u, st1, out) →
  Forall (λ pa, fits pa.2) (inlined out).
Proof.
  intros Hfits. destruct a; cbn [apply fits] in *.
  - rewrite createcol_run. intros H; cbv zeta in H.
    repeat case_match; simplify_eq. cbn. Forall_by ltac:(apply i64_range).
  - rewrite createasset_run. intros H; cbv zeta in H.
    repeat case_match; simplify_eq.
    + rewrite mint_run in H; cbv zeta in H.
      repeat case_match; simplify_eq; cbn; Forall_by ltac:(apply i64_range).
    + cbn. Forall_by ltac:(apply i64_range).
  - rewrite mint_run. intros H; cbv zeta in H.
    repeat case_match; simplify_eq; cbn; Forall_by ltac:(apply i64_range).
  - rewrite burn_run. intros H. repeat case_match; simplify_eq.
    match goal with Hs : sub_balance _ _ _ _ _ _ = Ok _ |- _ =>
      apply sub_balance_inv in Hs as (_ & _ & -> & _) end.
    cbn. Forall_by ltac:(apply i64_range).
  - intros H. destruct u.
    apply transfer_inv in H as (_ & _ & fb & tb & ->). cbn.
    Forall_by ltac:(apply i64_range).
  - rewrite log_action_run. intros H. case_match; simplify_eq. constructor.
  - rewrite log_action_run. intros H. case_match; simplify_eq. constructor.
  - rewrite log_action_run. intros H. case_match; simplify_eq. constructor.
Qed.

Lemma apply_keeps_ok a e st st1 out :
  ledger_ok st → fits a → apply a e st [] = Ok ((), st1, out) →
  ledger_ok st1 ∧ Forall (λ pa, fits pa.2) (inlined out).
Proof.
  intros Hok Hfits Happ. split.
  - by eapply apply_preserves.
  - by eapply apply_inlined_fits.
Qed.

(** With amounts that fit and caps within 63 bits, every action keeps the
    ledger as the specification asks. *)
Lemma ledger_ok_preserved e a st st' tr :
  ledger_ok st → fits a → execute e a st = Ok (st', tr) → ledger_ok st'.
Proof. apply (execute_at_invariant ledger_ok fits apply_keeps_ok). Qed.

Lemma reachable_ok st : reachable_by fits st → ledger_ok st.
Proof.
  apply (reachable_by_invariant ledger_ok fits apply_keeps_ok), ledger_ok_empty.
Qed.

(** X21.  On such a ledger the balances of every asset add up to its
    supply. *)
Lemma reachable_sum st k :
  reachable_by fits st → total_balance st k = supply_of st k.
Proof. intros Hr. apply (ok_sum _ (reachable_ok _ Hr)). Qed.

(** X22.  On such a ledger a balance row exists exactly where the balance
    is positive, and no row holds a quantity that is not positive. *)
Lemma reachable_rows st owner k :
  reachable_by fits st →
  (is_Some (balances st !! (owner, k)) ↔ 0 < balance_of st owner k) ∧
  (∀ b, balances st !! (owner, k) = Some b → 0 < b_balance b).
Proof.
  intros Hok%reachable_ok. unfold balance_of. split.
  - destruct (balances st !! (owner, k)) as [b|] eqn:Hb.
    + split; [intros _; by apply (ok_rows _ Hok _ _ Hb)|by eexists].
    + split; [by intros [? ?]|lia].
  - intros b Hb. by apply (ok_rows _ Hok _ _ Hb).
Qed.

(** ** Transfer *)

(** A transfer under the host is its body and its log. *)
Lemma execute_transfer e st from to asset_id amount memo :
  execute e (Transfer from to asset_id amount memo) st =
  match transfer from to asset_id amount memo e st [] with
  | Abort f => Abort f
  | Ok (_, st', out) =>
      Ok (st', (Transfer from to asset_id amount memo, [from; to])
               :: map (λ pa, (pa.2, [])) (inlined out))
  end.
Proof.
  unfold execute, max_inline_action_depth. rewrite execute_at_unfold.
  cbn [apply].
  destruct (transfer _ _ _ _ _ e st []) as [[[[] st'] out]|] eqn:Htr; [|done].
  apply transfer_inv in Htr as (_ & _ & fb & tb & ->).
  cbn [app inlined notified omap list_omap map snd].
  by rewrite execute_all_log, execute_all_nil.
Qed.

(** X18.  The preconditions of [transfer], in the order the code checks
    them, with the message each violation aborts with. *)
Lemma transfer_aborts e st from to asset_id amount memo :
  (from = to →
   execute e (Transfer from to asset_id amount memo) st =
     Abort (check_failure "cannot transfer to self")) ∧
  (from ≠ to → has_auth_in (authorization e) from = false →
   execute e (Transfer from to asset_id amount memo) st =
     Abort (missing_authority from)) ∧
  (from ≠ to → has_auth_in (authorization e) from = true →
   is_account e to = false →
   execute e (Transfer from to asset_id amount memo) st =
     Abort (check_failure "to account does not exist")) ∧
  (from ≠ to → has_auth_in (authorization e) from = true →
   is_account e to = true → assetstable st !! asset_id = None →
   execute e (Transfer from to asset_id amount memo) st =
     Abort (check_failure "unable to find asset")) ∧
  (from ≠ to → has_auth_in (authorization e) from = true →
   is_account e to = true → is_Some (assetstable st !! asset_id) →
   amount ≤ 0 →
   execute e (Transfer from to asset_id amount memo) st =
     Abort (check_failure "must transfer positive amount")) ∧
  (from ≠ to → has_auth_in (authorization e) from = true →
   is_account e to = true → is_Some (assetstable st !! asset_id) →
   0 < amount → 256 < bytes memo →
   execute e (Transfer from to asset_id amount memo) st =
     Abort (check_failure "memo has more than 256 bytes")) ∧
  (from ≠ to → has_auth_in (authorization e) from = true →
   is_account e to = true → is_Some (assetstable st !! asset_id) →
   0 < amount → bytes memo ≤ 256 →
   balances st !! (from, asset_id) = None →
   execute e (Transfer from to asset_id amount memo) st =
     Abort (check_failure "no balance object found")) ∧
  (from ≠ to → has_auth_in (authorization e) from = true →
   is_account e to = true → is_Some (assetstable st !! asset_id) →
   0 < amount → bytes memo ≤ 256 →
   ∀ b, balances st !! (from, asset_id) = Some b → b_balance b < amount →
   execute e (Transfer from to asset_id amount memo) st =
     Abort (check_failure "overdrawn balance")).
Proof.
  rewrite execute_transfer, transfer_run, sub_balance_run.
  split_and!.
  - intros ->. by rewrite Z.eqb_refl.
  - intros ->%Z.eqb_neq ->. done.
  - intros ->%Z.eqb_neq -> ->. done.
  - intros ->%Z.eqb_neq -> -> ->. done.
  - intros ->%Z.eqb_neq -> -> [? ->] ->%Z.ltb_ge. done.
  - intros ->%Z.eqb_neq -> -> [? ->] ->%Z.ltb_lt Hm.
    by rewrite (proj2 (Z.leb_gt _ _) Hm).
  - intros ->%Z.eqb_neq -> -> [? ->] ->%Z.ltb_lt ->%Z.leb_le ->. done.
  - intros ->%Z.eqb_neq -> -> [? ->] ->%Z.ltb_lt ->%Z.leb_le b -> Hb.
    by rewrite (proj2 (Z.leb_gt _ _) Hb).
Qed.

(** X19.  A transfer aborts exactly when one of its preconditions fails. *)
Lemma transfer_aborts_iff e st from to asset_id amount memo :
  (∃ f, execute e (Transfer from to asset_id amount memo) st = Abort f) ↔
  from = to ∨ has_auth_in (authorization e) from = false ∨
  is_account e to = false ∨ assetstable st !! asset_id = None ∨
  amount ≤ 0 ∨ 256 < bytes memo ∨ balance_of st from asset_id < amount.
Proof.
  rewrite execute_transfer, transfer_run, sub_balance_run. unfold balance_of.
  destruct (from =? to) eqn:Hft;
    [apply Z.eqb_eq in Hft; split; [by left|by eexists]|].
  apply Z.eqb_neq in Hft.
  destruct (has_auth_in _ _); [|split; [by right; left|by eexists]].
  destruct (is_account _ _); [|split; [by right; right; left|by eexists]].
  destruct (assetstable st !! asset_id);
    [|split; [by right; right; right; left|by eexists]].
  destruct (0 <? amount) eqn:Hpos;
    [apply Z.ltb_lt in Hpos
    |apply Z.ltb_ge in Hpos; split; [by do 4 right; left|by eexists]].
  destruct (bytes memo <=? 256) eqn:Hmemo;
    [apply Z.leb_le in Hmemo
    |apply Z.leb_gt in Hmemo; split; [by do 5 right; left|by eexists]].
  destruct (balances st !! (from, asset_id)) as [b|];
    [|split; [by do 6 right|by eexists]].
  destruct (amount <=? b_balance b) eqn:Hle;
    [apply Z.leb_le in Hle
    |apply Z.leb_gt in Hle; split; [by do 6 right|by eexists]].
  cbv zeta.
  destruct (b_balance b =? amount); (split; [by intros [? ?]|]);
    intros [?|[?|[?|[?|[?|[?|?]]]]]]; done || lia.
Qed.

(** X20.  What a completed transfer leaves: the debit is exact, the credit
    is [balance += amount] on 64 signed bits, exact while the sum fits. *)
Lemma transfer_effect e st from to asset_id amount memo st' tr :
  execute e (Transfer from to asset_id amount memo) st = Ok (st', tr) →
  is_i64 amount → is_i64 (balance_of st from asset_id) →
  balance_of st' from asset_id = balance_of st from asset_id - amount ∧
  balance_of st' to asset_id = i64 (balance_of st to asset_id + amount) ∧
  (0 ≤ balance_of st to asset_id →
   balance_of st to asset_id + amount ≤ INT64_MAX →
   balance_of st' to asset_id = balance_of st to asset_id + amount) ∧
  (∀ o k, (o, k) ≠ (from, asset_id) → (o, k) ≠ (to, asset_id) →
          balances st' !! (o, k) = balances st !! (o, k)) ∧
  (is_Some (balances st' !! (from, asset_id)) ↔
   balance_of st from asset_id ≠ amount).
Proof.
  rewrite execute_transfer, transfer_run.
  destruct (from =? to) eqn:Hft; [discriminate|]. apply Z.eqb_neq in Hft.
  destruct (has_auth_in _ _); [|discriminate].
  destruct (is_account _ _); [|discriminate].
  destruct (assetstable st !! asset_id); [|discriminate].
  destruct (0 <? amount) eqn:Hpos; [|discriminate]. apply Z.ltb_lt in Hpos.
  destruct (bytes memo <=? 256); [|discriminate].
  destruct (sub_balance _ _ _ _ _ _) as [[[r st1] out1]|] eqn:Hsub;
    [|discriminate].
  intros H Hamt Hfrom. cbv beta iota zeta in H. simplify_eq.
  apply sub_balance_inv in Hsub as (_ & _ & _ & b & Hb & Hle & Hbal).
  assert ((from, asset_id) ≠ (to, asset_id)) as Hkeys by congruence.
  assert (balances st1 !! (to, asset_id) = balances st !! (to, asset_id))
    as Hto.
  { destruct Hbal as [(_ & _ & ->)|(_ & _ & ->)];
      by rewrite ?lookup_delete_ne, ?lookup_insert_ne by done. }
  assert (b_balance (credited (balances st1) to asset_id amount)
          = i64 (balance_of st to asset_id + amount)) as Hcred.
  { unfold credited, balance_of. rewrite Hto.
    destruct (balances st !! (to, asset_id)); cbn; [done|].
    by rewrite i64_small. }
  unfold balance_of in Hfrom |- *. rewrite Hb in Hfrom.
  cbn [balances set_balances]. rewrite Hb.
  rewrite lookup_insert_eq, (lookup_insert_ne _ (to, asset_id)) by done.
  split_and!.
  - destruct Hbal as [(Heq & _ & ->)|(Hne & _ & ->)].
    + rewrite lookup_delete_eq. lia.
    + rewrite lookup_insert_eq. cbn. apply i64_small.
      unfold is_i64, INT64_MAX in *. lia.
  - exact Hcred.
  - intros H0 Hfit. rewrite Hcred. apply i64_small.
    unfold balance_of, is_i64, INT64_MAX in *. lia.
  - intros o k Ho1 Ho2. rewrite lookup_insert_ne by done.
    destruct Hbal as [(_ & _ & ->)|(_ & _ & ->)];
      by rewrite ?lookup_delete_ne, ?lookup_insert_ne by done.
  - destruct Hbal as [(Heq & _ & ->)|(Hne & _ & ->)].
    + rewrite lookup_delete_eq. split; [by intros [? ?]|done].
    + rewrite lookup_insert_eq. split; [done|by eexists].
Qed.

(** ** The supply cap *)

(** The check of [mint] compares the cap with the sum modulo 2^64, and the
    sum modulo 2^64 is what is stored. *)
Lemma mint_cap_check e st to asset_id amount memo ast col :
  assetstable st !! asset_id = Some ast →
  colstable st !! a_collection_id ast = Some col →
  has_auth_in (authorization e) (c_author col) = true →
  0 < amount → bytes memo ≤ 256 →
  (u64 (a_supply ast + amount) ≤ a_max_supply ast →
   ∃ st1 out,
     mint to asset_id amount memo e st [] = Ok ((), st1, out) ∧
     supply_of st1 asset_id = u64 (a_supply ast + amount)) ∧
  (a_max_supply ast < u64 (a_supply ast + amount) →
   execute e (Mint to asset_id amount memo) st =
     Abort (check_failure "amount exceeds available supply")).
Proof.
  intros Hast Hcol Hauth Hpos Hmemo.
  unfold execute, max_inline_action_depth. rewrite execute_at_unfold.
  cbn [apply]. rewrite mint_run, Hast, Hcol, Hauth. cbv zeta.
  rewrite (proj2 (Z.leb_le (bytes memo) 256)) by lia.
  rewrite (proj2 (Z.ltb_lt 0 amount)) by lia.
  split.
  - intros Hcap. rewrite (proj2 (Z.leb_le _ _) Hcap).
    eexists _, _. split; [done|].
    unfold supply_of. cbn. by rewrite lookup_insert_eq.
  - intros Hcap. by rewrite (proj2 (Z.leb_gt _ _) Hcap).
Qed.

(** Whatever the quantities, a stored supply is never above the cap of its
    asset. *)
Lemma supply_capped_preserved e a st st' tr :
  supply_capped st → typed a → execute e a st = Ok (st', tr) →
  supply_capped st'.
Proof.
  intros Hcap Htyped (st1 & out & Happ & _ & Ha)%execute_at_tables.
  intros k x. rewrite Ha. clear Ha st' tr. revert k x.
  destruct a; cbn [apply typed] in *.
  - rewrite createcol_run in Happ. cbv zeta in Happ.
    repeat case_match; simplify_eq. apply Hcap.
  - rewrite createasset_run in Happ. cbv zeta in Happ.
    destruct Htyped as [_ Hmax].
    destruct (0 <? max_supply) eqn:Hpos; [|discriminate].
    apply Z.ltb_lt in Hpos.
    repeat case_match; simplify_eq.
    + rewrite mint_run in Happ. cbv zeta in Happ.
      cbn [set_assetstable assetstable colstable balances] in Happ.
      rewrite lookup_insert_eq in Happ.
      cbn [a_collection_id a_supply a_max_supply] in Happ.
      repeat case_match; simplify_eq;
        match goal with Hle : (u64 _ <=? _) = true |- _ =>
          apply Z.leb_le in Hle end;
        cbn; rewrite insert_insert_eq;
        intros k x; (rewrite lookup_insert; case_decide; [|apply Hcap]);
        intros [= <-]; cbn; pose proof (u64_range (0 + i64 supply)) as Hr;
        unfold is_u64 in *; lia.
    + cbn. intros k x. rewrite lookup_insert. case_decide; [|apply Hcap].
      intros [= <-]. cbn. unfold is_u64 in *. lia.
  - rewrite mint_run in Happ. cbv zeta in Happ.
    destruct (bytes _ <=? 256); [|discriminate].
    destruct (assetstable st !! asset_id) as [ast|] eqn:Hast; [|discriminate].
    destruct (colstable st !! _); [|discriminate].
    destruct (has_auth_in _ _); [|discriminate].
    destruct (0 <? amount); [|discriminate].
    destruct (u64 _ <=? _) eqn:Hle; [|discriminate].
    apply Z.leb_le in Hle.
    assert (assetstable st1 =
            <[asset_id := with_supply ast (u64 (a_supply ast + amount))]>
              (assetstable st)) as -> by (by case_match; simplify_eq).
    intros k x. rewrite lookup_insert. case_decide; [|apply Hcap].
    intros [= <-]. cbn. pose proof (u64_range (a_supply ast + amount)) as Hr.
    pose proof (Hcap _ _ Hast). unfold is_u64 in *. lia.
  - rewrite burn_run in Happ.
    destruct (bytes _ <=? 256); [|discriminate].
    destruct (0 <? amount) eqn:Hpos; [|discriminate].
    destruct (assetstable st !! asset_id) as [ast|] eqn:Hast; [|discriminate].
    destruct (u64 amount <=? a_supply ast) eqn:Hle; [|discriminate].
    destruct (colstable st !! _); [|discriminate].
    destruct (has_auth_in _ _); [|discriminate].
    destruct (sub_balance _ _ _ _ _ _) as [[[r st2] out2]|] eqn:Hsub;
      [|discriminate].
    simplify_eq. apply sub_balance_inv in Hsub as (_ & -> & _).
    apply Z.ltb_lt in Hpos. apply Z.leb_le in Hle.
    pose proof (Hcap _ _ Hast).
    rewrite u64_small in Hle
      by (unfold is_u64, is_i64, UINT64_MAX, INT64_MAX in *; lia).
    cbn. intros k x. rewrite lookup_insert. case_decide; [|apply Hcap].
    intros [= <-]. cbn. rewrite u64_small by (unfold is_u64; lia). lia.
  - apply transfer_inv in Happ as (_ & -> & _). apply Hcap.
  - rewrite log_action_run in Happ. case_match; simplify_eq. apply Hcap.
  - rewrite log_action_run in Happ. case_match; simplify_eq. apply Hcap.
  - rewrite log_action_run in Happ. case_match; simplify_eq. apply Hcap.
Qed.

(** ** Every ledger is well formed *)

(** An allocation that passes the check of the key range has picked the
    key after the last one. *)
Lemma allocated_checked {V} (t : gmap Z V) (n : Z) :
  contiguous t n → 0 ≤ n →
  (next_primary_key t <? no_available_primary_key) = true →
  allocated t = n + 1.
Proof.
  intros Hc Hn. unfold allocated.
  rewrite (next_primary_key_keys t n) by done.
  destruct (n =? 0) eqn:Hn0; [apply Z.eqb_eq in Hn0 as ->; done|].
  apply Z.eqb_neq in Hn0.
  destruct (no_available_primary_key <=? n); [by rewrite Z.ltb_irrefl|].
  intros _. destruct (n + 1 =? 0) eqn:H1; [apply Z.eqb_eq in H1; lia|done].
Qed.

Lemma apply_keeps_wf a e st st1 out :
  ledger_wf st → True → apply a e st [] = Ok ((), st1, out) →
  ledger_wf st1 ∧ Forall (λ pa : name * action, True) (inlined out).
Proof.
  intros [(n & Hn & Hcol) (m & Hm & Hast) Hclosed] _ Happ.
  split; [|by apply Forall_true].
  destruct a; cbn [apply] in Happ.
  - rewrite createcol_run in Happ. cbv zeta in Happ.
    destruct (has_auth_in _ _); [|discriminate].
    destruct (0 <=? royalty); [|discriminate].
    destruct (royalty <=? 1000); [|discriminate].
    destruct (bytes data <=? 65535); [|discriminate].
    destruct (is_account e author); [|discriminate].
    destruct (next_primary_key _ <? _) eqn:Hroom; [|discriminate].
    rewrite (allocated_checked _ n) in Happ by done.
    destruct (colstable st !! (n + 1)); [discriminate|]. simplify_eq.
    split; cbn; [|by exists m|done].
    exists (n + 1). split; [lia|by apply contiguous_insert].
  - rewrite createasset_run in Happ. cbv zeta in Happ.
    destruct (0 <? max_supply); [|discriminate].
    destruct (bytes data <=? 65535); [|discriminate].
    destruct (colstable st !! collection_id) as [col|] eqn:Hc; [|discriminate].
    destruct (has_auth_in _ _) eqn:Hauth; [|discriminate].
    destruct (next_primary_key _ <? _) eqn:Hroom; [|discriminate].
    rewrite (allocated_checked _ m) in Happ by done.
    destruct (assetstable st !! (m + 1)) eqn:Hfree; [discriminate|].
    destruct (0 <? supply).
    + rewrite mint_run in Happ. cbv zeta in Happ.
      cbn [set_assetstable assetstable colstable balances] in Happ.
      rewrite lookup_insert_eq in Happ.
      cbn [a_collection_id a_supply a_max_supply] in Happ.
      rewrite Hc, Hauth, Z.eqb_refl in Happ.
      repeat case_match; simplify_eq.
      split; cbn; [by exists n| |].
      * exists (m + 1). split; [lia|]. rewrite insert_insert_eq.
        by apply contiguous_insert.
      * intros o k. cbn [balances assetstable set_assetstable set_balances]. rewrite insert_insert_eq, !lookup_insert.
        repeat case_decide; simplify_eq; try by eexists.
        apply (Hclosed o k).
    + simplify_eq. split; cbn; [by exists n| |].
      * exists (m + 1). split; [lia|by apply contiguous_insert].
      * intros o k Hrow. cbn [balances assetstable set_assetstable set_balances] in *. rewrite lookup_insert. case_decide; [by eexists|].
        by apply (Hclosed o k).
  - rewrite mint_run in Happ. cbv zeta in Happ.
    destruct (bytes _ <=? 256); [|discriminate].
    destruct (assetstable st !! asset_id) as [ast|] eqn:Ha; [|discriminate].
    repeat case_match; simplify_eq; (split; cbn; [by exists n| |]).
    all: try (exists m; split; [done|]; by apply contiguous_update).
    all: intros o k; cbn [balances assetstable set_assetstable set_balances]; rewrite !lookup_insert;
      repeat case_decide; simplify_eq; try by eexists.
    all: apply (Hclosed o k).
  - rewrite burn_run in Happ.
    destruct (bytes _ <=? 256); [|discriminate].
    destruct (0 <? amount); [|discriminate].
    destruct (assetstable st !! asset_id) as [ast|] eqn:Ha; [|discriminate].
    repeat case_match; simplify_eq.
    match goal with Hs : sub_balance _ _ _ _ _ _ = Ok _ |- _ =>
      apply sub_balance_inv in Hs as (Hc & Has & _ & b & Hb & _ & Hbal) end.
    cbn in Hc, Has, Hb, Hbal.
    split; [rewrite Hc; by exists n| |].
    + rewrite Has. exists m. split; [done|]. by apply contiguous_update.
    + intros o k. cbn [balances assetstable set_assetstable set_balances]. rewrite Has, lookup_insert.
      case_decide; [by eexists|].
      destruct Hbal as [(_ & _ & ->)|(_ & _ & ->)].
      * intros [x Hx]. apply lookup_delete_Some in Hx as [_ Hx].
        apply (Hclosed o k). by eexists.
      * rewrite lookup_insert. case_decide; [simplify_eq|apply (Hclosed o k)].
  - rewrite transfer_run in Happ. cbv zeta in Happ.
    destruct (from =? to); [discriminate|].
    destruct (has_auth_in _ _); [|discriminate].
    destruct (is_account _ _); [|discriminate].
    destruct (assetstable st !! asset_id) as [ast|] eqn:Ha; [|discriminate].
    repeat case_match; simplify_eq.
    match goal with Hs : sub_balance _ _ _ _ _ _ = Ok _ |- _ =>
      apply sub_balance_inv in Hs as (Hc & Has & _ & b & Hb & _ & Hbal) end.
    split; cbn; [rewrite Hc; by exists n|rewrite Has; by exists m|].
    intros o k. cbn [balances assetstable set_assetstable set_balances]. rewrite Has, lookup_insert.
    case_decide; [simplify_eq; by eexists|].
    destruct Hbal as [(_ & _ & ->)|(_ & _ & ->)].
    + intros [x Hx]. apply lookup_delete_Some in Hx as [_ Hx].
      apply (Hclosed o k). by eexists.
    + rewrite lookup_insert. case_decide; [simplify_eq; by eexists|apply (Hclosed o k)].
  - rewrite log_action_run in Happ. case_match; simplify_eq.
    split; [by exists n|by exists m|done].
  - rewrite log_action_run in Happ. case_match; simplify_eq.
    split; [by exists n|by exists m|done].
  - rewrite log_action_run in Happ. case_match; simplify_eq.
    split; [by exists n|by exists m|done].
Qed.

Lemma ledger_wf_empty : ledger_wf empty_ledger.
Proof.
  split; cbn.
  - exists 0. split; [done|apply contiguous_empty].
  - exists 0. split; [done|apply contiguous_empty].
  - intros o k [b H]. cbn in H. by rewrite lookup_empty in H.
Qed.

Lemma ledger_wf_preserved e a st st' tr :
  ledger_wf st → execute e a st = Ok (st', tr) → ledger_wf st'.
Proof.
  intros Hwf. by apply (execute_at_invariant ledger_wf (λ _, True) apply_keeps_wf).
Qed.

(** The hypotheses made above on the tables hold of every ledger reached
    from the empty one. *)
Lemma reachable_wf st : reachable_by (λ _, True) st → ledger_wf st.
Proof.
  apply (reachable_by_invariant ledger_wf (λ _, True) apply_keeps_wf),
    ledger_wf_empty.
Qed.

(** ** Actions other than mint under the host *)

(** Inline actions that are logs sent with the contract's own permission all
    complete and leave the tables alone. *)
Lemma execute_all_self_logs room e l st :
  Forall (λ pa, pa.1 = _self e ∧ is_log pa.2 = true) l →
  execute_all (execute_at room) e l st = Ok (st, map (λ pa, (pa.2, [])) l).
Proof.
  induction 1 as [|[actor a] l [Hactor Hlog] _ IH]; [done|].
  cbn in Hactor, Hlog. subst actor.
  rewrite execute_all_log by done. by rewrite IH.
Qed.

(** What an action other than [mint] sends: logs with the contract's own
    permission; and only [transfer] notifies, its two parties. *)
Lemma apply_sends_logs a e st st1 out :
  sends_logs_only a = true → apply a e st [] = Ok ((), st1, out) →
  Forall (λ pa, pa.1 = _self e ∧ is_log pa.2 = true) (inlined out) ∧
  notified out = match a with
                 | Transfer from to _ _ _ => [from; to]
                 | _ => []
                 end.
Proof.
  intros Ha. destruct a; try discriminate; cbn [apply].
  - rewrite createcol_run. intros H; cbv zeta in H.
    repeat case_match; simplify_eq. cbn. split; [|done].
    by repeat constructor.
  - rewrite createasset_run. intros H; cbv zeta in H.
    destruct (0 <? max_supply); [|discriminate].
    destruct (bytes data <=? 65535); [|discriminate].
    destruct (colstable st !! collection_id) as [col|] eqn:Hcol; [|discriminate].
    destruct (has_auth_in _ _) eqn:Hauth; [|discriminate].
    destruct (next_primary_key _ <? _); [|discriminate].
    destruct (assetstable st !! _); [discriminate|].
    destruct (0 <? supply).
    + rewrite mint_run in H; cbv zeta in H.
      cbn [set_assetstable assetstable colstable balances] in H.
      rewrite lookup_insert_eq in H.
      cbn [a_collection_id a_supply a_max_supply] in H.
      rewrite Hcol, Hauth, Z.eqb_refl in H.
      repeat case_match; simplify_eq. cbn. split; [|done].
      by repeat constructor.
    + simplify_eq. cbn. split; [|done]. by repeat constructor.
  - rewrite burn_run. intros H. repeat case_match; simplify_eq.
    match goal with Hs : sub_balance _ _ _ _ _ _ = Ok _ |- _ =>
      apply sub_balance_inv in Hs as (_ & _ & -> & _) end.
    cbn. split; [|done]. by repeat constructor.
  - intros H. apply transfer_inv in H as (_ & _ & fb & tb & ->). cbn.
    split; [|done]. by repeat constructor.
  - rewrite log_action_run. intros H. case_match; simplify_eq.
    split; [constructor|done].
  - rewrite log_action_run. intros H. case_match; simplify_eq.
    split; [constructor|done].
  - rewrite log_action_run. intros H. case_match; simplify_eq.
    split; [constructor|done].
Qed.

(** An action other than [mint], under the host, is its body followed by
    its logs. *)
Lemma execute_at_simple room e a st :
  sends_logs_only a = true →
  execute_at (S room) e a st =
  match apply a e st [] with
  | Abort f => Abort f
  | Ok (_, st1, out) =>
      Ok (st1, (a, notified out) :: map (λ pa, (pa.2, [])) (inlined out))
  end.
Proof.
  intros Ha. rewrite execute_at_unfold.
  destruct (apply a e st []) as [[[[] st1] out]|] eqn:Happ; [|done].
  destruct (apply_sends_logs _ _ _ _ _ Ha Happ) as [Hlogs _].
  destruct (inlined out) as [|pa l] eqn:Hin; [done|].
  by rewrite execute_all_self_logs.
Qed.

(** ** Burn *)

Lemma execute_burn e st asset_id amount memo :
  execute e (Burn asset_id amount memo) st =
  match burn asset_id amount memo e st [] with
  | Abort f => Abort f
  | Ok (_, st', out) =>
      Ok (st', (Burn asset_id amount memo, notified out)
               :: map (λ pa, (pa.2, [])) (inlined out))
  end.
Proof. unfold execute, max_inline_action_depth. by rewrite execute_at_simple. Qed.

(** X1.  The preconditions of [burn], in the order the code checks them,
    with the message each violation aborts with.  The quantity is taken from
    the holding of the collection author, so a burn aborts when the author
    holds less than [amount], whatever the supply. *)
Theorem burn_aborts (e : env) (st : ledger) (asset_id amount : Z)
    (memo : string) :
  (256 < bytes memo →
   execute e (Burn asset_id amount memo) st =
     Abort (check_failure "memo has more than 256 bytes")) ∧
  (bytes memo ≤ 256 → amount ≤ 0 →
   execute e (Burn asset_id amount memo) st =
     Abort (check_failure "must retire positive amount")) ∧
  (bytes memo ≤ 256 → 0 < amount → assetstable st !! asset_id = None →
   execute e (Burn asset_id amount memo) st =
     Abort (check_failure "unable to find asset")) ∧
  (∀ ast, bytes memo ≤ 256 → 0 < amount →
     assetstable st !! asset_id = Some ast → a_supply ast < u64 amount →
     execute e (Burn asset_id amount memo) st =
       Abort (check_failure "insufficient amount")) ∧
  (∀ ast col, bytes memo ≤ 256 → 0 < amount →
     assetstable st !! asset_id = Some ast → u64 amount ≤ a_supply ast →
     colstable st !! a_collection_id ast = Some col →
     has_auth_in (authorization e) (c_author col) = false →
     execute e (Burn asset_id amount memo) st =
       Abort (missing_authority (c_author col))) ∧
  (∀ ast col, bytes memo ≤ 256 → 0 < amount →
     assetstable st !! asset_id = Some ast → u64 amount ≤ a_supply ast →
     colstable st !! a_collection_id ast = Some col →
     has_auth_in (authorization e) (c_author col) = true →
     balances st !! (c_author col, asset_id) = None →
     execute e (Burn asset_id amount memo) st =
       Abort (check_failure "no balance object found")) ∧
  (∀ ast col from, bytes memo ≤ 256 → 0 < amount →
     assetstable st !! asset_id = Some ast → u64 amount ≤ a_supply ast →
     colstable st !! a_collection_id ast = Some col →
     has_auth_in (authorization e) (c_author col) = true →
     balances st !! (c_author col, asset_id) = Some from →
     b_balance from < amount →
     execute e (Burn asset_id amount memo) st =
       Abort (check_failure "overdrawn balance")).
Proof.
  rewrite execute_burn, burn_run. split_and!.
  - intros Hm. by rewrite (proj2 (Z.leb_gt _ _) Hm).
  - intros ->%Z.leb_le ->%Z.ltb_ge. done.
  - intros ->%Z.leb_le ->%Z.ltb_lt ->. done.
  - intros ast ->%Z.leb_le ->%Z.ltb_lt -> Hs.
    by rewrite (proj2 (Z.leb_gt _ _) Hs).
  - intros ast col ->%Z.leb_le ->%Z.ltb_lt -> ->%Z.leb_le -> ->. done.
  - intros ast col ->%Z.leb_le ->%Z.ltb_lt -> ->%Z.leb_le -> -> Hb.
    rewrite sub_balance_run. cbn [set_assetstable balances]. by rewrite Hb.
  - intros ast col from ->%Z.leb_le ->%Z.ltb_lt -> ->%Z.leb_le -> -> Hb Hlt.
    rewrite sub_balance_run. cbn [set_assetstable balances]. rewrite Hb.
    by rewrite (proj2 (Z.leb_gt _ _) Hlt).
Qed.

(** X2.  A completed burn was signed by the collection author, took a
    positive [amount] within the supply and within the author's holding,
    lowered the supply and the author's balance by exactly [amount],
    removed the author's row when nothing is left, touched no other row, no
    other asset and no collection, and logged the author's new balance. *)
Theorem burn_effect (e : env) (st st' : ledger) (asset_id amount : Z)
    (memo : string) (tr : trace) :
  execute e (Burn asset_id amount memo) st = Ok (st', tr) →
  is_i64 amount →
  ∃ ast col,
    assetstable st !! asset_id = Some ast ∧
    colstable st !! a_collection_id ast = Some col ∧
    has_auth_in (authorization e) (c_author col) = true ∧
    0 < amount ≤ a_supply ast ∧
    amount ≤ balance_of st (c_author col) asset_id ∧
    colstable st' = colstable st ∧
    assetstable st' =
      <[asset_id := with_supply ast (u64 (a_supply ast - amount))]>
        (assetstable st) ∧
    (a_supply ast ≤ UINT64_MAX →
     supply_of st' asset_id = a_supply ast - amount) ∧
    (balance_of st (c_author col) asset_id ≤ INT64_MAX →
     balance_of st' (c_author col) asset_id =
       balance_of st (c_author col) asset_id - amount) ∧
    (is_Some (balances st' !! (c_author col, asset_id)) ↔
     balance_of st (c_author col) asset_id ≠ amount) ∧
    (∀ key, key ≠ (c_author col, asset_id) →
            balances st' !! key = balances st !! key) ∧
    tr = [(Burn asset_id amount memo, []);
          (Transferlog (c_author col) null_name asset_id amount
             (balance_of st' (c_author col) asset_id) 0 memo, [])].
Proof.
  rewrite execute_burn, burn_run. intros H Hi64.
  destruct (bytes memo <=? 256); [|discriminate].
  destruct (0 <? amount) eqn:Hpos; [|discriminate]. apply Z.ltb_lt in Hpos.
  destruct (assetstable st !! asset_id) as [ast|] eqn:Hast; [|discriminate].
  destruct (u64 amount <=? a_supply ast) eqn:Hsup; [|discriminate].
  apply Z.leb_le in Hsup.
  destruct (colstable st !! a_collection_id ast) as [col|] eqn:Hcol;
    [|discriminate].
  destruct (has_auth_in _ _) eqn:Hauth; [|discriminate].
  destruct (sub_balance _ _ _ _ _ _) as [[[r st1] out1]|] eqn:Hsub;
    [|discriminate].
  cbv beta iota zeta in H.
  apply sub_balance_inv in Hsub as (Hc & Ha & -> & b & Hb & Hle & Hbal).
  cbn [set_assetstable colstable assetstable balances] in Hc, Ha, Hb, Hbal.
  rewrite u64_small in Hsup
    by (unfold is_u64, is_i64, UINT64_MAX, INT64_MAX in *; lia).
  cbn [app inlined notified omap list_omap map snd] in H. simplify_eq.
  exists ast, col. unfold balance_of, supply_of. rewrite Hb, Ha, Hc.
  rewrite lookup_insert_eq. cbn [a_supply with_supply].
  split_and!; try done; try lia.
  - intros Hmax. apply u64_small. unfold is_u64. lia.
  - intros Hcap. destruct Hbal as [(Heq & _ & ->)|(Hne & _ & ->)].
    + rewrite lookup_delete_eq. lia.
    + rewrite lookup_insert_eq. cbn. apply i64_small.
      unfold is_i64, INT64_MAX in *. lia.
  - destruct Hbal as [(Heq & _ & ->)|(Hne & _ & ->)].
    + rewrite lookup_delete_eq. split; [by intros [? ?]|done].
    + rewrite lookup_insert_eq. split; [done|by eexists].
  - intros key Hkey. destruct Hbal as [(_ & _ & ->)|(_ & _ & ->)].
    + by rewrite lookup_delete_ne.
    + by rewrite lookup_insert_ne.
  - destruct Hbal as [(Heq & -> & ->)|(Hne & -> & ->)].
    + by rewrite lookup_delete_eq.
    + by rewrite lookup_insert_eq.
Qed.

Lemma burn_effect_witness :
  ∃ ast col,
    assetstable ledger10 !! 1 = Some ast ∧
    colstable ledger10 !! a_collection_id ast = Some col ∧
    has_auth_in (authorization (host [nftacct])) (c_author col) = true ∧
    0 < 4 ≤ a_supply ast ∧
    4 ≤ balance_of ledger10 (c_author col) 1 ∧
    colstable (outcome (host [nftacct]) (Burn 1 4 "b") ledger10).1
      = colstable ledger10 ∧
    assetstable (outcome (host [nftacct]) (Burn 1 4 "b") ledger10).1 =
      <[1 := with_supply ast (u64 (a_supply ast - 4))]> (assetstable ledger10) ∧
    (a_supply ast ≤ UINT64_MAX →
     supply_of (outcome (host [nftacct]) (Burn 1 4 "b") ledger10).1 1
       = a_supply ast - 4) ∧
    (balance_of ledger10 (c_author col) 1 ≤ INT64_MAX →
     balance_of (outcome (host [nftacct]) (Burn 1 4 "b") ledger10).1
       (c_author col) 1 = balance_of ledger10 (c_author col) 1 - 4) ∧
    (is_Some (balances (outcome (host [nftacct]) (Burn 1 4 "b") ledger10).1
                !! (c_author col, 1)) ↔
     balance_of ledger10 (c_author col) 1 ≠ 4) ∧
    (∀ key, key ≠ (c_author col, 1) →
            balances (outcome (host [nftacct]) (Burn 1 4 "b") ledger10).1 !! key
            = balances ledger10 !! key) ∧
    (outcome (host [nftacct]) (Burn 1 4 "b") ledger10).2 =
      [(Burn 1 4 "b", []);
       (Transferlog (c_author col) null_name 1 4
          (balance_of (outcome (host [nftacct]) (Burn 1 4 "b") ledger10).1
             (c_author col) 1) 0 "b", [])].
Proof.
  apply (burn_effect (host [nftacct]) ledger10
           (outcome (host [nftacct]) (Burn 1 4 "b") ledger10).1 1 4 "b"
           (outcome (host [nftacct]) (Burn 1 4 "b") ledger10).2).
  - vm_compute. reflexivity.
  - by vm_compute.
Defined.

(** ** Creation *)

Lemma execute_simple e a st :
  sends_logs_only a = true →
  execute e a st =
  match apply a e st [] with
  | Abort f => Abort f
  | Ok (_, st1, out) =>
      Ok (st1, (a, notified out) :: map (λ pa, (pa.2, [])) (inlined out))
  end.
Proof. apply execute_at_simple. Qed.

(** X3.  What [createcol] refuses, in the order the code checks: a caller
    other than the contract account, a royalty above 1000, data above 65535
    bytes, an author that is no account, and a table whose keys have reached
    the end of the range. *)
Theorem createcol_aborts (e : env) (st : ledger) (author : name)
    (royalty : Z) (data : string) :
  (has_auth_in (authorization e) (_self e) = false →
   execute e (Createcol author royalty data) st =
     Abort (missing_authority (_self e))) ∧
  (has_auth_in (authorization e) (_self e) = true → 0 ≤ royalty →
   1000 < royalty →
   execute e (Createcol author royalty data) st =
     Abort (check_failure "royalty must be less than 1000")) ∧
  (has_auth_in (authorization e) (_self e) = true → 0 ≤ royalty ≤ 1000 →
   65535 < bytes data →
   execute e (Createcol author royalty data) st =
     Abort (check_failure "data has more than 65535 bytes")) ∧
  (has_auth_in (authorization e) (_self e) = true → 0 ≤ royalty ≤ 1000 →
   bytes data ≤ 65535 → is_account e author = false →
   execute e (Createcol author royalty data) st =
     Abort (check_failure "author account does not exist")) ∧
  (has_auth_in (authorization e) (_self e) = true → 0 ≤ royalty ≤ 1000 →
   bytes data ≤ 65535 → is_account e author = true →
   no_available_primary_key ≤ next_primary_key (colstable st) →
   execute e (Createcol author royalty data) st =
     Abort (check_failure
              "next primary key in table is at autoincrement limit")).
Proof.
  rewrite execute_simple by done. cbn [apply]. rewrite createcol_run.
  split_and!.
  - by intros ->.
  - intros -> H0 H1. rewrite (proj2 (Z.leb_le _ _) H0).
    by rewrite (proj2 (Z.leb_gt _ _) H1).
  - intros -> [H0 H1] Hd. rewrite (proj2 (Z.leb_le _ _) H0).
    rewrite (proj2 (Z.leb_le _ _) H1). by rewrite (proj2 (Z.leb_gt _ _) Hd).
  - intros -> [H0 H1] Hd ->. rewrite (proj2 (Z.leb_le _ _) H0).
    rewrite (proj2 (Z.leb_le _ _) H1). by rewrite (proj2 (Z.leb_le _ _) Hd).
  - intros -> [H0 H1] Hd -> Hk. rewrite (proj2 (Z.leb_le _ _) H0).
    rewrite (proj2 (Z.leb_le _ _) H1). rewrite (proj2 (Z.leb_le _ _) Hd).
    by rewrite (proj2 (Z.ltb_ge _ _) Hk).
Qed.

(** X4.  What [createasset] refuses, in the order the code checks: a cap
    that is not positive, data above 65535 bytes, an unknown collection, and
    a caller other than the author of the collection; and with a positive
    initial supply, a supply that is not positive as a signed amount (2^63
    and above) or exceeds the cap. *)
Theorem createasset_aborts (e : env) (st : ledger)
    (collection_id supply max_supply : Z) (data : string) :
  (max_supply ≤ 0 →
   execute e (Createasset collection_id supply max_supply data) st =
     Abort (check_failure "max-supply must be positive")) ∧
  (0 < max_supply → 65535 < bytes data →
   execute e (Createasset collection_id supply max_supply data) st =
     Abort (check_failure "data has more than 65535 bytes")) ∧
  (0 < max_supply → bytes data ≤ 65535 →
   colstable st !! collection_id = None →
   execute e (Createasset collection_id supply max_supply data) st =
     Abort (check_failure "unable to find collection")) ∧
  (∀ col, 0 < max_supply → bytes data ≤ 65535 →
     colstable st !! collection_id = Some col →
     has_auth_in (authorization e) (c_author col) = false →
     execute e (Createasset collection_id supply max_supply data) st =
       Abort (missing_authority (c_author col))) ∧
  (∀ col, 0 < max_supply → bytes data ≤ 65535 →
     colstable st !! collection_id = Some col →
     has_auth_in (authorization e) (c_author col) = true →
     (next_primary_key (assetstable st) <? no_available_primary_key) = true →
     assetstable st !! allocated (assetstable st) = None →
     0 < supply → i64 supply ≤ 0 →
     execute e (Createasset collection_id supply max_supply data) st =
       Abort (check_failure "must issue positive amount")) ∧
  (∀ col, 0 < max_supply → bytes data ≤ 65535 →
     colstable st !! collection_id = Some col →
     has_auth_in (authorization e) (c_author col) = true →
     (next_primary_key (assetstable st) <? no_available_primary_key) = true →
     assetstable st !! allocated (assetstable st) = None →
     0 < supply → 0 < i64 supply → max_supply < u64 (i64 supply) →
     execute e (Createasset collection_id supply max_supply data) st =
       Abort (check_failure "amount exceeds available supply")).
Proof.
  rewrite execute_simple by done. cbn [apply]. rewrite createasset_run.
  cbv zeta. split_and!.
  - intros H. by rewrite (proj2 (Z.ltb_ge _ _) H).
  - intros ->%Z.ltb_lt H. by rewrite (proj2 (Z.leb_gt _ _) H).
  - intros ->%Z.ltb_lt ->%Z.leb_le ->. done.
  - intros col ->%Z.ltb_lt ->%Z.leb_le -> ->. done.
  - intros col ->%Z.ltb_lt ->%Z.leb_le Hcol Hauth -> -> ->%Z.ltb_lt Hneg.
    rewrite Hcol, Hauth, mint_run.
    cbn [set_assetstable assetstable colstable balances].
    rewrite lookup_insert_eq. cbn [a_collection_id].
    rewrite Hcol, Hauth. by rewrite (proj2 (Z.ltb_ge _ _) Hneg).
  - intros col ->%Z.ltb_lt ->%Z.leb_le Hcol Hauth -> -> ->%Z.ltb_lt Hpos Hcap.
    rewrite Hcol, Hauth, mint_run.
    cbn [set_assetstable assetstable colstable balances].
    rewrite lookup_insert_eq. cbn [a_collection_id a_supply a_max_supply].
    rewrite Hcol, Hauth, (proj2 (Z.ltb_lt _ _) Hpos), Z.add_0_l.
    by rewrite (proj2 (Z.leb_gt _ _) Hcap).
Qed.

(** ** The log actions *)

(** X5.  A log action does nothing but require the authorization of the
    contract account: with it the action completes and leaves every table as
    it was, without it the action aborts, so that no other account can put a
    log of its own among those of the contract. *)
Theorem log_actions_need_self (e : env) (st : ledger) (a : action) :
  is_log a = true →
  execute e a st =
    if has_auth_in (authorization e) (_self e) then Ok (st, [(a, [])])
    else Abort (missing_authority (_self e)).
Proof.
  intros Hlog. rewrite execute_simple by (by destruct a).
  assert (apply a e st [] = log_action e st []) as ->
      by (by destruct a).
  rewrite log_action_run. by destruct (has_auth_in _ _).
Qed.

Lemma log_actions_need_self_witness :
  execute (host [alice]) (Transferlog null_name alice 1 1000 0 1000 "") ledger10 =
    Abort (missing_authority nftacct).
Proof.
  exact (log_actions_need_self (host [alice]) ledger10
           (Transferlog null_name alice 1 1000 0 1000 "") eq_refl).
Defined.

(** ** Authorization *)

(** X6.  The supply of an asset changes only in an action signed by the
    author of its collection, and that action is a mint or a burn of this
    asset. *)
Theorem supply_change_needs_author (e : env) (a : action) (st st' : ledger)
    (tr : trace) (k : Z) (x x' : nft_asset) :
  execute e a st = Ok (st', tr) →
  assetstable st !! k = Some x → assetstable st' !! k = Some x' →
  a_supply x' ≠ a_supply x →
  ∃ col,
    colstable st !! a_collection_id x = Some col ∧
    has_auth_in (authorization e) (c_author col) = true ∧
    ((∃ to amount memo, a = Mint to k amount memo) ∨
     (∃ amount memo, a = Burn k amount memo)).
Proof.
  intros (st1 & out & Happ & _ & Ha)%execute_at_tables Hx Hx' Hne.
  rewrite Ha in Hx'.
  destruct (apply_frame _ _ _ _ _ Happ) as [_ Hast].
  destruct (Hast k x Hx)
    as [H|[(to & amount & memo & -> & H)|(amount & memo & -> & H)]].
  - rewrite H in Hx'. by simplify_eq.
  - cbn [apply] in Happ. rewrite mint_run, Hx in Happ. cbv zeta in Happ.
    destruct (bytes memo <=? 256); [|discriminate].
    destruct (colstable st !! a_collection_id x) as [col|]; [|discriminate].
    destruct (has_auth_in _ _) eqn:Hauth; [|discriminate].
    exists col. split_and!; [done..|]. left. by eexists _, _, _.
  - cbn [apply] in Happ. rewrite burn_run, Hx in Happ.
    destruct (bytes memo <=? 256); [|discriminate].
    destruct (0 <? amount); [|discriminate].
    destruct (u64 amount <=? a_supply x); [|discriminate].
    destruct (colstable st !! a_collection_id x) as [col|]; [|discriminate].
    destruct (has_auth_in _ _) eqn:Hauth; [|discriminate].
    exists col. split_and!; [done..|]. right. by eexists _, _.
Qed.

Lemma supply_change_needs_author_witness :
  ∃ col,
    colstable ledger10 !! 1 = Some col ∧
    has_auth_in (authorization (host [nftacct])) (c_author col) = true ∧
    ((∃ to amount memo, Burn 1 4 "b" = Mint to 1 amount memo) ∨
     (∃ amount memo, Burn 1 4 "b" = Burn 1 amount memo)).
Proof.
  apply (supply_change_needs_author (host [nftacct]) (Burn 1 4 "b") ledger10
           (outcome (host [nftacct]) (Burn 1 4 "b") ledger10).1
           (outcome (host [nftacct]) (Burn 1 4 "b") ledger10).2 1
           {| a_asset_id := 1; a_collection_id := 1; a_supply := 10;
              a_max_supply := 100; a_data := "{}" |}
           {| a_asset_id := 1; a_collection_id := 1; a_supply := 6;
              a_max_supply := 100; a_data := "{}" |}).
  - vm_compute. reflexivity.
  - vm_compute. reflexivity.
  - vm_compute. reflexivity.
  - cbn. lia.
Defined.

(** X26.  Where the supply of an asset changes, the amount is positive; a
    burn lowers the supply by exactly the amount, which the supply covers;
    a mint stores the sum modulo 2^64, which is the supply raised by exactly
    the amount as long as the sum is below 2^64. *)
Theorem supply_step_exact (e : env) (a : action) (st st' : ledger)
    (tr : trace) (k : Z) (x x' : nft_asset) :
  typed a → 0 ≤ a_supply x ≤ UINT64_MAX →
  execute e a st = Ok (st', tr) →
  assetstable st !! k = Some x → assetstable st' !! k = Some x' →
  a_supply x' ≠ a_supply x →
  (∃ to amount memo,
     a = Mint to k amount memo ∧ 0 < amount ∧
     a_supply x' = u64 (a_supply x + amount) ∧
     (a_supply x + amount ≤ UINT64_MAX →
      a_supply x' = a_supply x + amount ∧ a_supply x < a_supply x')) ∨
  (∃ amount memo,
     a = Burn k amount memo ∧ 0 < amount ≤ a_supply x ∧
     a_supply x' = a_supply x - amount ∧ a_supply x' < a_supply x).
Proof.
  intros Htyped Hrange (st1 & out & Happ & _ & Ha)%execute_at_tables Hx Hx' Hne.
  rewrite Ha in Hx'.
  destruct (apply_frame _ _ _ _ _ Happ) as [_ Hast].
  destruct (Hast k x Hx)
    as [H|[(to & amount & memo & -> & H)|(amount & memo & -> & H)]].
  - rewrite H in Hx'. by simplify_eq.
  - rewrite H in Hx'. simplify_eq. cbn [with_supply a_supply] in *.
    cbn [apply] in Happ. rewrite mint_run, Hx in Happ. cbv zeta in Happ.
    destruct (bytes memo <=? 256); [|discriminate].
    destruct (colstable st !! a_collection_id x) as [col|]; [|discriminate].
    destruct (has_auth_in _ _); [|discriminate].
    destruct (0 <? amount) eqn:Hpos; [|discriminate]. apply Z.ltb_lt in Hpos.
    left. exists to, amount, memo. split_and!; [done..|].
    intros Hfit. rewrite u64_small by (unfold is_u64; lia). lia.
  - rewrite H in Hx'. simplify_eq. cbn [with_supply a_supply] in *.
    cbn [apply typed] in Happ, Htyped. rewrite burn_run, Hx in Happ.
    destruct (bytes memo <=? 256); [|discriminate].
    destruct (0 <? amount) eqn:Hpos; [|discriminate]. apply Z.ltb_lt in Hpos.
    destruct (u64 amount <=? a_supply x) eqn:Hle; [|discriminate].
    apply Z.leb_le in Hle.
    rewrite u64_small in Hle
      by (unfold is_u64, is_i64, UINT64_MAX, INT64_MAX in *; lia).
    right. exists amount, memo.
    rewrite u64_small by (unfold is_u64, UINT64_MAX in *; lia).
    split_and!; [done|lia..].
Qed.

Lemma supply_step_exact_witness :
  (∃ to amount memo,
     Burn 1 4 "b" = Mint to 1 amount memo ∧ 0 < amount ∧
     6 = u64 (10 + amount) ∧
     (10 + amount ≤ UINT64_MAX → 6 = 10 + amount ∧ 10 < 6)) ∨
  (∃ amount memo,
     Burn 1 4 "b" = Burn 1 amount memo ∧ 0 < amount ≤ 10 ∧
     6 = 10 - amount ∧ 6 < 10).
Proof.
  apply (supply_step_exact (host [nftacct]) (Burn 1 4 "b") ledger10
           (outcome (host [nftacct]) (Burn 1 4 "b") ledger10).1
           (outcome (host [nftacct]) (Burn 1 4 "b") ledger10).2 1
           {| a_asset_id := 1; a_collection_id := 1; a_supply := 10;
              a_max_supply := 100; a_data := "{}" |}
           {| a_asset_id := 1; a_collection_id := 1; a_supply := 6;
              a_max_supply := 100; a_data := "{}" |}).
  - vm_compute. by split.
  - vm_compute. by split.
  - vm_compute. reflexivity.
  - vm_compute. reflexivity.
  - vm_compute. reflexivity.
  - cbn. lia.
Defined.

(** ** Debits and signatures *)

Lemma balance_of_in st owner k :
  balance_of st owner k = balance_in (balances st) owner k.
Proof. reflexivity. Qed.

Lemma asset_added_ok st id row :
  ledger_ok st → assetstable st !! id = None →
  a_supply row = 0 → 0 < a_max_supply row ≤ INT64_MAX →
  ledger_ok (set_assetstable (<[id := row]> (assetstable st)) st).
Proof.
  intros Hok Hfree Hsup Hmax.
  split; cbn [set_assetstable assetstable balances colstable].
  - intros k a. rewrite lookup_insert. case_decide.
    + intros [= <-]. lia.
    + apply (ok_assets _ Hok).
  - intros o k Hrow. cbn [set_assetstable assetstable balances] in *.
    rewrite lookup_insert. case_decide; [by eexists|].
    by apply (ok_closed _ Hok o k).
  - apply (ok_rows _ Hok).
  - intros k. pose proof (ok_sum _ Hok k) as Hk.
    unfold total_balance, supply_of in *.
    cbn [set_assetstable assetstable balances colstable].
    rewrite lookup_insert.
    case_decide; [|done]. subst k. rewrite Hfree in Hk. lia.
Qed.

(** Within 63 bits the body of [mint] lowers no balance. *)
Lemma mint_body_balances e st to asset_id amount memo out st1 out1 :
  ledger_ok st → is_i64 amount →
  mint to asset_id amount memo e st out = Ok ((), st1, out1) →
  ∀ o k, balance_of st o k ≤ balance_of st1 o k.
Proof.
  intros Hok Hi64. rewrite mint_run. cbv zeta.
  destruct (bytes memo <=? 256); [|discriminate].
  destruct (assetstable st !! asset_id) as [ast|] eqn:Hast; [|discriminate].
  destruct (colstable st !! a_collection_id ast) as [col|]; [|discriminate].
  destruct (has_auth_in _ _); [|discriminate].
  destruct (0 <? amount) eqn:Hpos; [|discriminate].
  destruct (u64 _ <=? _) eqn:Hcap; [|discriminate].
  intros H o k. apply Z.ltb_lt in Hpos. apply Z.leb_le in Hcap.
  pose proof (ok_assets _ Hok _ _ Hast) as [Hsup Hmax].
  rewrite u64_small in Hcap
    by (unfold is_u64, is_i64, UINT64_MAX, INT64_MAX in *; lia).
  pose proof (balance_in_le_cap st to asset_id ast Hok Hast) as Hbal.
  destruct (credit_ok (balances st) to asset_id amount (ok_rows _ Hok) Hpos)
    as (Hrow & _ & _); [lia|].
  assert (balances st1 =
          <[(to, asset_id) := credited (balances st) to asset_id amount]>
            (balances st)) as Hb
      by (by destruct (to =? c_author col); simplify_eq).
  unfold balance_of. rewrite Hb, lookup_insert. case_decide as Hkey; [|done].
  simplify_eq. rewrite Hrow. unfold balance_in. lia.
Qed.

(** Within 63 bits the body of [burn] lowers the balance of the author
    only, who signed, and the body of [transfer] the balance of [from]
    only, who signed. *)
Lemma burn_body_balances e st asset_id amount memo out st1 out1 :
  burn asset_id amount memo e st out = Ok ((), st1, out1) →
  ∀ o k, balance_of st1 o k ≠ balance_of st o k →
         has_auth_in (authorization e) o = true.
Proof.
  rewrite burn_run.
  destruct (bytes memo <=? 256); [|discriminate].
  destruct (0 <? amount); [|discriminate].
  destruct (assetstable st !! asset_id) as [ast|]; [|discriminate].
  destruct (u64 amount <=? a_supply ast); [|discriminate].
  destruct (colstable st !! a_collection_id ast) as [col|]; [|discriminate].
  destruct (has_auth_in _ _) eqn:Hauth; [|discriminate].
  destruct (sub_balance _ _ _ _ _ _) as [[[r st2] out2]|] eqn:Hsub;
    [|discriminate].
  intros H o k Hne. simplify_eq.
  apply sub_balance_inv in Hsub as (_ & _ & _ & b & Hb & _ & Hbal).
  cbn [set_assetstable balances] in Hb, Hbal.
  destruct (decide ((o, k) = (c_author col, asset_id))) as [?|Hkey];
    [by simplify_eq|].
  exfalso. apply Hne. unfold balance_of.
  destruct Hbal as [(_ & _ & ->)|(_ & _ & ->)].
  - by rewrite lookup_delete_ne.
  - by rewrite lookup_insert_ne.
Qed.

Lemma transfer_body_balances e st from to asset_id amount memo out st1 out1 :
  ledger_ok st → is_i64 amount →
  transfer from to asset_id amount memo e st out = Ok ((), st1, out1) →
  ∀ o k, balance_of st1 o k < balance_of st o k →
         has_auth_in (authorization e) o = true.
Proof.
  intros Hok Hi64. rewrite transfer_run.
  destruct (from =? to) eqn:Hft; [discriminate|]. apply Z.eqb_neq in Hft.
  destruct (has_auth_in _ _) eqn:Hauth; [|discriminate].
  destruct (is_account _ _); [|discriminate].
  destruct (assetstable st !! asset_id) as [ast|] eqn:Hast; [|discriminate].
  destruct (0 <? amount) eqn:Hpos; [|discriminate].
  destruct (bytes memo <=? 256); [|discriminate].
  destruct (sub_balance _ _ _ _ _ _) as [[[r st2] out2]|] eqn:Hsub;
    [|discriminate].
  cbv zeta. intros H o k Hlt. simplify_eq. apply Z.ltb_lt in Hpos.
  pose proof (ok_assets _ Hok _ _ Hast) as [Hrange Hmax].
  apply sub_balance_inv in Hsub as (_ & _ & _ & b & Hb & Hle & Hbal).
  destruct (decide ((o, k) = (from, asset_id))) as [?|Hkey];
    [by simplify_eq|].
  exfalso.
  pose proof (two_balances_le_total (balances st) from to asset_id
                (ok_rows _ Hok) Hft) as Htwo.
  pose proof (ok_sum _ Hok asset_id) as Hsum.
  unfold total_balance, supply_of in Hsum. rewrite Hast in Hsum.
  unfold balance_in at 1 in Htwo. rewrite Hb in Htwo.
  assert ((from, asset_id) ≠ (to, asset_id)) as Hkeys by congruence.
  assert (∀ key, key ≠ (from, asset_id) →
                 balances st2 !! key = balances st !! key) as Hsame.
  { intros key Hk. destruct Hbal as [(_ & _ & ->)|(_ & _ & ->)];
      by rewrite ?lookup_delete_ne, ?lookup_insert_ne by done. }
  assert (positive_rows (balances st2)) as Hrows2.
  { destruct Hbal as [(Heq & _ & ->)|(Hne & _ & ->)].
    - by apply positive_rows_delete, ok_rows.
    - pose proof (balance_in_le_cap st from asset_id ast Hok Hast) as Hcap.
      unfold balance_in in Hcap. rewrite Hb in Hcap.
      apply (debit_part_ok _ _ _ b amount); try done; [apply Hok|lia]. }
  destruct (credit_ok (balances st2) to asset_id amount Hrows2 Hpos)
    as (Hrow & _ & _).
  { unfold balance_in in *. rewrite Hsame by done. lia. }
  revert Hlt. unfold balance_of. cbn [set_balances balances].
  rewrite lookup_insert. case_decide as Hto.
  - simplify_eq. rewrite Hrow. unfold balance_in.
    rewrite Hsame by done. lia.
  - rewrite Hsame by done. lia.
Qed.

Lemma apply_debit_signed a e st st1 out :
  ledger_ok st → fits a → apply a e st [] = Ok ((), st1, out) →
  ∀ o k, balance_of st1 o k < balance_of st o k →
         has_auth_in (authorization e) o = true.
Proof.
  intros Hok Hfits Happ o k Hlt. destruct a; cbn [apply fits] in *.
  - rewrite createcol_run in Happ. cbv zeta in Happ.
    repeat case_match; simplify_eq. unfold balance_of in Hlt. cbn in Hlt. lia.
  - rewrite createasset_run in Happ. cbv zeta in Happ.
    destruct Hfits as [_ Hmax].
    destruct (0 <? max_supply) eqn:Hpos; [|discriminate].
    apply Z.ltb_lt in Hpos.
    destruct (bytes data <=? 65535); [|discriminate].
    destruct (colstable st !! collection_id); [|discriminate].
    destruct (has_auth_in _ _); [|discriminate].
    destruct (next_primary_key _ <? _); [|discriminate].
    destruct (assetstable st !! _) eqn:Hfree; [discriminate|].
    destruct (0 <? supply).
    + eapply mint_body_balances with (o := o) (k := k) in Happ;
        [|by apply asset_added_ok|apply i64_range].
      unfold balance_of in *. cbn in Happ. lia.
    + simplify_eq. unfold balance_of in Hlt. cbn in Hlt. lia.
  - pose proof (mint_body_balances _ _ _ _ _ _ _ _ _ Hok Hfits Happ o k). lia.
  - apply (burn_body_balances _ _ _ _ _ _ _ _ Happ o k). lia.
  - by apply (transfer_body_balances _ _ _ _ _ _ _ _ _ _ Hok Hfits Happ o k).
  - rewrite log_action_run in Happ. case_match; simplify_eq. lia.
  - rewrite log_action_run in Happ. case_match; simplify_eq. lia.
  - rewrite log_action_run in Happ. case_match; simplify_eq. lia.
Qed.

(** X7.  While every cap fits 63 bits, no balance goes down in an action
    that its owner has not signed: a debit is a transfer from the owner, a
    burn by the author, or the transfer out of the author's holding that a
    mint to someone else sends. *)
Theorem no_debit_without_signature (e : env) (a : action) (st st' : ledger)
    (tr : trace) (owner : name) (k : Z) :
  ledger_ok st → fits a → execute e a st = Ok (st', tr) →
  balance_of st' owner k < balance_of st owner k →
  has_auth_in (authorization e) owner = true.
Proof.
  intros Hok Hfits Hexec Hlt.
  destruct (sends_logs_only a) eqn:Ha.
  - rewrite execute_simple in Hexec by done.
    destruct (apply a e st []) as [[[[] st1] out]|] eqn:Happ; [|discriminate].
    simplify_eq. by eapply apply_debit_signed.
  - destruct a; try discriminate.
    apply execute_mint_inv in Hexec
      as (ast & col & st1 & out1 & Hast & Hcol & Hbody & Hrest).
    pose proof (mint_body_balances _ _ _ _ _ _ _ _ _ Hok Hfits Hbody owner k)
      as Hstep1.
    cbv zeta in Hrest.
    destruct Hrest as [(_ & -> & _)|(Hto & out2 & fb & tb & Htr & _)]; [lia|].
    assert (balance_of st' owner k < balance_of st1 owner k) as Hstep2 by lia.
    eapply transfer_body_balances in Hstep2;
      [| |exact Hfits|exact Htr]; [|by eapply mint_preserves].
    cbn [with_actor authorization] in Hstep2.
    unfold has_auth_in in Hstep2. cbn in Hstep2.
    rewrite orb_false_r in Hstep2. apply Z.eqb_eq in Hstep2. subst owner.
    rewrite mint_run, Hast, Hcol in Hbody. cbv zeta in Hbody.
    destruct (bytes memo <=? 256); [|discriminate].
    by destruct (has_auth_in _ _).
Qed.

(** The ledgers of the worked examples are reached from the empty one. *)
Lemma replay_reachable (P : action → Prop) l st :
  reachable_by P st → Forall (λ sa, P sa.2) l → reachable_by P (replay l st).1.
Proof.
  intros Hst Hl. revert st Hst.
  induction Hl as [|[auths a] l Ha Hl IH]; intros st Hst; [done|].
  cbn [replay]. cbv zeta. cbn [fst]. apply IH. unfold transact.
  destruct (execute (host auths) a st) as [[st1 tr]|] eqn:Hexec; [|done].
  by eapply reachable_by_step.
Qed.

Lemma ledger10_reachable : reachable_by fits ledger10.
Proof.
  apply replay_reachable; [constructor|].
  repeat constructor; vm_compute; by repeat split.
Qed.

Lemma no_debit_without_signature_witness :
  balance_of (outcome (host [nftacct]) (Transfer nftacct bob 1 4 "")
                ledger10).1 nftacct 1 < balance_of ledger10 nftacct 1 ∧
  has_auth_in (authorization (host [nftacct])) nftacct = true.
Proof.
  split; [vm_compute; reflexivity|].
  apply (no_debit_without_signature (host [nftacct])
           (Transfer nftacct bob 1 4 "") ledger10
           (outcome (host [nftacct]) (Transfer nftacct bob 1 4 "") ledger10).1
           (outcome (host [nftacct]) (Transfer nftacct bob 1 4 "") ledger10).2
           nftacct 1).
  - apply reachable_ok, ledger10_reachable.
  - vm_compute. by split.
  - vm_compute. reflexivity.
  - vm_compute. reflexivity.
Defined.

(** ** Who has to sign *)

(** X8.  An action completes only with the authorization of one account
    that the code names: the contract for [createcol] and the logs, the
    author of the collection for [createasset], [mint] and [burn], the
    sender for [transfer]. *)
Theorem completed_action_signed (e : env) (a : action) (st st' : ledger)
    (tr : trace) :
  execute e a st = Ok (st', tr) →
  ∃ signer,
    required_signer e st a = Some signer ∧
    has_auth_in (authorization e) signer = true.
Proof.
  intros (st1 & out & Happ & _)%execute_at_inv.
  destruct a; cbn [apply required_signer] in *.
  - rewrite createcol_run in Happ.
    destruct (has_auth_in _ _) eqn:Hauth; [|discriminate]. by eexists.
  - rewrite createasset_run in Happ.
    destruct (0 <? max_supply); [|discriminate].
    destruct (bytes data <=? 65535); [|discriminate].
    destruct (colstable st !! collection_id) as [col|]; [|discriminate].
    destruct (has_auth_in _ _) eqn:Hauth; [|discriminate]. by eexists.
  - rewrite mint_run in Happ.
    destruct (bytes memo <=? 256); [|discriminate].
    destruct (assetstable st !! asset_id) as [ast|]; [|discriminate].
    cbn. destruct (colstable st !! a_collection_id ast) as [col|];
      [|discriminate].
    destruct (has_auth_in _ _) eqn:Hauth; [|discriminate]. by eexists.
  - rewrite burn_run in Happ.
    destruct (bytes memo <=? 256); [|discriminate].
    destruct (0 <? amount); [|discriminate].
    destruct (assetstable st !! asset_id) as [ast|]; [|discriminate].
    destruct (u64 amount <=? a_supply ast); [|discriminate].
    cbn. destruct (colstable st !! a_collection_id ast) as [col|];
      [|discriminate].
    destruct (has_auth_in _ _) eqn:Hauth; [|discriminate]. by eexists.
  - rewrite transfer_run in Happ.
    destruct (from =? to); [discriminate|].
    destruct (has_auth_in _ _) eqn:Hauth; [|discriminate]. by eexists.
  - rewrite log_action_run in Happ.
    destruct (has_auth_in _ _) eqn:Hauth; [|discriminate]. by eexists.
  - rewrite log_action_run in Happ.
    destruct (has_auth_in _ _) eqn:Hauth; [|discriminate]. by eexists.
  - rewrite log_action_run in Happ.
    destruct (has_auth_in _ _) eqn:Hauth; [|discriminate]. by eexists.
Qed.

Lemma completed_action_signed_witness :
  ∃ signer,
    required_signer (host [nftacct]) ledger10 (Mint bob 1 5 "m") = Some signer ∧
    has_auth_in (authorization (host [nftacct])) signer = true.
Proof.
  apply (completed_action_signed (host [nftacct]) (Mint bob 1 5 "m") ledger10
           (outcome (host [nftacct]) (Mint bob 1 5 "m") ledger10).1
           (outcome (host [nftacct]) (Mint bob 1 5 "m") ledger10).2).
  vm_compute. reflexivity.
Defined.

(** ** What the stored rows satisfy *)

Lemma credited_keyed (t : gmap (name * Z) nft_balance) to asset_id amount :
  (∀ o k b, t !! (o, k) = Some b → b_asset_id b = k) →
  ∀ o k b,
    <[(to, asset_id) := credited t to asset_id amount]> t !! (o, k) = Some b →
    b_asset_id b = k.
Proof.
  intros Ht o k b. rewrite lookup_insert.
  case_decide as Hkey; [|apply Ht]. simplify_eq. intros [= <-].
  unfold credited. destruct (t !! (o, k)) as [r|] eqn:Hr; [|done].
  by apply (Ht o k r).
Qed.

Lemma mint_keeps_valid to asset_id amount memo e st out st1 out1 :
  rows_valid st → mint to asset_id amount memo e st out = Ok ((), st1, out1) →
  rows_valid st1.
Proof.
  intros [Hcols Hassets Hbals] Happ.
  rewrite mint_run in Happ. cbv zeta in Happ.
  destruct (bytes memo <=? 256); [|discriminate].
  destruct (assetstable st !! asset_id) as [ast|] eqn:Hast; [|discriminate].
  destruct (colstable st !! a_collection_id ast) as [col|]; [|discriminate].
  destruct (has_auth_in _ _); [|discriminate].
  destruct (0 <? amount); [|discriminate].
  destruct (u64 _ <=? _); [|discriminate].
  assert (st1 =
          {| colstable := colstable st;
             assetstable :=
               <[asset_id := with_supply ast (u64 (a_supply ast + amount))]>
                 (assetstable st);
             balances :=
               <[(to, asset_id) := credited (balances st) to asset_id amount]>
                 (balances st) |}) as ->
      by (by destruct (to =? c_author col); simplify_eq).
  split; cbn [colstable assetstable balances];
    [done| |by apply credited_keyed].
  intros k x. rewrite lookup_insert. case_decide; [|apply Hassets].
  intros [= <-]. subst k. by apply (Hassets asset_id ast).
Qed.

Lemma apply_keeps_valid a e st st1 out :
  rows_valid st → True → apply a e st [] = Ok ((), st1, out) →
  rows_valid st1 ∧ Forall (λ pa : name * action, True) (inlined out).
Proof.
  intros [Hcols Hassets Hbals] _ Happ.
  split; [|by apply Forall_true].
  destruct a; cbn [apply] in Happ.
  - rewrite createcol_run in Happ. cbv zeta in Happ.
    destruct (has_auth_in _ _); [|discriminate].
    destruct (0 <=? royalty) eqn:H0; [|discriminate].
    destruct (royalty <=? 1000) eqn:H1; [|discriminate].
    destruct (bytes data <=? 65535) eqn:Hd; [|discriminate].
    destruct (is_account e author); [|discriminate].
    destruct (next_primary_key _ <? _); [|discriminate].
    destruct (colstable st !! _) eqn:Hfree; [discriminate|].
    simplify_eq. apply Z.leb_le in H0, H1, Hd.
    split; cbn [set_colstable colstable assetstable balances]; [| |done].
    + intros k c. rewrite lookup_insert. case_decide; [|apply Hcols].
      intros [= <-]. by cbn.
    + intros k x Hx. destruct (Hassets k x Hx) as (? & [c Hc] & ? & ?).
      split_and!; [done| |done..].
      rewrite lookup_insert_ne; [by eexists|congruence].
  - rewrite createasset_run in Happ. cbv zeta in Happ.
    destruct (0 <? max_supply) eqn:Hpos; [|discriminate].
    destruct (bytes data <=? 65535) eqn:Hd; [|discriminate].
    destruct (colstable st !! collection_id) as [col|] eqn:Hcol;
      [|discriminate].
    destruct (has_auth_in _ _); [|discriminate].
    destruct (next_primary_key _ <? _); [|discriminate].
    destruct (assetstable st !! _) eqn:Hfree; [discriminate|].
    apply Z.ltb_lt in Hpos. apply Z.leb_le in Hd.
    assert (∀ k x,
              <[allocated (assetstable st) :=
                  {| a_asset_id := allocated (assetstable st);
                     a_collection_id := collection_id; a_supply := 0;
                     a_max_supply := max_supply; a_data := data |}]>
                (assetstable st) !! k = Some x →
              a_asset_id x = k ∧ is_Some (colstable st !! a_collection_id x) ∧
              0 < a_max_supply x ∧ bytes (a_data x) ≤ 65535) as Hnew.
    { intros k x. rewrite lookup_insert. case_decide; [|apply Hassets].
      intros [= <-]. cbn. split_and!; [done|by eexists|done..]. }
    destruct (0 <? supply).
    + eapply mint_keeps_valid; [|done].
      split; cbn [set_assetstable colstable assetstable balances]; done.
    + simplify_eq.
      split; cbn [set_assetstable colstable assetstable balances];
        done.
  - by eapply mint_keeps_valid.
  - rewrite burn_run in Happ.
    destruct (bytes memo <=? 256); [|discriminate].
    destruct (0 <? amount); [|discriminate].
    destruct (assetstable st !! asset_id) as [ast|] eqn:Hast; [|discriminate].
    destruct (u64 amount <=? a_supply ast); [|discriminate].
    destruct (colstable st !! a_collection_id ast) as [col|]; [|discriminate].
    destruct (has_auth_in _ _); [|discriminate].
    destruct (sub_balance _ _ _ _ _ _) as [[[r st2] out2]|] eqn:Hsub;
      [|discriminate].
    simplify_eq.
    apply sub_balance_inv in Hsub as (Hc & Ha & _ & b & Hb & _ & Hbal).
    cbn [set_assetstable colstable assetstable balances] in Hc, Ha, Hb, Hbal.
    split; rewrite ?Hc, ?Ha.
    + done.
    + intros k x. rewrite lookup_insert. case_decide; [|apply Hassets].
      intros [= <-]. subst k. by apply (Hassets asset_id ast).
    + intros o k r'. destruct Hbal as [(_ & _ & ->)|(_ & _ & ->)].
      * rewrite lookup_delete. case_decide; [done|apply Hbals].
      * rewrite lookup_insert. case_decide as Hkey; [|apply Hbals].
        simplify_eq. intros [= <-]. cbn. by eapply Hbals.
  - rewrite transfer_run in Happ.
    destruct (from =? to); [discriminate|].
    destruct (has_auth_in _ _); [|discriminate].
    destruct (is_account _ _); [|discriminate].
    destruct (assetstable st !! asset_id); [|discriminate].
    destruct (0 <? amount); [|discriminate].
    destruct (bytes memo <=? 256); [|discriminate].
    destruct (sub_balance _ _ _ _ _ _) as [[[r st2] out2]|] eqn:Hsub;
      [|discriminate].
    cbv zeta in Happ. simplify_eq.
    apply sub_balance_inv in Hsub as (Hc & Ha & _ & b & Hb & _ & Hbal).
    split; cbn [set_balances colstable assetstable balances];
      rewrite ?Hc, ?Ha; [done..|].
    apply credited_keyed. intros o k r'.
    destruct Hbal as [(_ & _ & ->)|(_ & _ & ->)].
    + rewrite lookup_delete. case_decide; [done|apply Hbals].
    + rewrite lookup_insert. case_decide as Hkey; [|apply Hbals].
      simplify_eq. intros [= <-]. cbn. by eapply Hbals.
  - rewrite log_action_run in Happ. by case_match; simplify_eq.
  - rewrite log_action_run in Happ. by case_match; simplify_eq.
  - rewrite log_action_run in Happ. by case_match; simplify_eq.
Qed.

Lemma rows_valid_empty : rows_valid empty_ledger.
Proof. by split. Qed.

Lemma reachable_valid st : reachable_by (λ _, True) st → rows_valid st.
Proof.
  apply (reachable_by_invariant rows_valid (λ _, True) apply_keeps_valid).
  apply rows_valid_empty.
Qed.

Lemma reachable_by_weaken (P Q : action → Prop) st :
  (∀ a, P a → Q a) → reachable_by P st → reachable_by Q st.
Proof.
  intros HPQ. induction 1; [constructor|].
  eapply reachable_by_step; [done|by apply HPQ|done].
Qed.

(** ** Why an action aborts *)

Lemma contiguous_next_free {V} (t : gmap Z V) n :
  contiguous t n → t !! (n + 1) = None.
Proof.
  intros Hc. destruct (t !! (n + 1)) eqn:Hk; [|done].
  assert (is_Some (t !! (n + 1))) as Hs%Hc by (by eexists). lia.
Qed.

Lemma sub_balance_abort owner asset_id amount e st out f :
  sub_balance owner asset_id amount e st out = Abort f →
  f = check_failure "no balance object found" ∨
  f = check_failure "overdrawn balance".
Proof.
  rewrite sub_balance_run.
  destruct (balances st !! (owner, asset_id)); [|intros; simplify_eq; by left].
  destruct (amount <=? b_balance _); [|intros; simplify_eq; by right].
  by destruct (b_balance _ =? amount).
Qed.

Lemma mint_abort to asset_id amount memo e st out f :
  rows_valid st → mint to asset_id amount memo e st out = Abort f →
  (∃ ast col,
     assetstable st !! asset_id = Some ast ∧
     colstable st !! a_collection_id ast = Some col ∧
     f = missing_authority (c_author col)) ∨
  (∃ msg, f = check_failure msg ∧
          msg ∈ ["memo has more than 256 bytes"; "unable to find asset";
                 "must issue positive amount";
                 "amount exceeds available supply"]).
Proof.
  intros Hvalid. rewrite mint_run. cbv zeta. intros H.
  destruct (bytes memo <=? 256); [|refused].
  destruct (assetstable st !! asset_id) as [ast|] eqn:Hast; [|refused].
  destruct (valid_assets _ Hvalid _ _ Hast) as (_ & [col Hcol] & _).
  rewrite Hcol in H.
  destruct (has_auth_in _ _); [|simplify_eq; left; by eexists _, _].
  destruct (0 <? amount); [|refused].
  destruct (u64 _ <=? _); [discriminate|refused].
Qed.

Lemma apply_abort a e st f :
  ledger_wf st → rows_valid st → apply a e st [] = Abort f →
  (∃ n, f = missing_authority n ∧ required_signer e st a = Some n) ∨
  (∃ msg, f = check_failure msg ∧ msg ∈ refusals a).
Proof.
  intros [(n & Hn & Hcols) (m & Hm & Hassets) Hclosed] Hvalid H.
  destruct a; cbn [apply refusals required_signer] in *.
  - rewrite createcol_run in H. cbv zeta in H.
    destruct (has_auth_in _ _); [|simplify_eq; left; by eexists].
    destruct (0 <=? royalty); [|refused].
    destruct (royalty <=? 1000); [|refused].
    destruct (bytes data <=? 65535); [|refused].
    destruct (is_account e author); [|refused].
    destruct (next_primary_key _ <? _) eqn:Hroom; [|refused].
    rewrite (allocated_checked _ n) in H by done.
    by rewrite (contiguous_next_free _ n) in H.
  - rewrite createasset_run in H. cbv zeta in H.
    destruct (0 <? max_supply) eqn:Hpos; [|refused].
    destruct (bytes data <=? 65535) eqn:Hdata; [|refused].
    destruct (colstable st !! collection_id) as [col|] eqn:Hcol; [|refused].
    destruct (has_auth_in _ _) eqn:Hauth; [|simplify_eq; left; by eexists].
    destruct (next_primary_key _ <? _) eqn:Hroom; [|refused].
    rewrite (allocated_checked _ m) in H by done.
    rewrite (contiguous_next_free _ m) in H by done.
    destruct (0 <? supply); [|discriminate].
    rewrite mint_run in H. cbv zeta in H.
    cbn [set_assetstable assetstable colstable balances] in H.
    rewrite lookup_insert_eq in H.
    cbn [a_collection_id a_supply a_max_supply] in H.
    rewrite Hcol, Hauth in H.
    destruct (bytes "create and mint" <=? 256) eqn:Hmemo;
      [|by vm_compute in Hmemo].
    destruct (0 <? i64 supply); [|refused].
    destruct (u64 _ <=? _); [discriminate|refused].
  - apply mint_abort in H; [|done].
    destruct H as [(ast & col & Hast & Hcol & ->)|(msg & -> & Hmsg)].
    + left. eexists. split; [done|]. by rewrite Hast; cbn; rewrite Hcol.
    + right. eexists. split; [done|].
      rewrite !elem_of_cons in Hmsg. rewrite !elem_of_cons. tauto.
  - rewrite burn_run in H.
    destruct (bytes memo <=? 256); [|refused].
    destruct (0 <? amount); [|refused].
    destruct (assetstable st !! asset_id) as [ast|] eqn:Hast; [|refused].
    destruct (u64 amount <=? a_supply ast); [|refused].
    destruct (valid_assets _ Hvalid _ _ Hast) as (_ & [col Hcol] & _).
    rewrite Hcol in H. cbn. rewrite Hcol. cbn.
    destruct (has_auth_in _ _); [|simplify_eq; left; by eexists].
    destruct (sub_balance _ _ _ _ _ _) as [[[? ?] ?]|f'] eqn:Hsub;
      [discriminate|].
    apply sub_balance_abort in Hsub as [->| ->]; refused.
  - rewrite transfer_run in H.
    destruct (from =? to); [refused|].
    destruct (has_auth_in _ _); [|simplify_eq; left; by eexists].
    destruct (is_account _ _); [|refused].
    destruct (assetstable st !! asset_id); [|refused].
    destruct (0 <? amount); [|refused].
    destruct (bytes memo <=? 256); [|refused].
    destruct (sub_balance _ _ _ _ _ _) as [[[? ?] ?]|f'] eqn:Hsub;
      [discriminate|].
    apply sub_balance_abort in Hsub as [->| ->]; refused.
  - rewrite log_action_run in H.
    destruct (has_auth_in _ _); [discriminate|]. simplify_eq. left; by eexists.
  - rewrite log_action_run in H.
    destruct (has_auth_in _ _); [discriminate|]. simplify_eq. left; by eexists.
  - rewrite log_action_run in H.
    destruct (has_auth_in _ _); [discriminate|]. simplify_eq. left; by eexists.
Qed.

(** The transfer that a mint to someone else sends passes every check that
    the mint has made already. *)
Lemma transfer_after_mint_abort e st to asset_id amount memo st1 out1 col ast f :
  assetstable st !! asset_id = Some ast →
  colstable st !! a_collection_id ast = Some col →
  mint to asset_id amount memo e st [] = Ok ((), st1, out1) →
  to ≠ c_author col →
  transfer (c_author col) to asset_id amount memo
    (with_actor e (c_author col)) st1 [] = Abort f →
  ∃ msg, f = check_failure msg ∧
         msg ∈ ["to account does not exist"; "no balance object found";
                "overdrawn balance"].
Proof.
  intros Hast Hcol Hbody Hto. rewrite mint_run, Hast, Hcol in Hbody.
  cbv zeta in Hbody.
  destruct (bytes memo <=? 256) eqn:Hmemo; [|discriminate].
  destruct (has_auth_in _ _); [|discriminate].
  destruct (0 <? amount) eqn:Hpos; [|discriminate].
  destruct (u64 _ <=? _); [|discriminate].
  assert (is_Some (assetstable st1 !! asset_id)) as [x Hx].
  { destruct (to =? c_author col); simplify_eq; cbn;
      rewrite lookup_insert_eq; by eexists. }
  rewrite transfer_run, Hx, Hmemo, Hpos.
  cbn [with_actor authorization is_account].
  rewrite has_auth_in_actor.
  destruct (c_author col =? to) eqn:Heq; [apply Z.eqb_eq in Heq; congruence|].
  destruct (is_account e to); [|intros; simplify_eq; eexists; split; [done|in_list]].
  destruct (sub_balance _ _ _ _ _ _) as [[[? ?] ?]|f'] eqn:Hsub;
    [discriminate|].
  intros. simplify_eq.
  apply sub_balance_abort in Hsub as [->| ->];
    (eexists; split; [done|in_list]).
Qed.

(** X9.  On a ledger reached from the empty one, an action aborts for the
    missing authorization of the account that has to sign it, or on one of
    the checks listed for it: never on a collision of identifiers, never on
    the host's limit on inline actions, and a mint or a burn never because
    the collection of the asset is missing. *)
Theorem abort_reasons (e : env) (a : action) (st : ledger) (f : failure) :
  reachable_by (λ _, True) st → execute e a st = Abort f →
  (∃ n, f = missing_authority n ∧ required_signer e st a = Some n) ∨
  (∃ msg, f = check_failure msg ∧ msg ∈ refusals a).
Proof.
  intros Hreach Hexec.
  pose proof (reachable_wf _ Hreach) as Hwf.
  pose proof (reachable_valid _ Hreach) as Hvalid.
  destruct (sends_logs_only a) eqn:Ha.
  - rewrite execute_simple in Hexec by done.
    destruct (apply a e st []) as [[[[] st1] out]|f'] eqn:Happ; [discriminate|].
    simplify_eq. by apply apply_abort.
  - destruct a; try discriminate.
    unfold execute, max_inline_action_depth in Hexec.
    rewrite execute_at_unfold in Hexec.
    destruct (apply _ e st []) as [[[[] st1] out]|f'] eqn:Happ;
      [|simplify_eq; by apply apply_abort].
    cbn [apply] in Happ. pose proof Happ as Hbody.
    rewrite mint_run in Happ. cbv zeta in Happ.
    destruct (bytes memo <=? 256); [|discriminate].
    destruct (assetstable st !! asset_id) as [ast|] eqn:Hast; [|discriminate].
    destruct (colstable st !! a_collection_id ast) as [col|] eqn:Hcol;
      [|discriminate].
    destruct (has_auth_in _ _); [|discriminate].
    destruct (0 <? amount); [|discriminate].
    destruct (u64 _ <=? _); [|discriminate].
    destruct (to =? c_author col) eqn:Hto.
    + simplify_eq. cbn [app inlined notified omap list_omap] in Hexec.
      by rewrite execute_all_log, execute_all_nil in Hexec.
    + apply Z.eqb_neq in Hto. simplify_eq.
      cbn [app inlined notified omap list_omap] in Hexec.
      rewrite execute_all_log, execute_all_cons in Hexec by done.
      rewrite execute_at_simple in Hexec by done.
      cbn [apply] in Hexec.
      destruct (transfer _ _ _ _ _ _ _ _) as [[[[] st2] out2]|f'] eqn:Htr.
      * by rewrite execute_all_nil in Hexec.
      * simplify_eq.
        destruct (transfer_after_mint_abort _ _ _ _ _ _ _ _ _ _ _
                    Hast Hcol Hbody Hto Htr) as (msg & -> & Hmsg).
        right. eexists. split; [done|]. cbn [refusals].
        rewrite !elem_of_cons in Hmsg. rewrite !elem_of_cons. tauto.
Qed.

Lemma ledger10_reached : reachable_by (λ _, True) ledger10.
Proof. apply replay_reachable; [constructor|by apply Forall_true]. Qed.

Lemma abort_reasons_witness :
  (∃ n, check_failure "overdrawn balance" = missing_authority n ∧
        required_signer (host [nftacct]) ledger10
          (Transfer nftacct bob 1 11 "") = Some n) ∨
  (∃ msg, check_failure "overdrawn balance" = check_failure msg ∧
          msg ∈ refusals (Transfer nftacct bob 1 11 "")).
Proof.
  apply (abort_reasons (host [nftacct]) (Transfer nftacct bob 1 11 "")
           ledger10 (check_failure "overdrawn balance")).
  - apply ledger10_reached.
  - vm_compute. reflexivity.
Defined.

(** X10.  What every ledger reached from the empty one stores: a row is
    under its own identifier, a royalty is at most 1000, a [data] has at
    most 65535 bytes, a cap is positive, and the collection of an asset
    exists. *)
Theorem stored_rows_checked (st : ledger) :
  reachable_by (λ _, True) st →
  (∀ k c, colstable st !! k = Some c →
          c_collection_id c = k ∧ 0 ≤ c_royalty c ≤ 1000 ∧
          bytes (c_data c) ≤ 65535) ∧
  (∀ k x, assetstable st !! k = Some x →
          a_asset_id x = k ∧ is_Some (colstable st !! a_collection_id x) ∧
          0 < a_max_supply x ∧ bytes (a_data x) ≤ 65535) ∧
  (∀ o k b, balances st !! (o, k) = Some b → b_asset_id b = k).
Proof. intros [H1 H2 H3]%reachable_valid. by split_and!. Qed.

Lemma stored_rows_checked_witness :
  (∀ k c, colstable ledger10 !! k = Some c →
          c_collection_id c = k ∧ 0 ≤ c_royalty c ≤ 1000 ∧
          bytes (c_data c) ≤ 65535) ∧
  (∀ k x, assetstable ledger10 !! k = Some x →
          a_asset_id x = k ∧ is_Some (colstable ledger10 !! a_collection_id x) ∧
          0 < a_max_supply x ∧ bytes (a_data x) ≤ 65535) ∧
  (∀ o k b, balances ledger10 !! (o, k) = Some b → b_asset_id b = k).
Proof. exact (stored_rows_checked ledger10 ledger10_reached). Defined.

(** ** Notifications and logs *)

(** X11.  Of the actions a transaction executes, a transfer notifies its
    two parties, in the order [from], [to], and no other action notifies
    anyone. *)
Theorem only_transfers_notify (e : env) (a : action) (st st' : ledger)
    (tr : trace) :
  execute e a st = Ok (st', tr) →
  Forall (λ x, x.2 = match x.1 with
                     | Transfer from to _ _ _ => [from; to]
                     | _ => []
                     end) tr.
Proof.
  intros Hexec. destruct (sends_logs_only a) eqn:Ha.
  - rewrite execute_simple in Hexec by done.
    destruct (apply a e st []) as [[[[] st1] out]|] eqn:Happ; [|discriminate].
    simplify_eq.
    destruct (apply_sends_logs _ _ _ _ _ Ha Happ) as [Hlogs Hnot].
    constructor; [by destruct a|].
    apply Forall_map. eapply Forall_impl; [exact Hlogs|].
    intros [actor x] [_ Hx]. cbn in *. by destruct x.
  - destruct a; try discriminate.
    apply execute_mint_inv in Hexec
      as (ast & col & st1 & out1 & _ & _ & _ & Hrest).
    cbv zeta in Hrest.
    destruct Hrest as [(_ & _ & ->)|(_ & out2 & fb & tb & _ & ->)];
      by repeat constructor.
Qed.

Lemma only_transfers_notify_witness :
  Forall (λ x, x.2 = match x.1 with
                     | Transfer from to _ _ _ => [from; to]
                     | _ => []
                     end)
    (outcome (host [nftacct]) (Mint bob 1 5 "m") ledger10).2.
Proof.
  apply (only_transfers_notify (host [nftacct]) (Mint bob 1 5 "m") ledger10
           (outcome (host [nftacct]) (Mint bob 1 5 "m") ledger10).1).
  vm_compute. reflexivity.
Defined.

(** What a completed body of [transfer] has checked and written. *)
Lemma transfer_body_inv e st from to asset_id amount memo out st1 out1 :
  transfer from to asset_id amount memo e st out = Ok ((), st1, out1) →
  from ≠ to ∧ has_auth_in (authorization e) from = true ∧
  is_account e to = true ∧ is_Some (assetstable st !! asset_id) ∧
  0 < amount ∧ bytes memo ≤ 256 ∧
  colstable st1 = colstable st ∧ assetstable st1 = assetstable st ∧
  (∃ b, balances st !! (from, asset_id) = Some b ∧ amount ≤ b_balance b ∧
        let debited :=
          if b_balance b =? amount then delete (from, asset_id) (balances st)
          else <[(from, asset_id) :=
                   {| b_asset_id := b_asset_id b;
                      b_balance := i64 (b_balance b - amount) |}]>
                 (balances st) in
        balances st1 =
          <[(to, asset_id) := credited debited to asset_id amount]> debited) ∧
  out1 = out ++ [Notify from; Notify to;
                 Inline (_self e)
                   (Transferlog from to asset_id amount
                      (balance_of st1 from asset_id)
                      (balance_of st1 to asset_id) memo)].
Proof.
  rewrite transfer_run.
  destruct (from =? to) eqn:Hft; [discriminate|]. apply Z.eqb_neq in Hft.
  destruct (has_auth_in _ _); [|discriminate].
  destruct (is_account _ _); [|discriminate].
  destruct (assetstable st !! asset_id); [|discriminate].
  destruct (0 <? amount) eqn:Hpos; [|discriminate]. apply Z.ltb_lt in Hpos.
  destruct (bytes memo <=? 256) eqn:Hmemo; [|discriminate].
  apply Z.leb_le in Hmemo.
  destruct (sub_balance _ _ _ _ _ _) as [[[r st2] out2]|] eqn:Hsub;
    [|discriminate].
  cbv zeta. intros H. simplify_eq.
  apply sub_balance_inv in Hsub as (Hc & Ha & -> & b & Hb & Hle & Hbal).
  assert ((from, asset_id) ≠ (to, asset_id)) as Hkeys by congruence.
  split_and!; [done..|by eexists|done|done|done|done| |].
  - exists b. split_and!; [done..|].
    cbn [set_balances balances].
    destruct Hbal as [(Heq & _ & ->)|(Hne & _ & ->)].
    + by rewrite (proj2 (Z.eqb_eq _ _) Heq).
    + by rewrite (proj2 (Z.eqb_neq _ _) Hne).
  - unfold balance_of. cbn [set_balances balances].
    rewrite lookup_insert_eq, lookup_insert_ne by done.
    rewrite <- !app_assoc. cbn [app]. do 5 f_equal.
    destruct Hbal as [(Heq & -> & ->)|(Hne & -> & ->)].
    + by rewrite lookup_delete_eq.
    + by rewrite lookup_insert_eq.
Qed.

(** X12.  A completed transfer is followed by one log, which reports the
    balances that [from] and [to] hold after the transfer. *)
Theorem transfer_log_reports_balances (e : env) (st st' : ledger)
    (from to : name) (asset_id amount : Z) (memo : string) (tr : trace) :
  execute e (Transfer from to asset_id amount memo) st = Ok (st', tr) →
  tr = [(Transfer from to asset_id amount memo, [from; to]);
        (Transferlog from to asset_id amount (balance_of st' from asset_id)
           (balance_of st' to asset_id) memo, [])].
Proof.
  rewrite execute_transfer.
  destruct (transfer _ _ _ _ _ _ _ _) as [[[[] st1] out]|] eqn:Htr;
    [|discriminate].
  intros H. simplify_eq.
  apply transfer_body_inv in Htr as (_ & _ & _ & _ & _ & _ & _ & _ & _ & ->).
  reflexivity.
Qed.

Lemma transfer_log_reports_balances_witness :
  (outcome (host [nftacct]) (Transfer nftacct bob 1 4 "t") ledger10).2 =
  [(Transfer nftacct bob 1 4 "t", [nftacct; bob]);
   (Transferlog nftacct bob 1 4
      (balance_of (outcome (host [nftacct]) (Transfer nftacct bob 1 4 "t")
                     ledger10).1 nftacct 1)
      (balance_of (outcome (host [nftacct]) (Transfer nftacct bob 1 4 "t")
                     ledger10).1 bob 1) "t", [])].
Proof.
  apply (transfer_log_reports_balances (host [nftacct]) ledger10).
  vm_compute. reflexivity.
Defined.

(** ** Operations that undo each other *)

(** Within 63 bits a completed body of [transfer] moves exactly [amount]. *)
Lemma transfer_body_exact e st from to asset_id amount memo out st1 out1 :
  ledger_ok st → is_i64 amount →
  transfer from to asset_id amount memo e st out = Ok ((), st1, out1) →
  ∀ o k, balance_of st1 o k =
         balance_of st o k
         + (if decide ((o, k) = (to, asset_id)) then amount else 0)
         - (if decide ((o, k) = (from, asset_id)) then amount else 0).
Proof.
  intros Hok Hi64 Htr.
  apply transfer_body_inv in Htr
    as (Hft & _ & _ & [ast Hast] & Hpos & _ & _ & _ & (b & Hb & Hle & Hbal) & _).
  cbv zeta in Hbal.
  pose proof (ok_assets _ Hok _ _ Hast) as [Hrange Hmax].
  pose proof (two_balances_le_total (balances st) from to asset_id
                (ok_rows _ Hok) Hft) as Htwo.
  pose proof (ok_sum _ Hok asset_id) as Hsum.
  unfold total_balance, supply_of in Hsum. rewrite Hast in Hsum.
  unfold balance_in at 1 in Htwo. rewrite Hb in Htwo.
  pose proof (ok_rows _ Hok _ _ Hb) as Hbpos.
  pose proof (balance_le_total (balances st) from asset_id (ok_rows _ Hok))
    as Hone.
  unfold balance_in in Hone. rewrite Hb in Hone.
  assert ((from, asset_id) ≠ (to, asset_id)) as Hkeys by congruence.
  set (debited := if b_balance b =? amount
                  then delete (from, asset_id) (balances st)
                  else <[(from, asset_id) :=
                           {| b_asset_id := b_asset_id b;
                              b_balance := i64 (b_balance b - amount) |}]>
                         (balances st)) in *.
  assert (∀ key, key ≠ (from, asset_id) →
                 debited !! key = balances st !! key) as Hsame.
  { intros key Hk. unfold debited. destruct (b_balance b =? amount);
      by rewrite ?lookup_delete_ne, ?lookup_insert_ne by done. }
  assert (balance_in debited from asset_id = b_balance b - amount) as Hfrom.
  { unfold balance_in, debited.
    destruct (b_balance b =? amount) eqn:Heq.
    - apply Z.eqb_eq in Heq. rewrite lookup_delete_eq. lia.
    - rewrite lookup_insert_eq. cbn. apply i64_small.
      unfold is_i64, INT64_MAX in *. lia. }
  assert (b_balance (credited debited to asset_id amount)
          = balance_in (balances st) to asset_id + amount) as Hto.
  { unfold credited, balance_in. rewrite Hsame by done.
    unfold balance_in in Htwo.
    destruct (balances st !! (to, asset_id)) as [r|] eqn:Hr; cbn; [|lia].
    pose proof (ok_rows _ Hok _ _ Hr).
    apply i64_small. unfold is_i64, INT64_MAX in *. lia. }
  intros o k. unfold balance_of. rewrite Hbal, lookup_insert.
  destruct (decide ((to, asset_id) = (o, k))) as [Hk|Hk].
  - simplify_eq. rewrite decide_True, decide_False by done.
    rewrite Hto. unfold balance_in. lia.
  - rewrite decide_False by done.
    destruct (decide ((o, k) = (from, asset_id))) as [Hk'|Hk'].
    + simplify_eq. fold (balance_in debited from asset_id).
      rewrite Hfrom, Hb. lia.
    + rewrite Hsame by done. lia.
Qed.

Lemma transfer_completes e st from to asset_id amount memo b :
  from ≠ to → has_auth_in (authorization e) from = true →
  is_account e to = true → is_Some (assetstable st !! asset_id) →
  0 < amount → bytes memo ≤ 256 →
  balances st !! (from, asset_id) = Some b → amount ≤ b_balance b →
  ∃ st1 out1, transfer from to asset_id amount memo e st [] = Ok ((), st1, out1).
Proof.
  intros Hft Hauth Hacct [ast Hast] Hpos Hmemo Hb Hle.
  rewrite transfer_run, sub_balance_run, Hauth, Hacct, Hast, Hb.
  rewrite (proj2 (Z.eqb_neq _ _) Hft), (proj2 (Z.ltb_lt _ _) Hpos),
    (proj2 (Z.leb_le _ _) Hmemo), (proj2 (Z.leb_le _ _) Hle).
  destruct (b_balance b =? amount); by eexists _, _.
Qed.

(** X13.  Within 63 bits the recipient of a completed transfer can send the
    quantity back, and then every balance is what it was. *)
Theorem transfer_round_trip (e1 e2 : env) (st st1 : ledger) (tr1 : trace)
    (from to : name) (asset_id amount : Z) (memo1 memo2 : string) :
  ledger_ok st → is_i64 amount →
  execute e1 (Transfer from to asset_id amount memo1) st = Ok (st1, tr1) →
  has_auth_in (authorization e2) to = true → is_account e2 from = true →
  bytes memo2 ≤ 256 →
  ∃ st2 tr2,
    execute e2 (Transfer to from asset_id amount memo2) st1 = Ok (st2, tr2) ∧
    colstable st2 = colstable st ∧ assetstable st2 = assetstable st ∧
    ∀ o k, balance_of st2 o k = balance_of st o k.
Proof.
  intros Hok Hi64 Hexec Hauth Hacct Hmemo.
  rewrite execute_transfer in Hexec.
  destruct (transfer _ _ _ _ _ e1 _ _) as [[[[] st1'] out1]|] eqn:Htr1;
    [|discriminate].
  simplify_eq.
  pose proof (transfer_body_exact _ _ _ _ _ _ _ _ _ _ Hok Hi64 Htr1) as Hbal1.
  pose proof (transfer_preserves _ _ _ _ _ _ _ _ _ _ Hok Hi64 Htr1) as Hok1.
  apply transfer_body_inv in Htr1
    as (Hft & _ & _ & Hast & Hpos & _ & Hc1 & Ha1 & _ & _).
  assert (0 ≤ balance_of st to asset_id) as Hto0.
  { unfold balance_of.
    destruct (balances st !! (to, asset_id)) as [r|] eqn:Hr; [|done].
    pose proof (ok_rows _ Hok _ _ Hr). lia. }
  assert (∃ b, balances st1 !! (to, asset_id) = Some b ∧ amount ≤ b_balance b)
    as (b & Hb & Hle).
  { pose proof (Hbal1 to asset_id) as Hto.
    rewrite decide_True, decide_False in Hto by congruence.
    unfold balance_of at 1 in Hto.
    destruct (balances st1 !! (to, asset_id)) as [b|]; [|lia].
    exists b. split; [done|]. lia. }
  destruct (transfer_completes e2 st1 to from asset_id amount memo2 b)
    as (st2 & out2 & Htr2); try done; [by rewrite Ha1|].
  pose proof (transfer_body_exact _ _ _ _ _ _ _ _ _ _ Hok1 Hi64 Htr2) as Hbal2.
  exists st2. eexists. rewrite execute_transfer, Htr2.
  apply transfer_body_inv in Htr2 as (_ & _ & _ & _ & _ & _ & Hc2 & Ha2 & _).
  split_and!; [done|congruence|congruence|].
  intros o k. rewrite Hbal2, Hbal1.
  repeat case_decide; simplify_eq; lia.
Qed.

Lemma transfer_round_trip_witness :
  ∃ st2 tr2,
    execute (host [bob]) (Transfer bob nftacct 1 4 "back")
      (outcome (host [nftacct]) (Transfer nftacct bob 1 4 "t") ledger10).1
      = Ok (st2, tr2) ∧
    colstable st2 = colstable ledger10 ∧
    assetstable st2 = assetstable ledger10 ∧
    ∀ o k, balance_of st2 o k = balance_of ledger10 o k.
Proof.
  apply (transfer_round_trip (host [nftacct]) (host [bob]) ledger10
           (outcome (host [nftacct]) (Transfer nftacct bob 1 4 "t") ledger10).1
           (outcome (host [nftacct]) (Transfer nftacct bob 1 4 "t") ledger10).2
           nftacct bob 1 4 "t" "back").
  - apply reachable_ok, ledger10_reachable.
  - vm_compute. by split.
  - vm_compute. reflexivity.
  - vm_compute. reflexivity.
  - vm_compute. reflexivity.
  - vm_compute. discriminate.
Defined.

(** X14.  Within 63 bits the author can burn what a mint to the author has
    just issued, and then the asset and every balance are what they
    were. *)
Theorem mint_burn_round_trip (e : env) (st st1 : ledger) (tr1 : trace)
    (ast : nft_asset) (col : nft_collection) (asset_id amount : Z)
    (memo1 memo2 : string) :
  ledger_ok st → is_i64 amount →
  assetstable st !! asset_id = Some ast →
  colstable st !! a_collection_id ast = Some col →
  execute e (Mint (c_author col) asset_id amount memo1) st = Ok (st1, tr1) →
  bytes memo2 ≤ 256 →
  supply_of st1 asset_id = a_supply ast + amount ∧
  balance_of st1 (c_author col) asset_id =
    balance_of st (c_author col) asset_id + amount ∧
  ∃ st2 tr2,
    execute e (Burn asset_id amount memo2) st1 = Ok (st2, tr2) ∧
    colstable st2 = colstable st ∧ assetstable st2 = assetstable st ∧
    ∀ o k, balance_of st2 o k = balance_of st o k.
Proof.
  intros Hok Hi64 Hast Hcol Hexec Hmemo2.
  apply execute_mint_inv in Hexec
    as (ast' & col' & st1' & out1 & Hast' & Hcol' & Hbody & Hrest).
  simplify_eq. cbv zeta in Hrest.
  destruct Hrest as [(_ & -> & _)|(Hne & _)]; [|done].
  rewrite mint_run, Hast, Hcol in Hbody. cbv zeta in Hbody.
  destruct (bytes memo1 <=? 256); [|discriminate].
  destruct (has_auth_in _ _) eqn:Hauth; [|discriminate].
  destruct (0 <? amount) eqn:Hpos; [|discriminate].
  destruct (u64 _ <=? _) eqn:Hcap; [|discriminate].
  apply Z.ltb_lt in Hpos. apply Z.leb_le in Hcap.
  rewrite Z.eqb_refl in Hbody. simplify_eq.
  pose proof (ok_assets _ Hok _ _ Hast) as [Hsup Hmax].
  rewrite u64_small in Hcap
    by (unfold is_u64, is_i64, UINT64_MAX, INT64_MAX in *; lia).
  rewrite (u64_small (a_supply ast + amount))
    by (unfold is_u64, is_i64, UINT64_MAX, INT64_MAX in *; lia).
  pose proof (balance_in_le_cap st (c_author col) asset_id ast Hok Hast) as Hle.
  destruct (credit_ok (balances st) (c_author col) asset_id amount
              (ok_rows _ Hok) Hpos) as (Hrow & _ & _); [lia|].
  assert (0 ≤ balance_in (balances st) (c_author col) asset_id) as Hnonneg.
  { unfold balance_in.
    destruct (balances st !! (c_author col, asset_id)) as [r|] eqn:Hr; [|done].
    pose proof (ok_rows _ Hok _ _ Hr). lia. }
  split_and!.
  - unfold supply_of. cbn. by rewrite lookup_insert_eq.
  - unfold balance_of. cbn. by rewrite lookup_insert_eq, Hrow.
  - rewrite execute_burn, burn_run.
    cbn [colstable assetstable balances set_assetstable].
    rewrite lookup_insert_eq.
    change (a_supply (with_supply ast (a_supply ast + amount)))
      with (a_supply ast + amount).
    change (a_collection_id (with_supply ast (a_supply ast + amount)))
      with (a_collection_id ast).
    rewrite Hcol, Hauth.
    rewrite (proj2 (Z.leb_le _ _) Hmemo2), (proj2 (Z.ltb_lt _ _) Hpos).
    rewrite (u64_small amount)
      by (unfold is_u64, is_i64, UINT64_MAX, INT64_MAX in *; lia).
    rewrite (proj2 (Z.leb_le amount (a_supply ast + amount))) by lia.
    rewrite sub_balance_run.
    cbn [colstable assetstable balances set_assetstable].
    rewrite lookup_insert_eq, Hrow.
    rewrite (proj2 (Z.leb_le amount
                      (balance_in (balances st) (c_author col) asset_id
                       + amount))) by lia.
    assert (<[asset_id :=
                with_supply (with_supply ast (a_supply ast + amount))
                  (u64 (a_supply ast + amount - amount))]>
              (<[asset_id := with_supply ast (a_supply ast + amount)]>
                 (assetstable st)) = assetstable st) as Hback.
    { rewrite insert_insert_eq. apply insert_id. rewrite Hast. f_equal.
      replace (a_supply ast + amount - amount) with (a_supply ast) by lia.
      rewrite u64_small
        by (unfold is_u64, is_i64, UINT64_MAX, INT64_MAX in *; lia).
      by destruct ast. }
    destruct (balance_in (balances st) (c_author col) asset_id + amount
              =? amount) eqn:Hall.
    + apply Z.eqb_eq in Hall. eexists _, _. split; [done|].
      cbn [colstable assetstable balances set_balances set_assetstable].
      split_and!; [done|exact Hback|].
      intros o k. unfold balance_of. cbn [balances set_balances set_assetstable].
      rewrite lookup_delete. case_decide as Hkey.
      * simplify_eq. unfold balance_in in Hall. lia.
      * by rewrite lookup_insert_ne.
    + apply Z.eqb_neq in Hall. eexists _, _. split; [done|].
      cbn [colstable assetstable balances set_balances set_assetstable].
      split_and!; [done|exact Hback|].
      intros o k. unfold balance_of. cbn [balances set_balances set_assetstable].
      rewrite insert_insert_eq, lookup_insert. case_decide as Hkey.
      * simplify_eq. cbn. unfold balance_in in *.
        rewrite i64_small by (unfold is_i64, INT64_MAX in *; lia). lia.
      * done.
Qed.

Lemma mint_burn_round_trip_witness :
  supply_of (outcome (host [nftacct]) (Mint nftacct 1 5 "m") ledger10).1 1
    = 10 + 5 ∧
  balance_of (outcome (host [nftacct]) (Mint nftacct 1 5 "m") ledger10).1
    nftacct 1 = balance_of ledger10 nftacct 1 + 5 ∧
  ∃ st2 tr2,
    execute (host [nftacct]) (Burn 1 5 "b")
      (outcome (host [nftacct]) (Mint nftacct 1 5 "m") ledger10).1
      = Ok (st2, tr2) ∧
    colstable st2 = colstable ledger10 ∧
    assetstable st2 = assetstable ledger10 ∧
    ∀ o k, balance_of st2 o k = balance_of ledger10 o k.
Proof.
  apply (mint_burn_round_trip (host [nftacct]) ledger10
           (outcome (host [nftacct]) (Mint nftacct 1 5 "m") ledger10).1
           (outcome (host [nftacct]) (Mint nftacct 1 5 "m") ledger10).2
           {| a_asset_id := 1; a_collection_id := 1; a_supply := 10;
              a_max_supply := 100; a_data := "{}" |}
           {| c_collection_id := 1; c_author := nftacct; c_royalty := 500;
              c_data := "{}" |}
           1 5 "m" "b").
  - apply reachable_ok, ledger10_reachable.
  - vm_compute. by split.
  - vm_compute. reflexivity.
  - vm_compute. reflexivity.
  - vm_compute. reflexivity.
  - vm_compute. discriminate.
Defined.

(** ** The checks of mint *)

(** A mint to someone else whose body completes is the body, its log and
    the transfer from the author. *)
Lemma execute_mint_other e st to asset_id amount memo ast col :
  assetstable st !! asset_id = Some ast →
  colstable st !! a_collection_id ast = Some col →
  has_auth_in (authorization e) (c_author col) = true →
  bytes memo ≤ 256 → 0 < amount →
  u64 (a_supply ast + amount) ≤ a_max_supply ast →
  to ≠ c_author col →
  let row := credited (balances st) to asset_id amount in
  let st1 :=
    {| colstable := colstable st;
       assetstable :=
         <[asset_id := with_supply ast (u64 (a_supply ast + amount))]>
           (assetstable st);
       balances := <[(to, asset_id) := row]> (balances st) |} in
  execute e (Mint to asset_id amount memo) st =
  match transfer (c_author col) to asset_id amount memo
          (with_actor e (c_author col)) st1 [] with
  | Abort f => Abort f
  | Ok (_, st2, out2) =>
      Ok (st2,
          (Mint to asset_id amount memo, [])
          :: (Transferlog null_name (c_author col) asset_id amount 0
                (b_balance row) memo, [])
          :: (Transfer (c_author col) to asset_id amount memo,
              notified out2)
          :: map (λ pa, (pa.2, [])) (inlined out2))
  end.
Proof.
  intros Hast Hcol Hauth Hmemo Hpos Hcap Hto row st1.
  unfold execute, max_inline_action_depth. rewrite execute_at_unfold.
  cbn [apply]. rewrite mint_run, Hast, Hcol, Hauth. cbv zeta.
  rewrite (proj2 (Z.leb_le _ _) Hmemo), (proj2 (Z.ltb_lt _ _) Hpos),
    (proj2 (Z.leb_le _ _) Hcap), (proj2 (Z.eqb_neq _ _) Hto).
  cbn [app inlined notified omap list_omap].
  rewrite execute_all_log, execute_all_cons by done.
  rewrite execute_at_simple by done. cbn [apply]. fold row. fold st1.
  destruct (transfer _ _ _ _ _ _ _ _) as [[[[] st2] out2]|]; [|done].
  rewrite execute_all_nil. by rewrite app_nil_r.
Qed.

(** X15.  What [mint] refuses, in the order the code checks, with the
    message of each refusal; and, when [to] is not the author, what the
    transfer from the author that follows refuses: a [to] that is no
    account, and an author who does not hold [amount] already. *)
Theorem mint_aborts (e : env) (st : ledger) (to : name) (asset_id amount : Z)
    (memo : string) :
  (256 < bytes memo →
   execute e (Mint to asset_id amount memo) st =
     Abort (check_failure "memo has more than 256 bytes")) ∧
  (bytes memo ≤ 256 → assetstable st !! asset_id = None →
   execute e (Mint to asset_id amount memo) st =
     Abort (check_failure "unable to find asset")) ∧
  (∀ ast, bytes memo ≤ 256 → assetstable st !! asset_id = Some ast →
     colstable st !! a_collection_id ast = None →
     execute e (Mint to asset_id amount memo) st =
       Abort (check_failure "unable to find collection")) ∧
  (∀ ast col, bytes memo ≤ 256 → assetstable st !! asset_id = Some ast →
     colstable st !! a_collection_id ast = Some col →
     has_auth_in (authorization e) (c_author col) = false →
     execute e (Mint to asset_id amount memo) st =
       Abort (missing_authority (c_author col))) ∧
  (∀ ast col, bytes memo ≤ 256 → assetstable st !! asset_id = Some ast →
     colstable st !! a_collection_id ast = Some col →
     has_auth_in (authorization e) (c_author col) = true → amount ≤ 0 →
     execute e (Mint to asset_id amount memo) st =
       Abort (check_failure "must issue positive amount")) ∧
  (∀ ast col, bytes memo ≤ 256 → assetstable st !! asset_id = Some ast →
     colstable st !! a_collection_id ast = Some col →
     has_auth_in (authorization e) (c_author col) = true → 0 < amount →
     a_max_supply ast < u64 (a_supply ast + amount) →
     execute e (Mint to asset_id amount memo) st =
       Abort (check_failure "amount exceeds available supply")) ∧
  (∀ ast col, bytes memo ≤ 256 → assetstable st !! asset_id = Some ast →
     colstable st !! a_collection_id ast = Some col →
     has_auth_in (authorization e) (c_author col) = true → 0 < amount →
     u64 (a_supply ast + amount) ≤ a_max_supply ast →
     to ≠ c_author col → is_account e to = false →
     execute e (Mint to asset_id amount memo) st =
       Abort (check_failure "to account does not exist")) ∧
  (∀ ast col, bytes memo ≤ 256 → assetstable st !! asset_id = Some ast →
     colstable st !! a_collection_id ast = Some col →
     has_auth_in (authorization e) (c_author col) = true → 0 < amount →
     u64 (a_supply ast + amount) ≤ a_max_supply ast →
     to ≠ c_author col → is_account e to = true →
     balances st !! (c_author col, asset_id) = None →
     execute e (Mint to asset_id amount memo) st =
       Abort (check_failure "no balance object found")) ∧
  (∀ ast col held, bytes memo ≤ 256 → assetstable st !! asset_id = Some ast →
     colstable st !! a_collection_id ast = Some col →
     has_auth_in (authorization e) (c_author col) = true → 0 < amount →
     u64 (a_supply ast + amount) ≤ a_max_supply ast →
     to ≠ c_author col → is_account e to = true →
     balances st !! (c_author col, asset_id) = Some held →
     b_balance held < amount →
     execute e (Mint to asset_id amount memo) st =
       Abort (check_failure "overdrawn balance")).
Proof.
  assert (∀ ast col, bytes memo ≤ 256 → assetstable st !! asset_id = Some ast →
            colstable st !! a_collection_id ast = Some col →
            has_auth_in (authorization e) (c_author col) = true → 0 < amount →
            u64 (a_supply ast + amount) ≤ a_max_supply ast →
            to ≠ c_author col →
            execute e (Mint to asset_id amount memo) st =
            match
              (if is_account e to then
                 match balances st !! (c_author col, asset_id) with
                 | None => Abort (check_failure "no balance object found")
                 | Some held =>
                     if amount <=? b_balance held then Ok ()
                     else Abort (check_failure "overdrawn balance")
                 end
               else Abort (check_failure "to account does not exist"))
            with
            | Abort f => Abort f
            | Ok _ => execute e (Mint to asset_id amount memo) st
            end) as Hother.
  { intros ast col Hmemo Hast Hcol Hauth Hpos Hcap Hto.
    destruct (is_account e to) eqn:Hacct;
      [destruct (balances st !! (c_author col, asset_id)) as [held|] eqn:Hheld;
       [destruct (amount <=? b_balance held) eqn:Hle; [done|]|]|];
      rewrite (execute_mint_other e st to asset_id amount memo ast col)
        by done; cbv zeta;
      rewrite transfer_run; cbn [with_actor authorization is_account];
      rewrite has_auth_in_actor, Hacct;
      rewrite (proj2 (Z.eqb_neq (c_author col) to)) by congruence; try done;
      cbn [assetstable]; rewrite lookup_insert_eq;
      rewrite (proj2 (Z.ltb_lt _ _) Hpos), (proj2 (Z.leb_le _ _) Hmemo);
      rewrite sub_balance_run; cbn [balances];
      rewrite lookup_insert_ne, Hheld by congruence; [|done].
    by rewrite Hle. }
  split_and!.
  - intros Hm. unfold execute, max_inline_action_depth.
    rewrite execute_at_unfold. cbn [apply]. rewrite mint_run.
    by rewrite (proj2 (Z.leb_gt _ _) Hm).
  - intros Hm Hast. unfold execute, max_inline_action_depth.
    rewrite execute_at_unfold. cbn [apply]. rewrite mint_run, Hast.
    by rewrite (proj2 (Z.leb_le _ _) Hm).
  - intros ast Hm Hast Hcol. unfold execute, max_inline_action_depth.
    rewrite execute_at_unfold. cbn [apply]. rewrite mint_run, Hast, Hcol.
    by rewrite (proj2 (Z.leb_le _ _) Hm).
  - intros ast col Hm Hast Hcol Hauth. unfold execute, max_inline_action_depth.
    rewrite execute_at_unfold. cbn [apply].
    rewrite mint_run, Hast, Hcol, Hauth.
    by rewrite (proj2 (Z.leb_le _ _) Hm).
  - intros ast col Hm Hast Hcol Hauth Hamt.
    unfold execute, max_inline_action_depth.
    rewrite execute_at_unfold. cbn [apply].
    rewrite mint_run, Hast, Hcol, Hauth.
    by rewrite (proj2 (Z.leb_le _ _) Hm), (proj2 (Z.ltb_ge _ _) Hamt).
  - intros ast col Hm Hast Hcol Hauth Hamt Hcap.
    unfold execute, max_inline_action_depth.
    rewrite execute_at_unfold. cbn [apply].
    rewrite mint_run, Hast, Hcol, Hauth. cbv zeta.
    by rewrite (proj2 (Z.leb_le _ _) Hm), (proj2 (Z.ltb_lt _ _) Hamt),
      (proj2 (Z.leb_gt _ _) Hcap).
  - intros ast col Hm Hast Hcol Hauth Hamt Hcap Hto Hacct.
    rewrite (Hother ast col) by done. by rewrite Hacct.
  - intros ast col Hm Hast Hcol Hauth Hamt Hcap Hto Hacct Hheld.
    rewrite (Hother ast col) by done. by rewrite Hacct, Hheld.
  - intros ast col held Hm Hast Hcol Hauth Hamt Hcap Hto Hacct Hheld Hlt.
    rewrite (Hother ast col) by done. rewrite Hacct, Hheld.
    by rewrite (proj2 (Z.leb_gt _ _) Hlt).
Qed.

(** ** Creation with an initial supply *)

(** X16.  An asset created with an initial supply that fits 63 bits and the
    cap: it gets the next identifier, the author holds the whole supply in a
    new row, and the creation, its log and the log of the mint are what the
    transaction executes. *)
Theorem createasset_with_supply (e : env) (st : ledger) (m : Z)
    (collection_id supply max_supply : Z) (data : string)
    (col : nft_collection) :
  contiguous (assetstable st) m → 0 ≤ m → m + 1 < no_available_primary_key →
  balances_closed st →
  0 < max_supply ≤ UINT64_MAX → bytes data ≤ 65535 →
  colstable st !! collection_id = Some col →
  has_auth_in (authorization e) (c_author col) = true →
  0 < supply ≤ INT64_MAX → supply ≤ max_supply →
  execute e (Createasset collection_id supply max_supply data) st =
  Ok ({| colstable := colstable st;
         assetstable :=
           <[m + 1 := {| a_asset_id := m + 1; a_collection_id := collection_id;
                         a_supply := supply; a_max_supply := max_supply;
                         a_data := data |}]> (assetstable st);
         balances :=
           <[(c_author col, m + 1) :=
               {| b_asset_id := m + 1; b_balance := supply |}]> (balances st) |},
      [(Createasset collection_id supply max_supply data, []);
       (Assetlog (m + 1) collection_id max_supply data, []);
       (Transferlog null_name (c_author col) (m + 1) supply 0 supply
          "create and mint", [])]).
Proof.
  intros Hc Hm Hlim Hclosed Hmax Hdata Hcol Hauth Hsup Hcap.
  destruct (allocated_contiguous _ _ Hc Hm Hlim) as [Hroom Halloc].
  destruct (contiguous_unused _ _ Hc Hm) as (_ & Hfree & _).
  assert (balances st !! (c_author col, m + 1) = None) as Hrow.
  { destruct (balances st !! (c_author col, m + 1)) eqn:Hb; [|done].
    destruct (Hclosed (c_author col) (m + 1)) as [x Hx]; [by eexists|].
    congruence. }
  rewrite (createasset_mint_completes_when e st collection_id supply max_supply
             data col); try done; try lia; [|by rewrite Halloc].
  cbv zeta. rewrite Halloc. unfold credited. by rewrite Hrow.
Qed.

Lemma ledger_col_reached : reachable_by (λ _, True) ledger_col.
Proof. apply replay_reachable; [constructor|by apply Forall_true]. Qed.

Lemma createasset_with_supply_witness :
  execute (host [nftacct]) (Createasset 1 7 50 "{}") ledger_col =
  Ok ({| colstable := colstable ledger_col;
         assetstable :=
           <[0 + 1 := {| a_asset_id := 0 + 1; a_collection_id := 1;
                         a_supply := 7; a_max_supply := 50;
                         a_data := "{}" |}]> (assetstable ledger_col);
         balances :=
           <[(nftacct, 0 + 1) :=
               {| b_asset_id := 0 + 1; b_balance := 7 |}]>
             (balances ledger_col) |},
      [(Createasset 1 7 50 "{}", []);
       (Assetlog (0 + 1) 1 50 "{}", []);
       (Transferlog null_name nftacct (0 + 1) 7 0 7 "create and mint", [])]).
Proof.
  apply (createasset_with_supply (host [nftacct]) ledger_col 0 1 7 50 "{}"
           {| c_collection_id := 1; c_author := nftacct; c_royalty := 500;
              c_data := "{}" |}).
  - apply (contiguous_empty (V := nft_asset)).
  - lia.
  - vm_compute. reflexivity.
  - apply (wf_closed _ (reachable_wf _ ledger_col_reached)).
  - vm_compute. split; [reflexivity|discriminate].
  - vm_compute. discriminate.
  - vm_compute. reflexivity.
  - vm_compute. reflexivity.
  - vm_compute. split; [reflexivity|discriminate].
  - lia.
Defined.

(** ** Witnesses on the worked ledger *)

Lemma transfer_effect_witness :
  let st' := (outcome (host [nftacct]) (Transfer nftacct bob 1 4 "t")
                ledger10).1 in
  balance_of st' nftacct 1 = balance_of ledger10 nftacct 1 - 4 ∧
  balance_of st' bob 1 = i64 (balance_of ledger10 bob 1 + 4) ∧
  (0 ≤ balance_of ledger10 bob 1 →
   balance_of ledger10 bob 1 + 4 ≤ INT64_MAX →
   balance_of st' bob 1 = balance_of ledger10 bob 1 + 4) ∧
  (∀ o k, (o, k) ≠ (nftacct, 1) → (o, k) ≠ (bob, 1) →
          balances st' !! (o, k) = balances ledger10 !! (o, k)) ∧
  (is_Some (balances st' !! (nftacct, 1)) ↔ balance_of ledger10 nftacct 1 ≠ 4).
Proof.
  apply (transfer_effect (host [nftacct]) ledger10 nftacct bob 1 4 "t" _
           (outcome (host [nftacct]) (Transfer nftacct bob 1 4 "t")
              ledger10).2).
  - vm_compute. reflexivity.
  - vm_compute. by split.
  - vm_compute. by split.
Defined.

Lemma reachable_sum_witness : total_balance ledger10 1 = supply_of ledger10 1.
Proof. exact (reachable_sum ledger10 1 ledger10_reachable). Defined.

Lemma reachable_rows_witness :
  (is_Some (balances ledger10 !! (bob, 1)) ↔ 0 < balance_of ledger10 bob 1) ∧
  (∀ b, balances ledger10 !! (bob, 1) = Some b → 0 < b_balance b).
Proof. exact (reachable_rows ledger10 bob 1 ledger10_reachable). Defined.

(** X17.  Whatever the quantities, no action leaves a stored supply above
    the cap of its asset. *)
Theorem reachable_supply_capped (st : ledger) :
  reachable_by typed st → supply_capped st.
Proof.
  induction 1 as [|e a st st' tr _ IH Ha Hexec].
  - intros k x Hx. cbn in Hx. by rewrite lookup_empty in Hx.
  - by eapply supply_capped_preserved.
Qed.

Lemma reachable_supply_capped_witness : supply_capped ledger_full.
Proof.
  apply reachable_supply_capped, replay_reachable; [constructor|].
  repeat constructor; vm_compute; by repeat split.
Defined.

(** ** The client scripts *)

(** X23.  The scripts take a quantity that is the number 0 for a missing
    one: [createCol] throws for a royalty of 0, [createAsset] for a
    collection, a supply or a cap of 0, [mint] and [transfer] for an asset
    or an amount of 0, and none of them calls [api.transact] then. *)
Theorem scripts_refuse_zero (JSON_stringify : actions_js.js_value → string) :
  (∀ properties,
     actions_js.lookup_property "royalty" properties = actions_js.js_int 0 →
     actions_js.createCol JSON_stringify (actions_js.js_object properties)
       = actions_js.throws "Missing parameters") ∧
  (∀ properties,
     actions_js.lookup_property "collection_id" properties
       = actions_js.js_int 0 ∨
     actions_js.lookup_property "supply" properties = actions_js.js_int 0 ∨
     actions_js.lookup_property "max_supply" properties
       = actions_js.js_int 0 →
     actions_js.createAsset JSON_stringify (actions_js.js_object properties)
       = actions_js.throws "Missing parameters") ∧
  (∀ to asset_id amount memo,
     asset_id = actions_js.js_int 0 ∨ amount = actions_js.js_int 0 →
     actions_js.mint to asset_id amount memo
       = actions_js.throws "Missing parameters") ∧
  (∀ from to asset_id amount memo,
     asset_id = actions_js.js_int 0 ∨ amount = actions_js.js_int 0 →
     actions_js.transfer from to asset_id amount memo
       = actions_js.throws "Missing parameters").
Proof.
  split_and!.
  - intros properties Hr. unfold actions_js.createCol. cbv zeta.
    cbn [actions_js.get]. rewrite Hr. cbn. by rewrite orb_true_r.
  - intros properties H. unfold actions_js.createAsset. cbv zeta.
    cbn [actions_js.get].
    destruct H as [H|[H|H]]; rewrite H; cbn; by rewrite ?orb_true_r.
  - intros to asset_id amount memo [-> | ->]; unfold actions_js.mint; cbn;
      by rewrite ?orb_true_r.
  - intros from to asset_id amount memo [-> | ->];
      unfold actions_js.transfer; cbn; by rewrite ?orb_true_r.
Qed.

(** The collection of the README's example has a royalty of 0. *)
Example readme_collection_refused JSON_stringify :
  actions_js.createCol JSON_stringify actions_js.readme_collection
    = actions_js.throws "Missing parameters".
Proof. reflexivity. Qed.

(** X24.  Whatever the arguments, a transaction that a script submits
    carries the authorization of the contract account and of no one else,
    with the options of the source. *)
Theorem scripts_sign_as_contract
    (JSON_stringify : actions_js.js_value → string)
    (params to from asset_id amount memo tx opts : actions_js.js_value) :
  actions_js.createCol JSON_stringify params = actions_js.transact tx opts ∨
  actions_js.createAsset JSON_stringify params = actions_js.transact tx opts ∨
  actions_js.mint to asset_id amount memo = actions_js.transact tx opts ∨
  actions_js.transfer from to asset_id amount memo
    = actions_js.transact tx opts →
  actions_js.actors tx = [actions_js.js_string actions_js.nftContract] ∧
  opts = actions_js.options.
Proof.
  intros [H|[H|[H|H]]].
  - unfold actions_js.createCol in H. cbv zeta in H.
    destruct params; try discriminate;
      (destruct (_ || _) in H; [discriminate|]); by simplify_eq.
  - unfold actions_js.createAsset in H. cbv zeta in H.
    destruct params; try discriminate;
      (destruct (_ || _) in H; [discriminate|]); by simplify_eq.
  - unfold actions_js.mint in H.
    destruct (_ || _) in H; [discriminate|]. by simplify_eq.
  - unfold actions_js.transfer in H.
    destruct (_ || _) in H; [discriminate|]. by simplify_eq.
Qed.

Lemma scripts_sign_as_contract_witness :
  actions_js.actors
    (actions_js.transaction "transfer"
       (actions_js.js_object
          [("from", actions_js.js_string "alice");
           ("to", actions_js.js_string "bob");
           ("asset_id", actions_js.js_int 1);
           ("amount", actions_js.js_int 4);
           ("memo", actions_js.js_string "t")]))
    = [actions_js.js_string actions_js.nftContract] ∧
  actions_js.options = actions_js.options.
Proof.
  apply (scripts_sign_as_contract (λ _, "") actions_js.js_undefined
           (actions_js.js_string "bob") (actions_js.js_string "alice")
           (actions_js.js_int 1) (actions_js.js_int 4)
           (actions_js.js_string "t")).
  do 3 right. reflexivity.
Defined.
